(** * jSquash JPEG XL codec bindings: encoder and decoder glue

    A shallow embedding of [packages/jxl/codec/enc/jxl_enc.cpp] and
    [packages/jxl/codec/dec/jxl_dec.cpp].

    Conventions.
    - C++ integers are [Z] with the wrap-around of their width written out;
      [size_t] has [size_bits] bits (32 under wasm32, 64 under wasm64).
    - [float] values are idealised as real numbers ([R]): rounding, NaN and
      infinities are outside the model, and [std::pow]/[powf] is [Rpower].
    - Calls into libjxl and skcms are events of an interaction tree; the
      library is a handler that answers them. *)

From Stdlib Require Import ZArith List Bool Lia String Reals Lra.
From Stdlib.Strings Require Import Byte.
From ITree Require Import ITree Eq.Shallow.
Import ListNotations.
Import ITreeNotations.

Local Open Scope itree_scope.
Local Open Scope Z_scope.

(** ** Machine integers *)

Module Int.

Definition wrap (bits x : Z) : Z := x mod 2 ^ bits.

Definition max_unsigned (bits : Z) : Z := 2 ^ bits - 1.

(** [static_cast<uint32_t>] *)
Definition to_uint32 (x : Z) : Z := wrap 32 x.

(** [int]: 32 bits, two's complement *)
Definition int_min : Z := - 2 ^ 31.
Definition int_max : Z := 2 ^ 31 - 1.
Definition is_int (x : Z) : Prop := int_min <= x <= int_max.
Definition is_uint32 (x : Z) : Prop := 0 <= x <= max_unsigned 32.

(** [(int)x] for a 32-bit unsigned [x] *)
Definition to_int (x : Z) : Z := wrap 32 (x + 2 ^ 31) - 2 ^ 31.

End Int.

(** ** Floating-point helpers (idealised over the reals) *)

Module Flt.

Local Open Scope R_scope.

(** [std::clamp(v, lo, hi)]: [(v < lo) ? lo : (hi < v) ? hi : v] *)
Definition clamp (v lo hi : R) : R :=
  if Rlt_dec v lo then lo else if Rlt_dec hi v then hi else v.

(** [std::min(a, b)]: [(b < a) ? b : a] *)
Definition min (a b : R) : R := if Rlt_dec b a then b else a.

(** [std::max(a, b)]: [(a < b) ? b : a] *)
Definition max (a b : R) : R := if Rlt_dec a b then b else a.

(** Conversion of a float to an integer type truncates toward zero. *)
Definition trunc (x : R) : Z :=
  if Rle_dec 0 x then Int_part x else (- Int_part (- x))%Z.

(** [std::round]: nearest integer, halfway cases away from zero. *)
Definition round (x : R) : Z :=
  if Rle_dec 0 x then Int_part (x + / 2) else (- Int_part (- x + / 2))%Z.

End Flt.

(** ** Running an interaction tree against a library

    The library (libjxl, skcms) is a state machine [h] that answers each
    call; [exec] runs a program against it for at most [fuel] steps and
    returns the final library state, the log of calls with their answers,
    and the program's result. *)

Module Run.

Section Exec.

Context {E : Type -> Type} {St Res : Type}.

Record entry : Type :=
  Answered { ev_type : Type; ev : E ev_type; ans : ev_type }.

Definition handler : Type := forall X, E X -> St -> St * X.

Variable h : handler.

Fixpoint exec (fuel : nat) (s : St) (t : itree E Res)
  : option (St * list entry * Res) :=
  match fuel with
  | O => None
  | S fuel' =>
    match observe t with
    | RetF r => Some (s, [], r)
    | TauF u => exec fuel' s u
    | VisF e k =>
      let (s', x) := h _ e s in
      match exec fuel' s' (k x) with
      | Some (s'', log, r) => Some (s'', Answered _ e x :: log, r)
      | None => None
      end
    end
  end.

End Exec.

(** The values [f] reads off the entries of a log, in order. *)
Fixpoint pick {E : Type -> Type} {A : Type} (f : @entry E -> option A)
    (l : list (@entry E)) : list A :=
  match l with
  | [] => []
  | en :: l' =>
    match f en with
    | Some a => a :: pick f l'
    | None => pick f l'
    end
  end.

Arguments entry : clear implicits.
Arguments handler : clear implicits.

(** [holds t Q]: whatever library [t] runs against, if it returns, the log
    of the run and the result satisfy [Q]. *)
Definition holds {E : Type -> Type} {Res : Type} (t : itree E Res)
    (Q : list (entry E) -> Res -> Prop) : Prop :=
  forall St (h : handler E St) f s s' log r,
    exec h f s t = Some (s', log, r) -> Q log r.

(** [emits P t]: every call [t] makes, with its answer, satisfies [P]. *)
Definition emits {E : Type -> Type} {Res : Type} (P : entry E -> Prop)
    (t : itree E Res) : Prop :=
  holds t (fun log _ => Forall P log).

(** [reads f pre Q t]: whatever library [t] runs against, if it returns,
    what [f] reads off its log, put after [pre], and the result satisfy
    [Q]. *)
Definition reads {E : Type -> Type} {Res A : Type}
    (f : entry E -> option A) (pre : list A) (Q : list A -> Res -> Prop)
    (t : itree E Res) : Prop :=
  holds t (fun log r => Q (pre ++ pick f log) r).

(** [bounded n t]: every path of [t] ends in fewer than [n] steps. *)
Fixpoint bounded {E : Type -> Type} {Res : Type} (n : nat)
    (t : itree E Res) : Prop :=
  match n with
  | O => False
  | S n' =>
    match observe t with
    | RetF _ => True
    | TauF u => bounded n' u
    | VisF e k => forall x, bounded n' (k x)
    end
  end.

(** [returns h t]: run against the library [h], [t] returns from every
    state of [h], given enough steps. *)
Definition returns {E : Type -> Type} {St Res : Type} (h : handler E St)
    (t : itree E Res) : Prop :=
  forall s, exists f v, exec h f s t = Some v.

(** Acquiring and releasing a library handle, as read off a log. *)
Inductive lifecycle : Type := Acquired (ok : bool) | Released.

(** [follows lg t r]: given the answers recorded in [lg], [t] makes
    exactly the calls of [lg], in order, and then returns [r]. *)
Inductive follows {E : Type -> Type} {Res : Type}
  : list (entry E) -> itree E Res -> Res -> Prop :=
| follows_ret (t : itree E Res) (r : Res) :
    observe t = RetF r -> follows [] t r
| follows_tau (t u : itree E Res) (lg : list (entry E)) (r : Res) :
    observe t = TauF u -> follows lg u r -> follows lg t r
| follows_vis (t : itree E Res) (X : Type) (e : E X) (k : X -> itree E Res)
    (x : X) (lg : list (entry E)) (r : Res) :
    observe t = VisF e k -> follows lg (k x) r ->
    follows (Answered _ e x :: lg) t r.

(** [consistent h s lg s']: answering the calls of [lg] one after the
    other takes the library [h] from state [s] to state [s'], with the
    answers recorded in [lg]. *)
Fixpoint consistent {E : Type -> Type} {St : Type} (h : handler E St)
    (s : St) (lg : list (entry E)) (s' : St) : Prop :=
  match lg with
  | [] => s = s'
  | Answered _ e x :: lg' =>
    exists s1, h _ e s = (s1, x) /\ consistent h s1 lg' s'
  end.

(** [iterates h step s i s' lg rounds r]: run against [h] from state [s],
    the loop [ITree.iter step i] runs [step] once on each of the loop
    states [rounds], the first of which is [i], and leaves with [r], the
    log [lg] and the library in state [s']. *)
Inductive iterates {E : Type -> Type} {St I Res : Type} (h : handler E St)
    (step : I -> itree E (I + Res))
  : St -> I -> St -> list (entry E) -> list I -> Res -> Prop :=
| iterates_exit (s : St) (i : I) (fuel : nat) (s' : St)
    (lg : list (entry E)) (r : Res) :
    exec h fuel s (step i) = Some (s', lg, inr r) ->
    iterates h step s i s' lg [i] r
| iterates_continue (s : St) (i : I) (fuel : nat) (s1 : St)
    (lg1 : list (entry E)) (i1 : I) (s' : St) (lg : list (entry E))
    (rounds : list I) (r : Res) :
    exec h fuel s (step i) = Some (s1, lg1, inl i1) ->
    iterates h step s1 i1 s' lg rounds r ->
    iterates h step s i s' (lg1 ++ lg) (i :: rounds) r.

End Run.

(** ** Declarations of the libjxl headers used by the encoder

    Enumerators carry the values of [jxl/encode.h], [jxl/types.h] and
    [jxl/color_encoding.h]; records list the fields the glue code reads or
    writes. *)

Module Jxl.

(** [JxlEncoderStatus] *)
Definition JXL_ENC_SUCCESS : Z := 0.
Definition JXL_ENC_ERROR : Z := 1.
Definition JXL_ENC_NEED_MORE_OUTPUT : Z := 2.

Inductive JxlDataType : Type :=
| JXL_TYPE_FLOAT | JXL_TYPE_UINT8 | JXL_TYPE_UINT16 | JXL_TYPE_FLOAT16.

Inductive JxlEndianness : Type :=
| JXL_NATIVE_ENDIAN | JXL_LITTLE_ENDIAN | JXL_BIG_ENDIAN.

Record JxlPixelFormat : Type := {
  num_channels : Z;
  data_type : JxlDataType;
  endianness : JxlEndianness;
  align : Z
}.

(** Bytes of one sample of a [JxlDataType]. *)
Definition sample_bytes (t : JxlDataType) : Z :=
  match t with
  | JXL_TYPE_FLOAT => 4
  | JXL_TYPE_UINT8 => 1
  | JXL_TYPE_UINT16 => 2
  | JXL_TYPE_FLOAT16 => 2
  end.

(** [JxlColorSpace] *)
Definition JXL_COLOR_SPACE_RGB : Z := 0.
(** [JxlWhitePoint] *)
Definition JXL_WHITE_POINT_D65 : Z := 1.
(** [JxlPrimaries] *)
Definition JXL_PRIMARIES_SRGB : Z := 1.
Definition JXL_PRIMARIES_2100 : Z := 9.
Definition JXL_PRIMARIES_P3 : Z := 11.
(** [JxlTransferFunction] *)
Definition JXL_TRANSFER_FUNCTION_LINEAR : Z := 8.
Definition JXL_TRANSFER_FUNCTION_SRGB : Z := 13.
Definition JXL_TRANSFER_FUNCTION_PQ : Z := 16.
Definition JXL_TRANSFER_FUNCTION_HLG : Z := 18.
(** [JxlRenderingIntent] *)
Definition JXL_RENDERING_INTENT_PERCEPTUAL : Z := 0.

Record JxlColorEncoding : Type := {
  color_space : Z;
  white_point : Z;
  white_point_xy : R * R;
  primaries : Z;
  primaries_red_xy : R * R;
  primaries_green_xy : R * R;
  primaries_blue_xy : R * R;
  transfer_function : Z;
  gamma : R;
  rendering_intent : Z
}.

(** [JxlColorEncoding color_encoding = {}] *)
Definition zero_color_encoding : JxlColorEncoding :=
  {| color_space := 0; white_point := 0; white_point_xy := (0, 0)%R;
     primaries := 0; primaries_red_xy := (0, 0)%R;
     primaries_green_xy := (0, 0)%R; primaries_blue_xy := (0, 0)%R;
     transfer_function := 0; gamma := 0%R; rendering_intent := 0 |}.

(** The fields of [JxlBasicInfo] that the glue code sets (encoder) or
    reads (decoder). *)
Record JxlBasicInfo : Type := {
  xsize : Z;
  ysize : Z;
  bits_per_sample : Z;
  exponent_bits_per_sample : Z;
  num_color_channels : Z;
  num_extra_channels : Z;
  alpha_bits : Z;
  alpha_exponent_bits : Z;
  alpha_premultiplied : bool;
  uses_original_profile : bool
}.

Inductive JxlExtraChannelType : Type := JXL_CHANNEL_ALPHA.

Record JxlExtraChannelInfo : Type := {
  ec_type : JxlExtraChannelType;
  ec_bits_per_sample : Z;
  ec_exponent_bits_per_sample : Z;
  ec_alpha_premultiplied : bool
}.

Inductive JxlEncoderFrameSettingId : Type :=
| JXL_ENC_FRAME_SETTING_EFFORT
| JXL_ENC_FRAME_SETTING_DECODING_SPEED
| JXL_ENC_FRAME_SETTING_EPF
| JXL_ENC_FRAME_SETTING_PHOTON_NOISE
| JXL_ENC_FRAME_SETTING_LOSSY_PALETTE
| JXL_ENC_FRAME_SETTING_PALETTE_COLORS
| JXL_ENC_FRAME_SETTING_MODULAR
| JXL_ENC_FRAME_SETTING_QPROGRESSIVE_AC
| JXL_ENC_FRAME_SETTING_RESPONSIVE
| JXL_ENC_FRAME_SETTING_PROGRESSIVE_DC.

(** Calls into the encoder library.  A call that returns a pointer
    answers [true] for a non-null pointer.  [JxlEncoderProcessOutput]
    answers its status together with the bytes it stored at [next_out];
    it advances [next_out] and lowers [avail_out] by their number. *)
Variant EncE : Type -> Type :=
| JxlEncoderCreate : EncE bool
| JxlEncoderDestroy : EncE unit
| JxlEncoderSetBasicInfo (info : JxlBasicInfo) : EncE Z
| JxlEncoderGetRequiredCodestreamLevel : EncE Z
| JxlEncoderSetCodestreamLevel (level : Z) : EncE Z
| JxlEncoderSetExtraChannelInfo (index : Z) (info : JxlExtraChannelInfo)
    : EncE Z
| JxlEncoderSetColorEncoding (color : JxlColorEncoding) : EncE Z
| JxlEncoderFrameSettingsCreate : EncE bool
| JxlEncoderFrameSettingsSetOption (option : JxlEncoderFrameSettingId)
    (value : Z) : EncE Z
| JxlEncoderSetFrameLossless (lossless : bool) : EncE Z
| JxlEncoderSetFrameDistance (distance : R) : EncE Z
| JxlEncoderAddImageFrame (pixel_format : JxlPixelFormat)
    (buffer : list byte) (size : Z) : EncE Z
| JxlEncoderCloseInput : EncE unit
| JxlEncoderProcessOutput (next_out avail_out : Z) : EncE (Z * list byte).

End Jxl.

(** ** Encoder: size arithmetic and option validation *)

Module Enc.

Section SizeT.

(** Width of [size_t] in bits. *)
Variable size_bits : Z.

Definition to_size (x : Z) : Z := Int.wrap size_bits x.

(** [std::numeric_limits<size_t>::max()] *)
Definition size_max : Z := Int.max_unsigned size_bits.

Definition is_size (x : Z) : Prop := 0 <= x <= size_max.

(** [ComputeExpectedSize], jxl_enc.cpp lines 40-59.  The out-parameter
    [*expected_size] is threaded through: the function takes its old
    contents and returns the new ones next to the [bool] result. *)
Definition ComputeExpectedSize
    (width height num_channels bytes_per_sample : Z)
    (expected_size : Z) : bool * Z :=
  if (width =? 0) || (height =? 0) || (num_channels <=? 0)
     || (bytes_per_sample =? 0)
  then (false, expected_size)
  else
    let width_s := to_size width in
    let height_s := to_size height in
    let channels_s := to_size num_channels in
    let max_size := size_max in
    if max_size / height_s <? width_s then (false, expected_size) else
    let pixels := to_size (width_s * height_s) in
    if max_size / channels_s <? pixels then (false, expected_size) else
    let samples := to_size (pixels * channels_s) in
    if max_size / bytes_per_sample <? samples then (false, expected_size)
    else (true, to_size (samples * bytes_per_sample)).

End SizeT.

(** [struct JXLOptions], jxl_enc.cpp lines 23-38. *)
Record JXLOptions : Type := {
  effort : Z;
  quality : R;
  progressive : bool;
  epf : Z;
  lossyPalette : bool;
  decodingSpeedTier : Z;
  photonNoiseIso : R;
  lossyModular : bool;
  lossless : bool;
  bitDepth : Z;
  inputType : Z;
  numChannels : Z;
  colorSpace : Z;
  premultipliedAlpha : bool
}.

(** [IsSupportedCombination], jxl_enc.cpp lines 61-66. *)
Definition IsSupportedCombination (input_type bit_depth : Z) : bool :=
  if input_type =? 0 then bit_depth =? 8
  else if input_type =? 1
    then (bit_depth =? 10) || (bit_depth =? 12) || (bit_depth =? 16)
  else if input_type =? 2 then bit_depth =? 32
  else false.

Import Jxl.

Section ColorEncoding.

(** [JxlColorEncodingSetToLinearSRGB] and [JxlColorEncodingSetToSRGB] of
    libjxl overwrite the whole structure; the argument is [is_gray]. *)
Variable JxlColorEncodingSetToLinearSRGB : bool -> JxlColorEncoding.
Variable JxlColorEncodingSetToSRGB : bool -> JxlColorEncoding.

(** [SetupColorEncoding], jxl_enc.cpp lines 68-103.  The structure behind
    [color_encoding] is passed in and returned next to the result. *)
Definition SetupColorEncoding (color_space input_type : Z)
    (color_encoding : JxlColorEncoding) : bool * JxlColorEncoding :=
  if color_space =? 0 then
    if input_type =? 2
    then (true, JxlColorEncodingSetToLinearSRGB false)
    else (true, JxlColorEncodingSetToSRGB false)
  else
    let color_encoding :=
      {| Jxl.color_space := JXL_COLOR_SPACE_RGB;
         white_point := JXL_WHITE_POINT_D65;
         white_point_xy := white_point_xy color_encoding;
         primaries := primaries color_encoding;
         primaries_red_xy := primaries_red_xy color_encoding;
         primaries_green_xy := primaries_green_xy color_encoding;
         primaries_blue_xy := primaries_blue_xy color_encoding;
         transfer_function := transfer_function color_encoding;
         gamma := gamma color_encoding;
         rendering_intent := JXL_RENDERING_INTENT_PERCEPTUAL |} in
    let with_primaries_transfer (p tf : Z) :=
      {| Jxl.color_space := Jxl.color_space color_encoding;
         white_point := white_point color_encoding;
         white_point_xy := white_point_xy color_encoding;
         primaries := p;
         primaries_red_xy := primaries_red_xy color_encoding;
         primaries_green_xy := primaries_green_xy color_encoding;
         primaries_blue_xy := primaries_blue_xy color_encoding;
         transfer_function := tf;
         gamma := gamma color_encoding;
         rendering_intent := rendering_intent color_encoding |} in
    if color_space =? 1 then
      (true, with_primaries_transfer JXL_PRIMARIES_P3
               (if input_type =? 2 then JXL_TRANSFER_FUNCTION_LINEAR
                else JXL_TRANSFER_FUNCTION_SRGB))
    else if color_space =? 2 then
      (true, with_primaries_transfer JXL_PRIMARIES_2100
               JXL_TRANSFER_FUNCTION_PQ)
    else if color_space =? 3 then
      (true, with_primaries_transfer JXL_PRIMARIES_2100
               JXL_TRANSFER_FUNCTION_HLG)
    else (false, color_encoding).

End ColorEncoding.

(** [SetFrameOption], jxl_enc.cpp lines 105-109. *)
Definition SetFrameOption (option : JxlEncoderFrameSettingId) (value : Z)
  : itree EncE bool :=
  st <- ITree.trigger (JxlEncoderFrameSettingsSetOption option value) ;;
  Ret (st =? JXL_ENC_SUCCESS).

(** [std::clamp] and [std::min] on integers. *)
Definition clampZ (v lo hi : Z) : Z :=
  if v <? lo then lo else if hi <? v then hi else v.
Definition minZ (a b : Z) : Z := if b <? a then b else a.

(** The [distance] computed from the clamped [quality], jxl_enc.cpp
    lines 272-285. *)
Definition distance (quality : R) : R :=
  if Rle_dec 100 quality then 0%R
  else if Rle_dec 30 quality then (0.1 + (100 - quality) * 0.09)%R
  else (6.4 + Rpower 2.5 ((30 - quality) / 5) / 6.25)%R.

(** The distance [encode] sets for [options.quality]: the quality is
    clamped first, jxl_enc.cpp line 271. *)
Definition quality_to_distance (quality : R) : R :=
  distance (Flt.clamp quality 0 100).

(** [std::vector<uint8_t>::resize]: cut, or pad with zero bytes. *)
Definition resize (v : list byte) (n : Z) : list byte :=
  firstn (Z.to_nat n) v ++ repeat x00 (Z.to_nat n - List.length v).

Definition size (v : list byte) : Z := Z.of_nat (List.length v).

(** What [JxlEncoderProcessOutput] leaves in the buffer: the [written]
    bytes stored from offset [next_out] on. *)
Definition store (v : list byte) (next_out : Z) (written : list byte)
  : list byte :=
  firstn (Z.to_nat next_out) v ++ written
    ++ skipn (Z.to_nat next_out + List.length written) v.

(** State of the output loop: the vector [compressed], [next_out] as an
    offset from [compressed.data()], and [avail_out]. *)
Definition out_state : Type := list byte * Z * Z.

Section Encode.

Variable size_bits : Z.
Variable JxlColorEncodingSetToLinearSRGB : bool -> JxlColorEncoding.
Variable JxlColorEncodingSetToSRGB : bool -> JxlColorEncoding.

(** Leaving [encode] once [encoder] holds a handle runs its deleter. *)
Definition leave (result : option (list byte))
  : itree EncE (option (list byte)) :=
  ITree.trigger JxlEncoderDestroy ;; Ret result.

(** One round of the [while (true)] loop, jxl_enc.cpp lines 306-324:
    [inl] continues with the grown buffer, [inr] leaves the function. *)
Definition output_step (st : out_state)
  : itree EncE (out_state + option (list byte)) :=
  let '(compressed, next_out, avail_out) := st in
  r <- ITree.trigger (JxlEncoderProcessOutput next_out avail_out) ;;
  let '(process_result, written) := r in
  let compressed := store compressed next_out written in
  let next_out := next_out + size written in
  let avail_out := avail_out - size written in
  if process_result =? JXL_ENC_NEED_MORE_OUTPUT then
    let offset := next_out in
    let compressed :=
      resize compressed (to_size size_bits (size compressed * 2)) in
    let next_out := offset in
    let avail_out := to_size size_bits (size compressed - offset) in
    Ret (inl (compressed, next_out, avail_out))
  else if negb (process_result =? JXL_ENC_SUCCESS) then
    r <- leave None ;; Ret (inr r)
  else
    let compressed := resize compressed next_out in
    r <- leave (Some compressed) ;; Ret (inr r).

(** jxl_enc.cpp lines 302-326. *)
Definition collect_output : itree EncE (option (list byte)) :=
  let compressed := repeat x00 (Z.to_nat 8192) in
  ITree.iter output_step (compressed, 0, size compressed).

(** jxl_enc.cpp lines 266-326: lossless flag or distance, the frame,
    and the output loop. *)
Definition encode_frame (image : list byte) (options : JXLOptions)
    (data_type : JxlDataType) : itree EncE (option (list byte)) :=
  let add_frame : itree EncE (option (list byte)) :=
    let pixel_format :=
      {| num_channels := Int.to_uint32 (numChannels options);
         Jxl.data_type := data_type;
         endianness := JXL_NATIVE_ENDIAN;
         align := 0 |} in
    st <- ITree.trigger
            (JxlEncoderAddImageFrame pixel_format image (size image)) ;;
    if negb (st =? JXL_ENC_SUCCESS) then leave None else
    ITree.trigger JxlEncoderCloseInput ;;
    collect_output in
  if lossless options then
    st <- ITree.trigger (JxlEncoderSetFrameLossless true) ;;
    if negb (st =? JXL_ENC_SUCCESS) then leave None else add_frame
  else
    let quality := Flt.clamp (quality options) 0 100 in
    ok <- (if Rle_dec 100 quality then
             if lossyModular options
             then SetFrameOption JXL_ENC_FRAME_SETTING_MODULAR 1
             else Ret true
           else Ret true) ;;
    if negb ok then leave None else
    st <- ITree.trigger (JxlEncoderSetFrameDistance (distance quality)) ;;
    if negb (st =? JXL_ENC_SUCCESS) then leave None else add_frame.

(** jxl_enc.cpp lines 213-264: the frame settings. *)
Definition encode_settings (image : list byte) (options : JXLOptions)
    (data_type : JxlDataType) : itree EncE (option (list byte)) :=
  frame_settings <- ITree.trigger JxlEncoderFrameSettingsCreate ;;
  if negb frame_settings then leave None else
  ok <- SetFrameOption JXL_ENC_FRAME_SETTING_EFFORT
          (clampZ (effort options) 1 9) ;;
  if negb ok then leave None else
  let decoding_speed := minZ (decodingSpeedTier options) 4 in
  ok <- SetFrameOption JXL_ENC_FRAME_SETTING_DECODING_SPEED
          (clampZ decoding_speed 0 4) ;;
  if negb ok then leave None else
  ok <- (if (-1 <=? epf options) && (epf options <=? 3)
         then SetFrameOption JXL_ENC_FRAME_SETTING_EPF (epf options)
         else Ret true) ;;
  if negb ok then leave None else
  ok <- (if Rlt_dec 0 (photonNoiseIso options)
         then SetFrameOption JXL_ENC_FRAME_SETTING_PHOTON_NOISE
                (Flt.round (photonNoiseIso options))
         else Ret true) ;;
  if negb ok then leave None else
  ok <- (if lossyPalette options then
           ok <- SetFrameOption JXL_ENC_FRAME_SETTING_LOSSY_PALETTE 1 ;;
           if negb ok then Ret false else
           ok <- SetFrameOption JXL_ENC_FRAME_SETTING_PALETTE_COLORS 0 ;;
           if negb ok then Ret false else
           SetFrameOption JXL_ENC_FRAME_SETTING_MODULAR 1
         else Ret true) ;;
  if negb ok then leave None else
  ok <- (if lossyModular options
         then SetFrameOption JXL_ENC_FRAME_SETTING_MODULAR 1
         else Ret true) ;;
  if negb ok then leave None else
  ok <- (if progressive options then
           ok <- SetFrameOption JXL_ENC_FRAME_SETTING_QPROGRESSIVE_AC 1 ;;
           if negb ok then Ret false else
           ok <- SetFrameOption JXL_ENC_FRAME_SETTING_RESPONSIVE 1 ;;
           if negb ok then Ret false else
           if negb (lossyModular options)
           then SetFrameOption JXL_ENC_FRAME_SETTING_PROGRESSIVE_DC 1
           else Ret true
         else Ret true) ;;
  if negb ok then leave None else
  encode_frame image options data_type.

(** jxl_enc.cpp lines 164-211: basic info, codestream level, alpha
    channel and colour encoding. *)
Definition encode_header (image : list byte) (width height : Z)
    (options : JXLOptions) (data_type : JxlDataType)
  : itree EncE (option (list byte)) :=
  let has_alpha := numChannels options =? 4 in
  let bits := Int.to_uint32 (bitDepth options) in
  let exponent_bits := if inputType options =? 2 then 8 else 0 in
  let basic_info :=
    {| xsize := Int.to_uint32 width;
       ysize := Int.to_uint32 height;
       bits_per_sample := bits;
       exponent_bits_per_sample := exponent_bits;
       num_color_channels := 3;
       num_extra_channels := if has_alpha then 1 else 0;
       alpha_bits := if has_alpha then bits else 0;
       alpha_exponent_bits := if has_alpha then exponent_bits else 0;
       alpha_premultiplied := has_alpha && premultipliedAlpha options;
       uses_original_profile := true |} in
  st <- ITree.trigger (JxlEncoderSetBasicInfo basic_info) ;;
  if negb (st =? JXL_ENC_SUCCESS) then leave None else
  required_level <- ITree.trigger JxlEncoderGetRequiredCodestreamLevel ;;
  if required_level <? 0 then leave None else
  st <- (if required_level =? 10
         then ITree.trigger (JxlEncoderSetCodestreamLevel 10)
         else Ret JXL_ENC_SUCCESS) ;;
  if negb (st =? JXL_ENC_SUCCESS) then leave None else
  st <- (if has_alpha then
           let alpha_info :=
             {| ec_type := JXL_CHANNEL_ALPHA;
                ec_bits_per_sample := alpha_bits basic_info;
                ec_exponent_bits_per_sample :=
                  alpha_exponent_bits basic_info;
                ec_alpha_premultiplied :=
                  alpha_premultiplied basic_info |} in
           ITree.trigger (JxlEncoderSetExtraChannelInfo 0 alpha_info)
         else Ret JXL_ENC_SUCCESS) ;;
  if negb (st =? JXL_ENC_SUCCESS) then leave None else
  let '(ok, color_encoding) :=
    SetupColorEncoding JxlColorEncodingSetToLinearSRGB
      JxlColorEncodingSetToSRGB (colorSpace options) (inputType options)
      zero_color_encoding in
  if negb ok then leave None else
  st <- ITree.trigger (JxlEncoderSetColorEncoding color_encoding) ;;
  if negb (st =? JXL_ENC_SUCCESS) then leave None else
  encode_settings image options data_type.

(** [encode], jxl_enc.cpp lines 111-327, built without
    [__EMSCRIPTEN_PTHREADS__].  [None] is [val::null()]; [Some bytes] is
    the [Uint8Array] copied from [compressed]. *)
Definition encode (image : list byte) (width height : Z)
    (options : JXLOptions) : itree EncE (option (list byte)) :=
  if (width <=? 0) || (height <=? 0) then Ret None else
  if negb (numChannels options =? 3) && negb (numChannels options =? 4)
  then Ret None else
  if negb (IsSupportedCombination (inputType options) (bitDepth options))
  then Ret None else
  let '(data_type, bytes_per_sample) :=
    if inputType options =? 1 then (JXL_TYPE_UINT16, 2)
    else if inputType options =? 2 then (JXL_TYPE_FLOAT, 4)
    else (JXL_TYPE_UINT8, 1) in
  let '(ok, expected_size) :=
    ComputeExpectedSize size_bits (Int.to_uint32 width)
      (Int.to_uint32 height) (numChannels options) bytes_per_sample 0 in
  if negb ok then Ret None else
  if negb (expected_size =? size image) then Ret None else
  encoder <- ITree.trigger JxlEncoderCreate ;;
  if negb encoder then Ret None else
  encode_header image width height options data_type.

End Encode.

(** *** Reading a log of encoder calls *)

Definition lossless_of (en : Run.entry EncE) : option bool :=
  match en with
  | Run.Answered _ e a =>
    match e with
    | JxlEncoderSetFrameLossless b => Some b
    | _ => None
    end
  end.

Definition distance_of (en : Run.entry EncE) : option R :=
  match en with
  | Run.Answered _ e a =>
    match e with
    | JxlEncoderSetFrameDistance d => Some d
    | _ => None
    end
  end.

(** The distances set in a run. *)
Definition distances_set (l : list (Run.entry EncE)) : list R :=
  Run.pick distance_of l.

(** The lossless flags set in a run. *)
Definition lossless_flags (l : list (Run.entry EncE)) : list bool :=
  Run.pick lossless_of l.

(** A call of [JxlEncoderProcessOutput] with its answer. *)
Record output_call : Type := {
  oc_next_out : Z;
  oc_avail_out : Z;
  oc_status : Z;
  oc_written : list byte
}.

Definition output_call_of (en : Run.entry EncE) : option output_call :=
  match en with
  | Run.Answered _ e a =>
    match e in EncE X return X -> option output_call with
    | JxlEncoderProcessOutput next_out avail_out => fun a =>
        Some {| oc_next_out := next_out; oc_avail_out := avail_out;
                oc_status := fst a; oc_written := snd a |}
    | _ => fun _ => None
    end a
  end.

(** The calls of [JxlEncoderProcessOutput] in a run. *)
Definition output_calls (l : list (Run.entry EncE)) : list output_call :=
  Run.pick output_call_of l.

(** The answers of these calls. *)
Definition answers (calls : list output_call) : list (Z * list byte) :=
  map (fun c => (oc_status c, oc_written c)) calls.

(** All the bytes the library stored in these calls, in order. *)
Definition written_by (calls : list output_call) : list byte :=
  List.concat (map oc_written calls).

(** The library stored no more than [avail_out] bytes. *)
Definition within_avail (c : output_call) : Prop :=
  size (oc_written c) <= oc_avail_out c.

Definition asks_for_more (c : output_call) : Prop :=
  oc_status c = JXL_ENC_NEED_MORE_OUTPUT.

(** Call number [i] (from 0) is given a buffer of [8192 * 2^i] bytes in
    all, of which the first [next_out] hold what was stored before. *)
Definition on_schedule (calls : list output_call) : Prop :=
  forall i c, nth_error calls i = Some c ->
    oc_next_out c + oc_avail_out c = 8192 * 2 ^ Z.of_nat i
    /\ oc_next_out c = size (written_by (firstn i calls)).

(** The state of the output loop after [calls], all of which asked for
    more room. *)
Definition good_output_state (calls : list output_call) (st : out_state)
  : Prop :=
  let '(compressed, next_out, avail_out) := st in
  size compressed = 8192 * 2 ^ Z.of_nat (List.length calls)
  /\ next_out = size (written_by calls)
  /\ avail_out = size compressed - next_out
  /\ 0 <= avail_out
  /\ firstn (Z.to_nat next_out) compressed = written_by calls.

(** The frame options set in a run, with their values. *)
Definition option_set_of (en : Run.entry EncE)
  : option (JxlEncoderFrameSettingId * Z) :=
  match en with
  | Run.Answered _ e a =>
    match e with
    | JxlEncoderFrameSettingsSetOption id value => Some (id, value)
    | _ => None
    end
  end.

Definition options_set (l : list (Run.entry EncE))
  : list (JxlEncoderFrameSettingId * Z) :=
  Run.pick option_set_of l.

(** The basic infos passed to [JxlEncoderSetBasicInfo] in a run. *)
Definition basic_info_of (en : Run.entry EncE) : option JxlBasicInfo :=
  match en with
  | Run.Answered _ e a =>
    match e with
    | JxlEncoderSetBasicInfo info => Some info
    | _ => None
    end
  end.

Definition basic_infos_set (l : list (Run.entry EncE)) : list JxlBasicInfo :=
  Run.pick basic_info_of l.

(** The extra channels declared in a run, with their index. *)
Definition extra_channel_of (en : Run.entry EncE)
  : option (Z * JxlExtraChannelInfo) :=
  match en with
  | Run.Answered _ e a =>
    match e with
    | JxlEncoderSetExtraChannelInfo index info => Some (index, info)
    | _ => None
    end
  end.

Definition extra_channels_set (l : list (Run.entry EncE))
  : list (Z * JxlExtraChannelInfo) :=
  Run.pick extra_channel_of l.

(** The colour encodings passed to [JxlEncoderSetColorEncoding]. *)
Definition color_encoding_of (en : Run.entry EncE)
  : option JxlColorEncoding :=
  match en with
  | Run.Answered _ e a =>
    match e with
    | JxlEncoderSetColorEncoding color => Some color
    | _ => None
    end
  end.

Definition color_encodings_set (l : list (Run.entry EncE))
  : list JxlColorEncoding :=
  Run.pick color_encoding_of l.

(** The frames added in a run: pixel format, buffer and size. *)
Definition frame_of (en : Run.entry EncE)
  : option (JxlPixelFormat * list byte * Z) :=
  match en with
  | Run.Answered _ e a =>
    match e with
    | JxlEncoderAddImageFrame pixel_format buffer size =>
        Some (pixel_format, buffer, size)
    | _ => None
    end
  end.

Definition frames_added (l : list (Run.entry EncE))
  : list (JxlPixelFormat * list byte * Z) :=
  Run.pick frame_of l.

(** The calls about the codestream level in a run. *)
Inductive level_call : Type :=
| RequiredLevel (answer : Z)
| SetLevel (level : Z) (status : Z).

Definition level_call_of (en : Run.entry EncE) : option level_call :=
  match en with
  | Run.Answered _ e a =>
    match e in EncE X return X -> option level_call with
    | JxlEncoderGetRequiredCodestreamLevel => fun a => Some (RequiredLevel a)
    | JxlEncoderSetCodestreamLevel level => fun a => Some (SetLevel level a)
    | _ => fun _ => None
    end a
  end.

Definition level_calls (l : list (Run.entry EncE)) : list level_call :=
  Run.pick level_call_of l.

(** Creation and destruction of the encoder in a run. *)
Definition lifecycle_of (en : Run.entry EncE) : option Run.lifecycle :=
  match en with
  | Run.Answered _ e a =>
    match e in EncE X return X -> option Run.lifecycle with
    | JxlEncoderCreate => fun a => Some (Run.Acquired a)
    | JxlEncoderDestroy => fun _ => Some Run.Released
    | _ => fun _ => None
    end a
  end.

Definition lifecycle (l : list (Run.entry EncE)) : list Run.lifecycle :=
  Run.pick lifecycle_of l.

(** The run ends with the destruction of the encoder. *)
Definition destroyed_last (l : list (Run.entry EncE)) : Prop :=
  exists init x, l = init ++ [Run.Answered _ JxlEncoderDestroy x].

(** The library reported no failure in this call: a handle is not null,
    a status is [JXL_ENC_SUCCESS] (or, from [JxlEncoderProcessOutput],
    [JXL_ENC_NEED_MORE_OUTPUT]), a level is not negative. *)
Definition call_succeeded (en : Run.entry EncE) : Prop :=
  match en with
  | Run.Answered _ e a =>
    match e in EncE X return X -> Prop with
    | JxlEncoderCreate => fun a => a = true
    | JxlEncoderDestroy => fun _ => True
    | JxlEncoderSetBasicInfo _ => fun a => a = JXL_ENC_SUCCESS
    | JxlEncoderGetRequiredCodestreamLevel => fun a => 0 <= a
    | JxlEncoderSetCodestreamLevel _ => fun a => a = JXL_ENC_SUCCESS
    | JxlEncoderSetExtraChannelInfo _ _ => fun a => a = JXL_ENC_SUCCESS
    | JxlEncoderSetColorEncoding _ => fun a => a = JXL_ENC_SUCCESS
    | JxlEncoderFrameSettingsCreate => fun a => a = true
    | JxlEncoderFrameSettingsSetOption _ _ => fun a => a = JXL_ENC_SUCCESS
    | JxlEncoderSetFrameLossless _ => fun a => a = JXL_ENC_SUCCESS
    | JxlEncoderSetFrameDistance _ => fun a => a = JXL_ENC_SUCCESS
    | JxlEncoderAddImageFrame _ _ _ => fun a => a = JXL_ENC_SUCCESS
    | JxlEncoderCloseInput => fun _ => True
    | JxlEncoderProcessOutput _ _ => fun a =>
        fst a = JXL_ENC_SUCCESS \/ fst a = JXL_ENC_NEED_MORE_OUTPUT
    end a
  end.

(** The stage of the encoding session a call belongs to. *)
Inductive phase : Type :=
| Created | Setup | Frame | Closed | Output | Destroyed.

Definition phase_of (en : Run.entry EncE) : phase :=
  match en with
  | Run.Answered _ e a =>
    match e with
    | JxlEncoderCreate => Created
    | JxlEncoderDestroy => Destroyed
    | JxlEncoderAddImageFrame _ _ _ => Frame
    | JxlEncoderCloseInput => Closed
    | JxlEncoderProcessOutput _ _ => Output
    | _ => Setup
    end
  end.

Definition phases (l : list (Run.entry EncE)) : list phase :=
  map phase_of l.

(** The order of the calls of an encoding session: creation, settings,
    one frame, the end of the input, output until it is complete, and
    destruction. *)
Definition session_order (l : list phase) : Prop :=
  exists n m,
    l = Created :: repeat Setup n ++ [Frame; Closed]
          ++ repeat Output (S m) ++ [Destroyed].

(** What a run did with the encoder handle: nothing at all, or it
    requested one first; when the library gave none the run ended there,
    and when it gave one the run destroyed it once, as its last call. *)
Definition handle_released (l : list (Run.entry EncE)) : Prop :=
  l = [] \/
  exists b rest,
    l = Run.Answered _ JxlEncoderCreate b :: rest
    /\ lifecycle l
       = Run.Acquired b :: (if b then [Run.Released] else [])
    /\ (b = true -> destroyed_last l)
    /\ (b = false -> rest = []).

(** A call of [JxlEncoderProcessOutput] whose status satisfies [P]. *)
Definition output_entry (P : Z -> Prop) (en : Run.entry EncE) : Prop :=
  match en with
  | Run.Answered _ e a =>
    match e in EncE X return X -> Prop with
    | JxlEncoderProcessOutput _ _ => fun a => P (fst a)
    | _ => fun _ => False
    end a
  end.

(** The log of the output loop: calls of [JxlEncoderProcessOutput] that
    ask for more output, one that does not, and the destruction of the
    encoder; the loop returns bytes exactly when that last status is
    [JXL_ENC_SUCCESS]. *)
Definition output_loop_log (l : list (Run.entry EncE))
    (r : option (list byte)) : Prop :=
  exists outs last x,
    l = outs ++ [last; Run.Answered _ JxlEncoderDestroy x]
    /\ Forall (output_entry (fun st => st = JXL_ENC_NEED_MORE_OUTPUT)) outs
    /\ output_entry (fun st => st <> JXL_ENC_NEED_MORE_OUTPUT
                               /\ (st = JXL_ENC_SUCCESS <-> r <> None))
         last.

(** The values [encode] may pass for a frame option: effort within 1..9
    and decoding speed within 0..4, both the option clamped; the filter
    strength as given, within -1..3; the photon noise only for a positive
    ISO, rounded to the nearest integer where that fits [int32_t] (the
    conversion of a larger value is undefined); the mode switches only
    when the corresponding option asks for them. *)
Definition option_value_allowed (options : JXLOptions)
    (id : JxlEncoderFrameSettingId) (v : Z) : Prop :=
  match id with
  | JXL_ENC_FRAME_SETTING_EFFORT =>
      1 <= v <= 9
      /\ (effort options < 1 -> v = 1)
      /\ (1 <= effort options <= 9 -> v = effort options)
      /\ (9 < effort options -> v = 9)
  | JXL_ENC_FRAME_SETTING_DECODING_SPEED =>
      0 <= v <= 4
      /\ (0 <= decodingSpeedTier options <= 4 -> v = decodingSpeedTier options)
      /\ (4 < decodingSpeedTier options -> v = 4)
  | JXL_ENC_FRAME_SETTING_EPF => v = epf options /\ -1 <= v <= 3
  | JXL_ENC_FRAME_SETTING_PHOTON_NOISE =>
      (0 < photonNoiseIso options)%R
      /\ ((photonNoiseIso options < IZR Int.int_max + / 2)%R ->
          (IZR v - / 2 <= photonNoiseIso options < IZR v + / 2)%R)
  | JXL_ENC_FRAME_SETTING_LOSSY_PALETTE =>
      v = 1 /\ lossyPalette options = true
  | JXL_ENC_FRAME_SETTING_PALETTE_COLORS =>
      v = 0 /\ lossyPalette options = true
  | JXL_ENC_FRAME_SETTING_MODULAR =>
      v = 1 /\ (lossyPalette options = true \/ lossyModular options = true)
  | JXL_ENC_FRAME_SETTING_QPROGRESSIVE_AC =>
      v = 1 /\ progressive options = true
  | JXL_ENC_FRAME_SETTING_RESPONSIVE =>
      v = 1 /\ progressive options = true
  | JXL_ENC_FRAME_SETTING_PROGRESSIVE_DC =>
      v = 1 /\ progressive options = true /\ lossyModular options = false
  end.

End Enc.

(** ** Decoder *)

Module Dec.

Import Jxl.

(** [JxlDecoderStatus], [jxl/decode.h] *)
Definition JXL_DEC_SUCCESS : Z := 0.
Definition JXL_DEC_NEED_IMAGE_OUT_BUFFER : Z := 5.
Definition JXL_DEC_BASIC_INFO : Z := 64.
Definition JXL_DEC_COLOR_ENCODING : Z := 256.
Definition JXL_DEC_FULL_IMAGE : Z := 4096.

Inductive JxlColorProfileTarget : Type :=
| JXL_COLOR_PROFILE_TARGET_ORIGINAL | JXL_COLOR_PROFILE_TARGET_DATA.

(** [skcms.h] *)
Inductive skcms_PixelFormat : Type :=
| skcms_PixelFormat_RGBA_8888 | skcms_PixelFormat_RGBA_ffff.
Inductive skcms_AlphaFormat : Type :=
| skcms_AlphaFormat_Unpremul | skcms_AlphaFormat_PremulAsEncoded.
Inductive skcms_Profile : Type :=
| skcms_sRGB_profile
| parsed_profile (icc : list byte).

(** Calls into libjxl's decoder and into skcms.  A call with an
    out-parameter answers its status together with what it stored there;
    [JxlDecoderProcessInput] answers its status together with the samples
    it stored in the image out buffer.  [skcms_Parse] answers whether the
    profile parsed; the parsed profile is named by its bytes. *)
Variant DecE : Type -> Type :=
| JxlDecoderCreate : DecE bool
| JxlDecoderDestroy : DecE unit
| JxlDecoderSubscribeEvents (events_wanted : Z) : DecE Z
| JxlDecoderSetInput (data : list byte) (size : Z) : DecE Z
| JxlDecoderProcessInput : DecE (Z * list R)
| JxlDecoderGetBasicInfo : DecE (Z * JxlBasicInfo)
| JxlDecoderGetICCProfileSize (format : JxlPixelFormat)
    (target : JxlColorProfileTarget) : DecE (Z * Z)
| JxlDecoderGetColorAsICCProfile (format : JxlPixelFormat)
    (target : JxlColorProfileTarget) (size : Z) : DecE (Z * list byte)
| JxlDecoderImageOutBufferSize (format : JxlPixelFormat) : DecE (Z * Z)
| JxlDecoderSetImageOutBuffer (format : JxlPixelFormat) (size : Z) : DecE Z
| skcms_Parse (buf : list byte) (len : Z) : DecE bool
| skcms_Transform (src : list R) (srcFmt : skcms_PixelFormat)
    (srcAlpha : skcms_AlphaFormat) (srcProfile : skcms_Profile)
    (dstFmt : skcms_PixelFormat) (dstAlpha : skcms_AlphaFormat)
    (dstProfile : skcms_Profile) (npixels : Z) : DecE (bool * list Z).

(** [#define COMPONENTS_PER_PIXEL 4] *)
Definition COMPONENTS_PER_PIXEL : Z := 4.

(** [sizeof(float)] *)
Definition sizeof_float : Z := 4.

(** A buffer of [n] value-initialised elements. *)
Definition alloc {A} (zero : A) (n : Z) : list A := repeat zero (Z.to_nat n).

(** A buffer after the library stored [written] at its start. *)
Definition filled {A} (buf written : list A) : list A :=
  written ++ skipn (List.length written) buf.

(** [typed_memory_view(n, ptr)]: the first [n] elements behind [ptr]. *)
Definition typed_memory_view {A} (n : Z) (buf : list A) : list A :=
  firstn (Z.to_nat n) buf.

(** The [ImageData] returned by [decode]. *)
Record ImageData : Type := {
  id_data : list Z;
  id_width : Z;
  id_height : Z
}.

Inductive PixelData : Type :=
| Uint8ClampedArray (samples : list Z)
| Uint16Array (samples : list Z)
| Float32Array (samples : list R).

(** The object returned by [decodeHighBitDepth]. *)
Record HighBitDepthImage : Type := {
  width : Z;
  height : Z;
  bitDepth : Z;
  colorSpace : string;
  hasAlpha : bool;
  iccProfile : list byte;
  data : PixelData
}.

(** The object returned by [decodeLinearFloat]. *)
Record LinearFloatImage : Type := {
  lf_width : Z;
  lf_height : Z;
  lf_sourceBitDepth : Z;
  lf_colorSpace : string;
  lf_iccProfile : list byte;
  lf_data : list R
}.

(** jxl_dec.cpp lines 142-153. *)
Definition effective_bit_depth (bits_per_sample exponent_bits : Z) : Z :=
  if 0 <? exponent_bits then 32
  else if bits_per_sample <=? 8 then 8
  else if bits_per_sample <=? 10 then 10
  else if bits_per_sample <=? 12 then 12
  else 16.

(** jxl_dec.cpp lines 183-187 and 320-325. *)
Definition color_space_str (exponent_bits : Z) : string :=
  if 0 <? exponent_bits then "linear"%string else "srgb"%string.

(** One sample of the loop at jxl_dec.cpp lines 219-227. *)
Definition to_byte_pixel (exponent_bits : Z) (v : R) : Z :=
  let v :=
    if 0 <? exponent_bits then
      if Rle_dec v 0.0031308 then (v * 12.92)%R
      else (1.055 * Rpower v (1 / 2.4) - 0.055)%R
    else v in
  Int.wrap 8 (Flt.trunc (Flt.max 0 (Flt.min 1 v) * 255)%R).

(** One sample of the loop at jxl_dec.cpp lines 245-250.  The product is
    taken over the reals; [float] rounds it to the nearest value before
    the truncation, which can raise the result by one. *)
Definition to_uint16_pixel (scale : R) (v : R) : Z :=
  Int.wrap 16 (Flt.trunc (Flt.max 0 (Flt.min 1 v) * scale)%R).

Definition float_format : JxlPixelFormat :=
  {| num_channels := COMPONENTS_PER_PIXEL;
     data_type := JXL_TYPE_FLOAT;
     endianness := JXL_LITTLE_ENDIAN;
     align := 0 |}.

Definition events_wanted : Z :=
  Z.lor (Z.lor JXL_DEC_BASIC_INFO JXL_DEC_COLOR_ENCODING) JXL_DEC_FULL_IMAGE.

Section Decode.

Context {Res : Type}.

(** Leaving a decode function runs the deleter of [dec] when it holds a
    decoder. *)
Definition leave (dec : bool) (result : option Res)
  : itree DecE (option Res) :=
  if dec then ITree.trigger JxlDecoderDestroy ;; Ret result
  else Ret result.

(** [EXPECT_TRUE(a)] with [JXL_DEBUG_ON_ALL_ERROR] off: leave with
    [val::null()] unless [a]. *)
Definition EXPECT_TRUE (dec : bool) (a : bool)
    (rest : itree DecE (option Res)) : itree DecE (option Res) :=
  if negb a then leave dec None else rest.

(** [EXPECT_EQ(a, b)] is [EXPECT_TRUE((a) == (b))]. *)
Definition EXPECT_EQ (dec : bool) (a b : Z)
    (rest : itree DecE (option Res)) : itree DecE (option Res) :=
  EXPECT_TRUE dec (a =? b) rest.

End Decode.

Notation "'EXPECT_EQ!' dec a b ;; rest" := (EXPECT_EQ dec a b rest)
  (at level 61, dec at level 0, a at level 0, b at level 0,
   right associativity).
Notation "'EXPECT_TRUE!' dec a ;; rest" := (EXPECT_TRUE dec a rest)
  (at level 61, dec at level 0, a at level 0, right associativity).

(** *** Reading a log of decoder calls *)

Definition log : Type := list (Run.entry DecE).

Fixpoint first_some {A B} (f : A -> option B) (l : list A) : option B :=
  match l with
  | [] => None
  | a :: l' => match f a with Some b => Some b | None => first_some f l' end
  end.

Definition basic_info_of (en : Run.entry DecE) : option JxlBasicInfo :=
  match en with
  | Run.Answered _ e a =>
    match e in DecE X return X -> option JxlBasicInfo with
    | JxlDecoderGetBasicInfo => fun a => Some (snd a)
    | _ => fun _ => None
    end a
  end.

Definition icc_size_of (en : Run.entry DecE) : option Z :=
  match en with
  | Run.Answered _ e a =>
    match e in DecE X return X -> option Z with
    | JxlDecoderGetICCProfileSize _ _ => fun a => Some (snd a)
    | _ => fun _ => None
    end a
  end.

Definition parse_of (en : Run.entry DecE) : option bool :=
  match en with
  | Run.Answered _ e a =>
    match e in DecE X return X -> option bool with
    | skcms_Parse _ _ => fun a => Some a
    | _ => fun _ => None
    end a
  end.

Definition samples_of (en : Run.entry DecE) : option (list R) :=
  match en with
  | Run.Answered _ e a =>
    match e in DecE X return X -> option (list R) with
    | JxlDecoderProcessInput => fun a => Some (snd a)
    | _ => fun _ => None
    end a
  end.

(** The basic info the decoder reported in a run. *)
Definition reported_info (l : log) : option JxlBasicInfo :=
  first_some basic_info_of l.

(** The ICC profile size the decoder reported in a run. *)
Definition reported_icc_size (l : log) : option Z :=
  first_some icc_size_of l.

(** The answer of [skcms_Parse] in a run, if it was called. *)
Definition parse_answer (l : log) : option bool :=
  first_some parse_of l.

(** What the last [JxlDecoderProcessInput] of a run stored in the image
    out buffer. *)
Definition stored_samples (l : log) : option (list R) :=
  first_some samples_of (rev l).

(** The statuses the calls of [JxlDecoderProcessInput] answered, in
    order. *)
Definition status_of (en : Run.entry DecE) : option Z :=
  match en with
  | Run.Answered _ e a =>
    match e in DecE X return X -> option Z with
    | JxlDecoderProcessInput => fun a => Some (fst a)
    | _ => fun _ => None
    end a
  end.

Definition process_statuses (l : log) : list Z := Run.pick status_of l.

(** The input handed to [JxlDecoderSetInput]. *)
Definition input_of (en : Run.entry DecE) : option (list byte * Z) :=
  match en with
  | Run.Answered _ e a =>
    match e with
    | JxlDecoderSetInput data size => Some (data, size)
    | _ => None
    end
  end.

Definition inputs_set (l : log) : list (list byte * Z) := Run.pick input_of l.

(** The sizes [JxlDecoderImageOutBufferSize] reported. *)
Definition out_buffer_size_of (en : Run.entry DecE) : option Z :=
  match en with
  | Run.Answered _ e a =>
    match e in DecE X return X -> option Z with
    | JxlDecoderImageOutBufferSize _ => fun a => Some (snd a)
    | _ => fun _ => None
    end a
  end.

Definition out_buffer_sizes (l : log) : list Z :=
  Run.pick out_buffer_size_of l.

(** The sizes of the buffers registered with
    [JxlDecoderSetImageOutBuffer]. *)
Definition out_buffer_set_of (en : Run.entry DecE) : option Z :=
  match en with
  | Run.Answered _ e a =>
    match e with
    | JxlDecoderSetImageOutBuffer _ size => Some size
    | _ => None
    end
  end.

Definition out_buffers_set (l : log) : list Z := Run.pick out_buffer_set_of l.

(** The profile bytes [JxlDecoderGetColorAsICCProfile] stored. *)
Definition icc_bytes_of (en : Run.entry DecE) : option (list byte) :=
  match en with
  | Run.Answered _ e a =>
    match e in DecE X return X -> option (list byte) with
    | JxlDecoderGetColorAsICCProfile _ _ _ => fun a => Some (snd a)
    | _ => fun _ => None
    end a
  end.

Definition icc_bytes_stored (l : log) : list (list byte) :=
  Run.pick icc_bytes_of l.

(** A call of [skcms_Transform] with its answer. *)
Record transform_call : Type := {
  tc_src : list R;
  tc_src_format : skcms_PixelFormat;
  tc_src_alpha : skcms_AlphaFormat;
  tc_src_profile : skcms_Profile;
  tc_dst_format : skcms_PixelFormat;
  tc_dst_alpha : skcms_AlphaFormat;
  tc_dst_profile : skcms_Profile;
  tc_npixels : Z;
  tc_ok : bool;
  tc_stored : list Z
}.

Definition transform_call_of (en : Run.entry DecE) : option transform_call :=
  match en with
  | Run.Answered _ e a =>
    match e in DecE X return X -> option transform_call with
    | skcms_Transform src srcFmt srcAlpha srcProfile dstFmt dstAlpha
        dstProfile npixels => fun a =>
        Some {| tc_src := src; tc_src_format := srcFmt;
                tc_src_alpha := srcAlpha; tc_src_profile := srcProfile;
                tc_dst_format := dstFmt; tc_dst_alpha := dstAlpha;
                tc_dst_profile := dstProfile; tc_npixels := npixels;
                tc_ok := fst a; tc_stored := snd a |}
    | _ => fun _ => None
    end a
  end.

Definition transform_calls (l : log) : list transform_call :=
  Run.pick transform_call_of l.

(** Creation and destruction of the decoder in a run. *)
Definition lifecycle_of (en : Run.entry DecE) : option Run.lifecycle :=
  match en with
  | Run.Answered _ e a =>
    match e in DecE X return X -> option Run.lifecycle with
    | JxlDecoderCreate => fun a => Some (Run.Acquired a)
    | JxlDecoderDestroy => fun _ => Some Run.Released
    | _ => fun _ => None
    end a
  end.

Definition lifecycle (l : log) : list Run.lifecycle :=
  Run.pick lifecycle_of l.

(** The run ends with the destruction of the decoder. *)
Definition destroyed_last (l : log) : Prop :=
  exists init x, l = init ++ [Run.Answered _ JxlDecoderDestroy x].

(** Number of samples of a pixel array. *)
Definition samples_count (d : PixelData) : Z :=
  match d with
  | Uint8ClampedArray samples => Z.of_nat (List.length samples)
  | Uint16Array samples => Z.of_nat (List.length samples)
  | Float32Array samples => Z.of_nat (List.length samples)
  end.

(** What a run did with the decoder handle: it requested one first; when
    the library gave one the run destroyed it once, as its last call, and
    when the library gave none nothing was destroyed. *)
Definition handle_released (l : log) : Prop :=
  exists b rest,
    l = Run.Answered _ JxlDecoderCreate b :: rest
    /\ lifecycle l
       = Run.Acquired b :: (if b then [Run.Released] else [])
    /\ (b = true -> destroyed_last l).

(** [component_count] as the three functions compute it from the basic
    info: the pixel count is a product of two [uint32_t]. *)
Definition component_count (size_bits : Z) (info : JxlBasicInfo) : Z :=
  Enc.to_size size_bits
    (Enc.to_size size_bits (Int.wrap 32 (xsize info * ysize info))
     * COMPONENTS_PER_PIXEL).

(** [pixel_count] as the three functions compute it. *)
Definition pixel_count (size_bits : Z) (info : JxlBasicInfo) : Z :=
  Enc.to_size size_bits (Int.wrap 32 (xsize info * ysize info)).

(** The vector [icc_profile] of [icc_size] bytes after the decoder stored
    [stored] in it. *)
Definition icc_buffer (icc_size : Z) (stored : list byte) : list byte :=
  filled (alloc x00 icc_size) stored.

(** The [component_count] samples of [float_pixels] after the decoder
    stored [samples] in that zero-initialised buffer. *)
Definition image_buffer (size_bits : Z) (info : JxlBasicInfo)
    (samples : list R) : list R :=
  typed_memory_view (component_count size_bits info)
    (filled (alloc 0%R (component_count size_bits info)) samples).

(** The 8-bit conversion through skcms, as a run shows it: one call of
    [skcms_Transform] on the float output buffer, as RGBA floats,
    premultiplied exactly when the basic info says so, from the profile
    parsed from the bytes the library stored, to unpremultiplied 8-bit
    RGBA in sRGB, for [pixel_count] pixels; the call succeeded and [px]
    holds the first [component_count] bytes it stored. *)
Definition converted_with_skcms (size_bits : Z) (l : log) (px : list Z)
  : Prop :=
  exists info icc_size icc samples tc,
    reported_info l = Some info
    /\ reported_icc_size l = Some icc_size
    /\ icc_bytes_stored l = [icc]
    /\ stored_samples l = Some samples
    /\ transform_calls l = [tc]
    /\ tc_src tc
       = filled (alloc 0%R (component_count size_bits info)) samples
    /\ tc_src_format tc = skcms_PixelFormat_RGBA_ffff
    /\ tc_src_alpha tc
       = (if alpha_premultiplied info
          then skcms_AlphaFormat_PremulAsEncoded
          else skcms_AlphaFormat_Unpremul)
    /\ tc_src_profile tc = parsed_profile (icc_buffer icc_size icc)
    /\ tc_dst_format tc = skcms_PixelFormat_RGBA_8888
    /\ tc_dst_alpha tc = skcms_AlphaFormat_Unpremul
    /\ tc_dst_profile tc = skcms_sRGB_profile
    /\ tc_npixels tc = pixel_count size_bits info
    /\ tc_ok tc = true
    /\ px = typed_memory_view (component_count size_bits info)
              (filled (alloc 0 (component_count size_bits info))
                 (tc_stored tc)).

(** A run that followed the decoding protocol: the whole input was
    handed over once; [JxlDecoderProcessInput] was called four times and
    announced the basic info, the colour encoding, the need for an output
    buffer and the full image, in this order; the output buffer the
    library asked for has room for four floats a pixel, and a buffer of
    that size was registered. *)
Definition protocol_followed (size_bits : Z) (data : list byte) (l : log)
  : Prop :=
  exists info,
    reported_info l = Some info
    /\ inputs_set l = [(data, Enc.size data)]
    /\ process_statuses l =
       [JXL_DEC_BASIC_INFO; JXL_DEC_COLOR_ENCODING;
        JXL_DEC_NEED_IMAGE_OUT_BUFFER; JXL_DEC_FULL_IMAGE]
    /\ out_buffer_sizes l =
       [Enc.to_size size_bits
          (component_count size_bits info * sizeof_float)]
    /\ out_buffers_set l = out_buffer_sizes l.

Section Functions.

Variable size_bits : Z.

Let to_size := Enc.to_size size_bits.

(** [decode], jxl_dec.cpp lines 53-103. *)
Definition decode (data : list byte) : itree DecE (option ImageData) :=
  dec <- ITree.trigger JxlDecoderCreate ;;
  st <- ITree.trigger (JxlDecoderSubscribeEvents events_wanted) ;;
  EXPECT_EQ! dec JXL_DEC_SUCCESS st ;;
  let avail_in := Enc.size data in
  ITree.trigger (JxlDecoderSetInput data avail_in) ;;
  r <- ITree.trigger JxlDecoderProcessInput ;;
  EXPECT_EQ! dec JXL_DEC_BASIC_INFO (fst r) ;;
  r <- ITree.trigger JxlDecoderGetBasicInfo ;;
  let info := snd r in
  EXPECT_EQ! dec JXL_DEC_SUCCESS (fst r) ;;
  let pixel_count := to_size (Int.wrap 32 (xsize info * ysize info)) in
  let component_count := to_size (pixel_count * COMPONENTS_PER_PIXEL) in
  r <- ITree.trigger JxlDecoderProcessInput ;;
  EXPECT_EQ! dec JXL_DEC_COLOR_ENCODING (fst r) ;;
  r <- ITree.trigger (JxlDecoderGetICCProfileSize float_format
                        JXL_COLOR_PROFILE_TARGET_DATA) ;;
  let icc_size := snd r in
  EXPECT_EQ! dec JXL_DEC_SUCCESS (fst r) ;;
  let icc_profile := alloc x00 icc_size in
  r <- ITree.trigger (JxlDecoderGetColorAsICCProfile float_format
                        JXL_COLOR_PROFILE_TARGET_DATA
                        (Enc.size icc_profile)) ;;
  let icc_profile := filled icc_profile (snd r) in
  EXPECT_EQ! dec JXL_DEC_SUCCESS (fst r) ;;
  r <- ITree.trigger JxlDecoderProcessInput ;;
  EXPECT_EQ! dec JXL_DEC_NEED_IMAGE_OUT_BUFFER (fst r) ;;
  r <- ITree.trigger (JxlDecoderImageOutBufferSize float_format) ;;
  let buffer_size := snd r in
  EXPECT_EQ! dec JXL_DEC_SUCCESS (fst r) ;;
  EXPECT_EQ! dec buffer_size (to_size (component_count * sizeof_float)) ;;
  let float_pixels := alloc 0%R component_count in
  st <- ITree.trigger (JxlDecoderSetImageOutBuffer float_format
                         (to_size (component_count * sizeof_float))) ;;
  EXPECT_EQ! dec JXL_DEC_SUCCESS st ;;
  r <- ITree.trigger JxlDecoderProcessInput ;;
  let float_pixels := filled float_pixels (snd r) in
  EXPECT_EQ! dec JXL_DEC_FULL_IMAGE (fst r) ;;
  let byte_pixels := alloc 0 component_count in
  parsed <- ITree.trigger (skcms_Parse icc_profile (Enc.size icc_profile)) ;;
  EXPECT_TRUE! dec parsed ;;
  r <- ITree.trigger
         (skcms_Transform float_pixels skcms_PixelFormat_RGBA_ffff
            (if alpha_premultiplied info
             then skcms_AlphaFormat_PremulAsEncoded
             else skcms_AlphaFormat_Unpremul)
            (parsed_profile icc_profile)
            skcms_PixelFormat_RGBA_8888 skcms_AlphaFormat_Unpremul
            skcms_sRGB_profile pixel_count) ;;
  let byte_pixels := filled byte_pixels (snd r) in
  EXPECT_TRUE! dec (fst r) ;;
  leave dec
    (Some {| id_data := typed_memory_view component_count byte_pixels;
             id_width := xsize info;
             id_height := ysize info |}).

(** [decodeHighBitDepth], jxl_dec.cpp lines 120-256. *)
Definition decodeHighBitDepth (data : list byte)
  : itree DecE (option HighBitDepthImage) :=
  dec <- ITree.trigger JxlDecoderCreate ;;
  st <- ITree.trigger (JxlDecoderSubscribeEvents events_wanted) ;;
  EXPECT_EQ! dec JXL_DEC_SUCCESS st ;;
  let avail_in := Enc.size data in
  ITree.trigger (JxlDecoderSetInput data avail_in) ;;
  r <- ITree.trigger JxlDecoderProcessInput ;;
  EXPECT_EQ! dec JXL_DEC_BASIC_INFO (fst r) ;;
  r <- ITree.trigger JxlDecoderGetBasicInfo ;;
  let info := snd r in
  EXPECT_EQ! dec JXL_DEC_SUCCESS (fst r) ;;
  let pixel_count := to_size (Int.wrap 32 (xsize info * ysize info)) in
  let component_count := to_size (pixel_count * COMPONENTS_PER_PIXEL) in
  let bits_per_sample := bits_per_sample info in
  let exponent_bits := exponent_bits_per_sample info in
  let effective_bit_depth :=
    effective_bit_depth bits_per_sample exponent_bits in
  r <- ITree.trigger JxlDecoderProcessInput ;;
  EXPECT_EQ! dec JXL_DEC_COLOR_ENCODING (fst r) ;;
  r <- ITree.trigger (JxlDecoderGetICCProfileSize float_format
                        JXL_COLOR_PROFILE_TARGET_DATA) ;;
  let icc_size := snd r in
  EXPECT_EQ! dec JXL_DEC_SUCCESS (fst r) ;;
  let icc_profile := alloc x00 icc_size in
  r <- (if 0 <? icc_size
        then ITree.trigger (JxlDecoderGetColorAsICCProfile float_format
                              JXL_COLOR_PROFILE_TARGET_DATA
                              (Enc.size icc_profile))
        else Ret (JXL_DEC_SUCCESS, [])) ;;
  let icc_profile := filled icc_profile (snd r) in
  EXPECT_EQ! dec JXL_DEC_SUCCESS (fst r) ;;
  r <- ITree.trigger JxlDecoderProcessInput ;;
  EXPECT_EQ! dec JXL_DEC_NEED_IMAGE_OUT_BUFFER (fst r) ;;
  r <- ITree.trigger (JxlDecoderImageOutBufferSize float_format) ;;
  let buffer_size := snd r in
  EXPECT_EQ! dec JXL_DEC_SUCCESS (fst r) ;;
  EXPECT_EQ! dec buffer_size (to_size (component_count * sizeof_float)) ;;
  let float_pixels := alloc 0%R component_count in
  st <- ITree.trigger (JxlDecoderSetImageOutBuffer float_format
                         (to_size (component_count * sizeof_float))) ;;
  EXPECT_EQ! dec JXL_DEC_SUCCESS st ;;
  r <- ITree.trigger JxlDecoderProcessInput ;;
  let float_pixels := filled float_pixels (snd r) in
  EXPECT_EQ! dec JXL_DEC_FULL_IMAGE (fst r) ;;
  let color_space_str := color_space_str exponent_bits in
  let result (pixels : PixelData) :=
    {| width := xsize info;
       height := ysize info;
       bitDepth := effective_bit_depth;
       colorSpace := color_space_str;
       hasAlpha := 0 <? alpha_bits info;
       iccProfile :=
         if 0 <? icc_size then typed_memory_view icc_size icc_profile
         else [];
       data := pixels |} in
  if effective_bit_depth =? 8 then
    let byte_pixels := alloc 0 component_count in
    parsed <- (if 0 <? icc_size
               then ITree.trigger
                      (skcms_Parse icc_profile (Enc.size icc_profile))
               else Ret false) ;;
    if parsed : bool then
      r <- ITree.trigger
             (skcms_Transform float_pixels skcms_PixelFormat_RGBA_ffff
                (if alpha_premultiplied info
                 then skcms_AlphaFormat_PremulAsEncoded
                 else skcms_AlphaFormat_Unpremul)
                (parsed_profile icc_profile)
                skcms_PixelFormat_RGBA_8888 skcms_AlphaFormat_Unpremul
                skcms_sRGB_profile pixel_count) ;;
      let byte_pixels := filled byte_pixels (snd r) in
      EXPECT_TRUE! dec (fst r) ;;
      leave dec
        (Some (result (Uint8ClampedArray
                 (typed_memory_view component_count byte_pixels))))
    else
      let byte_pixels :=
        map (to_byte_pixel exponent_bits)
          (typed_memory_view component_count float_pixels) in
      leave dec
        (Some (result (Uint8ClampedArray
                 (typed_memory_view component_count byte_pixels))))
  else if effective_bit_depth =? 32 then
    leave dec
      (Some (result (Float32Array
               (typed_memory_view component_count float_pixels))))
  else
    let scale := IZR (Z.shiftl 1 effective_bit_depth - 1) in
    let uint16_pixels :=
      map (to_uint16_pixel scale)
        (typed_memory_view component_count float_pixels) in
    leave dec
      (Some (result (Uint16Array
               (typed_memory_view component_count uint16_pixels)))).

(** [decodeLinearFloat], jxl_dec.cpp lines 270-340. *)
Definition decodeLinearFloat (data : list byte)
  : itree DecE (option LinearFloatImage) :=
  dec <- ITree.trigger JxlDecoderCreate ;;
  st <- ITree.trigger (JxlDecoderSubscribeEvents events_wanted) ;;
  EXPECT_EQ! dec JXL_DEC_SUCCESS st ;;
  let avail_in := Enc.size data in
  ITree.trigger (JxlDecoderSetInput data avail_in) ;;
  r <- ITree.trigger JxlDecoderProcessInput ;;
  EXPECT_EQ! dec JXL_DEC_BASIC_INFO (fst r) ;;
  r <- ITree.trigger JxlDecoderGetBasicInfo ;;
  let info := snd r in
  EXPECT_EQ! dec JXL_DEC_SUCCESS (fst r) ;;
  let pixel_count := to_size (Int.wrap 32 (xsize info * ysize info)) in
  let component_count := to_size (pixel_count * COMPONENTS_PER_PIXEL) in
  r <- ITree.trigger JxlDecoderProcessInput ;;
  EXPECT_EQ! dec JXL_DEC_COLOR_ENCODING (fst r) ;;
  r <- ITree.trigger (JxlDecoderGetICCProfileSize float_format
                        JXL_COLOR_PROFILE_TARGET_DATA) ;;
  let icc_size := snd r in
  EXPECT_EQ! dec JXL_DEC_SUCCESS (fst r) ;;
  let icc_profile := alloc x00 icc_size in
  r <- (if 0 <? icc_size
        then ITree.trigger (JxlDecoderGetColorAsICCProfile float_format
                              JXL_COLOR_PROFILE_TARGET_DATA
                              (Enc.size icc_profile))
        else Ret (JXL_DEC_SUCCESS, [])) ;;
  let icc_profile := filled icc_profile (snd r) in
  EXPECT_EQ! dec JXL_DEC_SUCCESS (fst r) ;;
  r <- ITree.trigger JxlDecoderProcessInput ;;
  EXPECT_EQ! dec JXL_DEC_NEED_IMAGE_OUT_BUFFER (fst r) ;;
  r <- ITree.trigger (JxlDecoderImageOutBufferSize float_format) ;;
  let buffer_size := snd r in
  EXPECT_EQ! dec JXL_DEC_SUCCESS (fst r) ;;
  EXPECT_EQ! dec buffer_size (to_size (component_count * sizeof_float)) ;;
  let float_pixels := alloc 0%R component_count in
  st <- ITree.trigger (JxlDecoderSetImageOutBuffer float_format
                         (to_size (component_count * sizeof_float))) ;;
  EXPECT_EQ! dec JXL_DEC_SUCCESS st ;;
  r <- ITree.trigger JxlDecoderProcessInput ;;
  let float_pixels := filled float_pixels (snd r) in
  EXPECT_EQ! dec JXL_DEC_FULL_IMAGE (fst r) ;;
  let is_linear := 0 <? exponent_bits_per_sample info in
  let color_space_str :=
    if is_linear then "linear"%string else "srgb"%string in
  leave dec
    (Some {| lf_width := xsize info;
             lf_height := ysize info;
             lf_sourceBitDepth := Int.to_int (bits_per_sample info);
             lf_colorSpace := color_space_str;
             lf_iccProfile :=
               if 0 <? icc_size
               then typed_memory_view icc_size icc_profile
               else [];
             lf_data := typed_memory_view component_count float_pixels |}).

End Functions.

End Dec.

(** ** The specification's own formulas *)

Module Spec.

Local Open Scope R_scope.

(** "clamp to [0,1]" *)
Definition clamp01 (v : R) : R := Rmax 0 (Rmin 1 v).

(** "clamp to [0,1] and scale to [0,255]", as an integer sample *)
Definition scale_to_byte (v : R) : Z := Int_part (clamp01 v * 255).

(** "scale each float sample into [0, 2^bitDepth - 1] by clamping to
    [0,1] and multiplying, truncating to integer" *)
Definition scale_to (n : Z) (v : R) : Z := Int_part (clamp01 v * IZR n).

(** "v <= 0.0031308 -> 12.92 v, else 1.055 v^(1/2.4) - 0.055" *)
Definition gamma_encode (v : R) : R :=
  if Rle_dec v 0.0031308 then 12.92 * v
  else 1.055 * Rpower v (1 / 2.4) - 0.055.

Local Close Scope R_scope.

(** Bytes per sample of the input types uint8, uint16 and float32. *)
Definition bytes_per_sample (inputType : Z) : Z :=
  if inputType =? 1 then 2 else if inputType =? 2 then 4 else 1.

(** "(inputType, bitDepth) is one of the three supported pairs - (uint8,8),
    (uint16,{10,12,16}), (float32,32)" *)
Definition supported_pair (inputType bitDepth : Z) : Prop :=
  (inputType = 0 /\ bitDepth = 8)
  \/ (inputType = 1 /\ (bitDepth = 10 \/ bitDepth = 12 \/ bitDepth = 16))
  \/ (inputType = 2 /\ bitDepth = 32).

(** The validation rules of the option validator and size checker. *)
Definition valid_input (size_bits : Z) (image : list byte)
    (width height : Z) (options : Enc.JXLOptions) : Prop :=
  0 < width /\ 0 < height
  /\ (Enc.numChannels options = 3 \/ Enc.numChannels options = 4)
  /\ supported_pair (Enc.inputType options) (Enc.bitDepth options)
  /\ let expected_size :=
       width * height * Enc.numChannels options
       * bytes_per_sample (Enc.inputType options) in
     expected_size <= Enc.size_max size_bits
     /\ Enc.size image = expected_size.

End Spec.

(** ** Simulated libraries, to run the programs on concrete inputs *)

Module Sim.

Import Jxl Dec.

(** A decoder that follows the protocol for one image: it reports [info],
    an ICC profile [icc], and stores [samples] as the decoded image;
    skcms parses the profile iff [parses] and transforms to [bytes].  The
    state counts the calls of [JxlDecoderProcessInput]. *)
Definition decoder (info : JxlBasicInfo) (icc : list byte)
    (samples : list R) (parses : bool) (bytes : list Z)
  : Run.handler DecE nat :=
  fun X e =>
    match e in DecE X return nat -> nat * X with
    | JxlDecoderCreate => fun n => (n, true)
    | JxlDecoderDestroy => fun n => (n, tt)
    | JxlDecoderSubscribeEvents _ => fun n => (n, JXL_DEC_SUCCESS)
    | JxlDecoderSetInput _ _ => fun n => (n, JXL_DEC_SUCCESS)
    | JxlDecoderProcessInput => fun n =>
        (S n,
         match n with
         | 0%nat => (JXL_DEC_BASIC_INFO, [])
         | 1%nat => (JXL_DEC_COLOR_ENCODING, [])
         | 2%nat => (JXL_DEC_NEED_IMAGE_OUT_BUFFER, [])
         | _ => (JXL_DEC_FULL_IMAGE, samples)
         end)
    | JxlDecoderGetBasicInfo => fun n => (n, (JXL_DEC_SUCCESS, info))
    | JxlDecoderGetICCProfileSize _ _ => fun n =>
        (n, (JXL_DEC_SUCCESS, Enc.size icc))
    | JxlDecoderGetColorAsICCProfile _ _ _ => fun n =>
        (n, (JXL_DEC_SUCCESS, icc))
    | JxlDecoderImageOutBufferSize _ => fun n =>
        (n, (JXL_DEC_SUCCESS, xsize info * ysize info * 16))
    | JxlDecoderSetImageOutBuffer _ _ => fun n => (n, JXL_DEC_SUCCESS)
    | skcms_Parse _ _ => fun n => (n, parses)
    | skcms_Transform _ _ _ _ _ _ _ _ => fun n => (n, (true, bytes))
    end.

(** Basic info of a 1 x 1 image without alpha. *)
Definition info_1x1 (bits exponent_bits : Z) : JxlBasicInfo :=
  {| xsize := 1; ysize := 1; bits_per_sample := bits;
     exponent_bits_per_sample := exponent_bits;
     num_color_channels := 3; num_extra_channels := 0;
     alpha_bits := 0; alpha_exponent_bits := 0;
     alpha_premultiplied := false; uses_original_profile := true |}.

Definition one_pixel : list R := [1; 0.5; 0; 1]%R.

(** An encoder that accepts every setting and has [pending] bytes of
    compressed output left: each [JxlEncoderProcessOutput] stores as many
    of them as fit in [avail_out] and asks for more room while some are
    left. *)
Definition encoder : Run.handler EncE (list byte) :=
  fun X e =>
    match e in EncE X return list byte -> list byte * X with
    | JxlEncoderCreate => fun pending => (pending, true)
    | JxlEncoderDestroy => fun pending => (pending, tt)
    | JxlEncoderSetBasicInfo _ => fun pending => (pending, JXL_ENC_SUCCESS)
    | JxlEncoderGetRequiredCodestreamLevel => fun pending => (pending, 5)
    | JxlEncoderSetCodestreamLevel _ => fun pending =>
        (pending, JXL_ENC_SUCCESS)
    | JxlEncoderSetExtraChannelInfo _ _ => fun pending =>
        (pending, JXL_ENC_SUCCESS)
    | JxlEncoderSetColorEncoding _ => fun pending =>
        (pending, JXL_ENC_SUCCESS)
    | JxlEncoderFrameSettingsCreate => fun pending => (pending, true)
    | JxlEncoderFrameSettingsSetOption _ _ => fun pending =>
        (pending, JXL_ENC_SUCCESS)
    | JxlEncoderSetFrameLossless _ => fun pending =>
        (pending, JXL_ENC_SUCCESS)
    | JxlEncoderSetFrameDistance _ => fun pending =>
        (pending, JXL_ENC_SUCCESS)
    | JxlEncoderAddImageFrame _ _ _ => fun pending =>
        (pending, JXL_ENC_SUCCESS)
    | JxlEncoderCloseInput => fun pending => (pending, tt)
    | JxlEncoderProcessOutput _ avail_out => fun pending =>
        let written := firstn (Z.to_nat avail_out) pending in
        let rest := skipn (Z.to_nat avail_out) pending in
        (rest,
         (match rest with
          | [] => JXL_ENC_SUCCESS
          | _ :: _ => JXL_ENC_NEED_MORE_OUTPUT
          end, written))
    end.

(** An encoder whose [JxlEncoderProcessOutput] answers by the script it is
    given, and reports an error once the script is used up. *)
Definition scripted : Run.handler EncE (list (Z * list byte)) :=
  fun X e =>
    match e in EncE X
          return list (Z * list byte) -> list (Z * list byte) * X with
    | JxlEncoderCreate => fun script => (script, true)
    | JxlEncoderDestroy => fun script => (script, tt)
    | JxlEncoderSetBasicInfo _ => fun script => (script, JXL_ENC_SUCCESS)
    | JxlEncoderGetRequiredCodestreamLevel => fun script => (script, 5)
    | JxlEncoderSetCodestreamLevel _ => fun script =>
        (script, JXL_ENC_SUCCESS)
    | JxlEncoderSetExtraChannelInfo _ _ => fun script =>
        (script, JXL_ENC_SUCCESS)
    | JxlEncoderSetColorEncoding _ => fun script =>
        (script, JXL_ENC_SUCCESS)
    | JxlEncoderFrameSettingsCreate => fun script => (script, true)
    | JxlEncoderFrameSettingsSetOption _ _ => fun script =>
        (script, JXL_ENC_SUCCESS)
    | JxlEncoderSetFrameLossless _ => fun script =>
        (script, JXL_ENC_SUCCESS)
    | JxlEncoderSetFrameDistance _ => fun script =>
        (script, JXL_ENC_SUCCESS)
    | JxlEncoderAddImageFrame _ _ _ => fun script =>
        (script, JXL_ENC_SUCCESS)
    | JxlEncoderCloseInput => fun script => (script, tt)
    | JxlEncoderProcessOutput _ _ => fun script =>
        match script with
        | [] => ([], (JXL_ENC_ERROR, []))
        | a :: rest => (rest, a)
        end
    end.

(** The options of the specification's end-to-end example: effort 7,
    quality 90, sRGB, 8-bit RGB input. *)
Definition options_rgb8 : Enc.JXLOptions :=
  {| Enc.effort := 7; Enc.quality := 90; Enc.progressive := false;
     Enc.epf := -1; Enc.lossyPalette := false; Enc.decodingSpeedTier := 0;
     Enc.photonNoiseIso := 0; Enc.lossyModular := false;
     Enc.lossless := false; Enc.bitDepth := 8; Enc.inputType := 0;
     Enc.numChannels := 3; Enc.colorSpace := 0;
     Enc.premultipliedAlpha := false |}.

(** One 16-bit RGBA pixel, to be coded without loss in Display-P3 with
    premultiplied alpha. *)
Definition options_rgba16 : Enc.JXLOptions :=
  {| Enc.effort := 7; Enc.quality := 90; Enc.progressive := false;
     Enc.epf := -1; Enc.lossyPalette := false; Enc.decodingSpeedTier := 0;
     Enc.photonNoiseIso := 0; Enc.lossyModular := false;
     Enc.lossless := true; Enc.bitDepth := 16; Enc.inputType := 1;
     Enc.numChannels := 4; Enc.colorSpace := 1;
     Enc.premultipliedAlpha := true |}.

Definition image_1x1_rgba16 : list byte := repeat x00 (Z.to_nat 8).

(** The bytes of one opaque pixel, as skcms may store them. *)
Definition srgb_pixel : list Z := [255; 127; 0; 255].

(** 10000 bytes of compressed output: more than the first buffer holds. *)
Definition payload : list byte := repeat x2a (Z.to_nat 10000).

(** A 3 x 2 RGB image of zero bytes. *)
Definition image_3x2 : list byte := repeat x00 (Z.to_nat 18).

(** libjxl's colour encodings for sRGB and linear sRGB, as far as the named
    fields go. *)
Definition srgb_encoding (transfer : Z) (is_gray : bool) : JxlColorEncoding :=
  {| color_space := JXL_COLOR_SPACE_RGB; white_point := JXL_WHITE_POINT_D65;
     white_point_xy := (0, 0)%R; primaries := JXL_PRIMARIES_SRGB;
     primaries_red_xy := (0, 0)%R; primaries_green_xy := (0, 0)%R;
     primaries_blue_xy := (0, 0)%R; transfer_function := transfer;
     gamma := 0%R; rendering_intent := JXL_RENDERING_INTENT_PERCEPTUAL |}.

Definition encode_32 : list byte -> Z -> Z -> Enc.JXLOptions ->
    itree EncE (option (list byte)) :=
  Enc.encode 32 (srgb_encoding JXL_TRANSFER_FUNCTION_LINEAR)
    (srgb_encoding JXL_TRANSFER_FUNCTION_SRGB).

End Sim.

(** * Properties *)

Import Run.

(** ** Runs of a program: unfolding, inversion and a rule per construct *)

Section RunFacts.

Context {E : Type -> Type}.

Lemma observe_bind_cases {A Res} (t : itree E A) (k : A -> itree E Res) :
  observe (ITree.bind t k) =
  match observe t with
  | RetF x => observe (k x)
  | TauF u => TauF (ITree.bind u k)
  | VisF e k0 => VisF e (fun x => ITree.bind (k0 x) k)
  end.
Proof. rewrite observe_bind. destruct (observe t); reflexivity. Qed.

Lemma exec_mono {St Res} (h : handler E St) f s (t : itree E Res) v :
  exec h f s t = Some v -> exec h (S f) s t = Some v.
Proof.
  revert s t v. induction f as [|f IH]; intros s t v H; [discriminate|].
  cbn [exec] in *. destruct (observe t) as [r|u|X e k].
  - exact H.
  - apply IH. exact H.
  - destruct (h X e s) as [s1 x].
    destruct (exec h f s1 (k x)) as [[[s2 lg] r]|] eqn:Ex; [|discriminate].
    apply IH in Ex. cbn [exec] in Ex. rewrite Ex. exact H.
Qed.

Lemma exec_mono_le {St Res} (h : handler E St) f g s (t : itree E Res) v :
  (f <= g)%nat -> exec h f s t = Some v -> exec h g s t = Some v.
Proof.
  induction 1 as [|g _ IH]; intros H; [exact H|].
  apply exec_mono, IH, H.
Qed.

Lemma exec_bind_inv {St A Res} (h : handler E St) f s
    (t : itree E A) (k : A -> itree E Res) s' log r :
  exec h f s (ITree.bind t k) = Some (s', log, r) ->
  exists s1 log1 x log2,
    exec h f s t = Some (s1, log1, x) /\
    exec h f s1 (k x) = Some (s', log2, r) /\ log = log1 ++ log2.
Proof.
  revert s t s' log r.
  induction f as [|f IH]; intros s t s' log r H; [discriminate|].
  cbn [exec] in H. rewrite observe_bind_cases in H.
  destruct (observe t) as [x|u|X e k0] eqn:Ot.
  - exists s, [], x, log. cbn [exec]. rewrite Ot.
    split; [reflexivity|]. split; [exact H|reflexivity].
  - apply IH in H. destruct H as (s1 & l1 & x & l2 & H1 & H2 & ->).
    exists s1, l1, x, l2. cbn [exec]. rewrite Ot.
    split; [exact H1|]. split; [|reflexivity]. apply exec_mono. exact H2.
  - destruct (h X e s) as [sa xa] eqn:Hh.
    destruct (exec h f sa (ITree.bind (k0 xa) k)) as [[[s2 lg] r2]|] eqn:Ex;
      [|discriminate].
    inversion H; subst; clear H.
    apply IH in Ex. destruct Ex as (s1 & l1 & x & l2 & H1 & H2 & ->).
    exists s1, (Answered _ e xa :: l1), x, l2. cbn [exec].
    rewrite Ot, Hh, H1.
    split; [reflexivity|]. split; [|reflexivity]. apply exec_mono. exact H2.
Qed.

Lemma exec_trigger_inv {St X} (h : handler E St) f s (e : E X) s' log x :
  exec h f s (ITree.trigger e) = Some (s', log, x) ->
  h X e s = (s', x) /\ log = [Answered _ e x].
Proof.
  destruct f as [|f]; [discriminate|]. cbn.
  destruct (h X e s) as [s1 x1]. destruct f as [|f]; [discriminate|]. cbn.
  intros H. inversion H; subst. split; reflexivity.
Qed.

Lemma holds_ret {Res} (r : Res) (Q : list (entry E) -> Res -> Prop) :
  Q [] r -> holds (Ret r) Q.
Proof.
  intros HQ St h f s s' log r' H. destruct f as [|f]; [discriminate|].
  cbn in H. inversion H; subst. exact HQ.
Qed.

Lemma holds_bind {A Res} (t : itree E A) (k : A -> itree E Res)
    (Q : list (entry E) -> Res -> Prop) :
  holds t (fun log1 x => holds (k x) (fun log2 r => Q (log1 ++ log2) r)) ->
  holds (ITree.bind t k) Q.
Proof.
  intros Ht St h f s s' log r H.
  apply exec_bind_inv in H. destruct H as (s1 & l1 & x & l2 & H1 & H2 & ->).
  exact (Ht _ _ _ _ _ _ _ H1 _ _ _ _ _ _ _ H2).
Qed.

Lemma holds_trigger {X} (e : E X) (Q : list (entry E) -> X -> Prop) :
  (forall x, Q [Answered _ e x] x) -> holds (ITree.trigger e) Q.
Proof.
  intros HQ St h f s s' log x H. apply exec_trigger_inv in H.
  destruct H as [_ ->]. apply HQ.
Qed.

Lemma holds_call {X Res} (e : E X) (k : X -> itree E Res)
    (Q : list (entry E) -> Res -> Prop) :
  (forall x, holds (k x) (fun log r => Q (Answered _ e x :: log) r)) ->
  holds (ITree.bind (ITree.trigger e) k) Q.
Proof.
  intros Hk. apply holds_bind, holds_trigger. intros x. apply Hk.
Qed.

Lemma holds_weaken {Res} (t : itree E Res)
    (P Q : list (entry E) -> Res -> Prop) :
  holds t P -> (forall log r, P log r -> Q log r) -> holds t Q.
Proof. intros Ht HPQ St h f s s' log r H. eapply HPQ, Ht, H. Qed.

(** Loops: an invariant over the log so far and the loop state. *)
Lemma holds_iter {I Res} (step : I -> itree E (I + Res)) (i0 : I)
    (Inv : list (entry E) -> I -> Prop)
    (Q : list (entry E) -> Res -> Prop) :
  Inv [] i0 ->
  (forall lg i, Inv lg i ->
     holds (step i) (fun log lr =>
       match lr with
       | inl i' => Inv (lg ++ log) i'
       | inr r => Q (lg ++ log) r
       end)) ->
  holds (ITree.iter step i0) Q.
Proof.
  intros H0 Hstep St h f.
  enough (G : forall lg i s s' log r, Inv lg i ->
            exec h f s (ITree.iter step i) = Some (s', log, r) ->
            Q (lg ++ log) r).
  { intros s s' log r H. exact (G [] i0 s s' log r H0 H). }
  induction f as [|f IH]; intros lg i s s' log r Hi H; [discriminate|].
  assert (H' : exec h (S f) s
            (ITree.bind (step i) (fun lr =>
               match lr with
               | inl l => Tau (ITree.iter step l)
               | inr r => Ret r
               end)) = Some (s', log, r)) by exact H.
  clear H. apply exec_bind_inv in H'.
  destruct H' as (s1 & l1 & lr & l2 & H1 & H2 & ->).
  pose proof (Hstep lg i Hi _ h _ _ _ _ _ H1) as Hlr. cbn beta in Hlr.
  destruct lr as [i'|r'].
  - cbn in H2. rewrite app_assoc. eapply IH; [exact Hlr|exact H2].
  - cbn in H2. inversion H2; subst. rewrite app_nil_r. exact Hlr.
Qed.

Lemma emits_ret {Res} (P : entry E -> Prop) (r : Res) : emits P (Ret r).
Proof. apply holds_ret. constructor. Qed.

Lemma emits_trigger {X} (P : entry E -> Prop) (e : E X) :
  (forall x, P (Answered _ e x)) -> emits P (ITree.trigger e).
Proof.
  intros H. apply holds_trigger. intros x. constructor; [apply H|constructor].
Qed.

Lemma emits_bind {A Res} (P : entry E -> Prop)
    (t : itree E A) (k : A -> itree E Res) :
  emits P t -> (forall x, emits P (k x)) -> emits P (ITree.bind t k).
Proof.
  intros Ht Hk. apply holds_bind.
  eapply holds_weaken; [exact Ht|]. intros l1 x H1. cbn beta.
  eapply holds_weaken; [exact (Hk x)|]. intros l2 r H2. cbn beta.
  apply Forall_app. split; assumption.
Qed.

Lemma emits_call {X Res} (P : entry E -> Prop) (e : E X)
    (k : X -> itree E Res) :
  (forall x, P (Answered _ e x)) -> (forall x, emits P (k x)) ->
  emits P (ITree.bind (ITree.trigger e) k).
Proof. intros He Hk. apply emits_bind; [apply emits_trigger, He|exact Hk]. Qed.

Lemma emits_iter {I Res} (P : entry E -> Prop)
    (step : I -> itree E (I + Res)) (i0 : I) :
  (forall i, emits P (step i)) -> emits P (ITree.iter step i0).
Proof.
  intros Hstep.
  apply (holds_iter step i0 (fun lg _ => Forall P lg)); [constructor|].
  intros lg i Hlg. eapply holds_weaken; [exact (Hstep i)|].
  intros l lr Hl. cbn beta.
  destruct lr; apply Forall_app; split; assumption.
Qed.

(** *** Running forward *)

Lemma exec_observe {St Res} (h : handler E St) n s (t u : itree E Res) :
  observe t = observe u -> exec h n s t = exec h n s u.
Proof. intros H. destruct n; [reflexivity|]. cbn. rewrite H. reflexivity. Qed.

Lemma exec_call_fwd {St X Res} (h : handler E St) f s (e : E X)
    (k : X -> itree E Res) :
  exec h (S f) s (ITree.bind (ITree.trigger e) k) =
  let (s', x) := h _ e s in
  match exec h f s' (k x) with
  | Some (s'', log, r) => Some (s'', Answered _ e x :: log, r)
  | None => None
  end.
Proof.
  cbn [exec]. rewrite observe_bind_cases. cbn.
  destruct (h X e s) as [s1 x].
  rewrite (exec_observe h f s1 (ITree.bind (Ret x) k) (k x)) by reflexivity.
  reflexivity.
Qed.

Lemma exec_bind_fwd {St A Res} (h : handler E St) f g s (t : itree E A)
    (k : A -> itree E Res) s1 l1 x s2 l2 r :
  exec h f s t = Some (s1, l1, x) ->
  exec h g s1 (k x) = Some (s2, l2, r) ->
  exec h (f + g) s (ITree.bind t k) = Some (s2, l1 ++ l2, r).
Proof.
  revert s t l1. induction f as [|f IH]; intros s t l1 H1 H2; [discriminate|].
  cbn [exec Nat.add] in *. rewrite observe_bind_cases.
  destruct (observe t) as [x0|u|X e k0].
  - inversion H1; subst. cbn [app].
    apply (exec_mono_le h g (S (f + g))) in H2; [|lia]. exact H2.
  - apply IH; assumption.
  - destruct (h X e s) as [sa xa].
    destruct (exec h f sa (k0 xa)) as [[[sb lb] rb]|] eqn:Ex; [|discriminate].
    inversion H1; subst. rewrite (IH _ _ _ Ex H2). reflexivity.
Qed.

Lemma exec_iter_continue {St I Res} (h : handler E St) f g s
    (step : I -> itree E (I + Res)) i s1 l1 i' s2 l2 r :
  exec h f s (step i) = Some (s1, l1, inl i') ->
  exec h g s1 (ITree.iter step i') = Some (s2, l2, r) ->
  exec h (f + S g) s (ITree.iter step i) = Some (s2, l1 ++ l2, r).
Proof.
  intros H1 H2.
  rewrite (exec_observe h _ s (ITree.iter step i)
             (ITree.bind (step i) (fun lr =>
                match lr with
                | inl l => Tau (ITree.iter step l)
                | inr r => Ret r
                end))) by reflexivity.
  eapply exec_bind_fwd; [exact H1|]. cbn. exact H2.
Qed.

Lemma exec_iter_exit {St I Res} (h : handler E St) f s
    (step : I -> itree E (I + Res)) i s1 l1 r :
  exec h f s (step i) = Some (s1, l1, inr r) ->
  exec h (f + 1) s (ITree.iter step i) = Some (s1, l1, r).
Proof.
  intros H1.
  rewrite (exec_observe h _ s (ITree.iter step i)
             (ITree.bind (step i) (fun lr =>
                match lr with
                | inl l => Tau (ITree.iter step l)
                | inr r => Ret r
                end))) by reflexivity.
  rewrite <- (app_nil_r l1).
  eapply exec_bind_fwd; [exact H1|]. reflexivity.
Qed.

(** A run of a loop is a sequence of rounds of its body. *)
Lemma exec_iterates {St I Res} (h : handler E St) f s
    (step : I -> itree E (I + Res)) i s' lg r :
  exec h f s (ITree.iter step i) = Some (s', lg, r) ->
  exists rounds, iterates h step s i s' lg rounds r.
Proof.
  revert s i s' lg r.
  induction f as [|f IH]; intros s i s' lg r H; [discriminate|].
  assert (H' : exec h (S f) s
            (ITree.bind (step i) (fun lr =>
               match lr with
               | inl l => Tau (ITree.iter step l)
               | inr r => Ret r
               end)) = Some (s', lg, r)) by exact H.
  clear H. apply exec_bind_inv in H'.
  destruct H' as (s1 & l1 & lr & l2 & H1 & H2 & ->).
  destruct lr as [i'|r'].
  - cbn in H2. destruct (IH _ _ _ _ _ H2) as [rounds Hr].
    exists (i :: rounds). eapply iterates_continue; [exact H1|exact Hr].
  - cbn in H2. inversion H2; subst. rewrite app_nil_r.
    exists [i]. eapply iterates_exit. exact H1.
Qed.

(** A bounded program returns against every library. *)
Lemma bounded_exec {St Res} (h : handler E St) n (t : itree E Res) s :
  bounded n t -> exists v, exec h n s t = Some v.
Proof.
  revert t s. induction n as [|n IH]; intros t s H; [contradiction|].
  cbn in *. destruct (observe t) as [r|u|X e k].
  - eexists. reflexivity.
  - apply IH, H.
  - destruct (h X e s) as [s1 x].
    destruct (IH (k x) s1 (H x)) as [[[s2 l] r] Hv].
    rewrite Hv. eexists. reflexivity.
Qed.

Lemma bounded_ret {Res} n (r : Res) : bounded (S n) (Ret r : itree E Res).
Proof. exact I. Qed.

Lemma bounded_bind_ret {A Res} n (x : A) (k : A -> itree E Res) :
  bounded n (k x) -> bounded n (ITree.bind (Ret x) k).
Proof. destruct n; [contradiction|]. intros H. exact H. Qed.

Lemma bounded_call {X Res} n (e : E X) (k : X -> itree E Res) :
  (forall x, bounded n (k x)) ->
  bounded (S n) (ITree.bind (ITree.trigger e) k).
Proof. intros H x. apply bounded_bind_ret, H. Qed.

Lemma pick_In {A} (f : entry E -> option A) (l : list (entry E)) (a : A) :
  In a (pick f l) -> exists en, In en l /\ f en = Some a.
Proof.
  induction l as [|en l IH]; cbn; [contradiction|].
  destruct (f en) as [b|] eqn:Hf.
  - intros [->|H].
    + exists en. split; [left; reflexivity|exact Hf].
    + destruct (IH H) as (en' & Hin & Hf'). exists en'. split; [right|]; auto.
  - intros H. destruct (IH H) as (en' & Hin & Hf'). exists en'.
    split; [right|]; auto.
Qed.

Lemma pick_app {A} (f : entry E -> option A) (l1 l2 : list (entry E)) :
  pick f (l1 ++ l2) = pick f l1 ++ pick f l2.
Proof.
  induction l1 as [|en l1 IH]; cbn; [reflexivity|].
  destruct (f en); cbn; rewrite IH; reflexivity.
Qed.

Lemma pick_quiet {A} (f : entry E -> option A) (l : list (entry E)) :
  Forall (fun en => f en = None) l -> pick f l = [].
Proof.
  induction 1 as [|en l Hen _ IH]; cbn; [reflexivity|].
  rewrite Hen. exact IH.
Qed.

Lemma reads_ret {Res A} (f : entry E -> option A) (pre : list A)
    (Q : list A -> Res -> Prop) (r : Res) :
  Q pre r -> reads f pre Q (Ret r).
Proof. intros H. apply holds_ret. cbn. rewrite app_nil_r. exact H. Qed.

Lemma reads_quiet {Res A} (f : entry E -> option A) (pre : list A)
    (Q : list A -> Res -> Prop) (t : itree E Res) :
  emits (fun en => f en = None) t -> (forall r, Q pre r) -> reads f pre Q t.
Proof.
  intros Ht HQ. eapply holds_weaken; [exact Ht|]. intros lg r Hl. cbn beta.
  rewrite (pick_quiet f lg Hl), app_nil_r. apply HQ.
Qed.

Lemma reads_quiet_bind {B Res A} (f : entry E -> option A) (pre : list A)
    (Q : list A -> Res -> Prop) (t : itree E B) (k : B -> itree E Res) :
  emits (fun en => f en = None) t -> (forall x, reads f pre Q (k x)) ->
  reads f pre Q (ITree.bind t k).
Proof.
  intros Ht Hk. apply holds_bind.
  eapply holds_weaken; [exact Ht|]. intros l1 x H1. cbn beta.
  eapply holds_weaken; [exact (Hk x)|]. intros l2 r H2. cbn beta in *.
  rewrite pick_app, (pick_quiet f l1 H1). exact H2.
Qed.

Lemma reads_say {X Res A} (f : entry E -> option A) (pre : list A)
    (Q : list A -> Res -> Prop) (e : E X) (a : A) (k : X -> itree E Res) :
  (forall x, f (Answered _ e x) = Some a) ->
  (forall x, reads f (pre ++ [a]) Q (k x)) ->
  reads f pre Q (ITree.bind (ITree.trigger e) k).
Proof.
  intros Hf Hk. apply holds_call. intros x.
  eapply holds_weaken; [exact (Hk x)|]. intros lg r H. cbn beta in *.
  cbn [pick]. rewrite Hf. rewrite <- app_assoc in H. exact H.
Qed.

End RunFacts.

Ltac emit_step :=
  first
    [ apply emits_ret
    | apply emits_call; [intros ? | intros ?]
    | apply emits_iter; intros ?
    | match goal with
      | |- Run.emits _ (if ?c then _ else _) => destruct c eqn:?
      | |- Run.emits _ (match ?p with pair _ _ => _ end) => destruct p eqn:?
      | |- Run.emits _ (ITree.bind _ _) => apply emits_bind; [|intros ?]
      | |- Run.emits _ (ITree.trigger _) => apply emits_trigger; intros ?
      end
    | progress cbv beta zeta
    | progress unfold Enc.encode, Enc.encode_header, Enc.encode_settings,
        Enc.encode_frame, Enc.collect_output, Enc.output_step, Enc.leave,
        Enc.SetFrameOption ].

Ltac emit_walk := repeat emit_step.

Ltac read_step :=
  first
    [ apply reads_ret
    | match goal with
      | |- Run.reads _ _ _
             (ITree.bind
                (ITree.trigger (Jxl.JxlEncoderSetFrameDistance ?d)) _) =>
        apply (reads_say _ _ _ _ d); [intros ?; reflexivity | intros ?]
      | |- Run.reads _ _ _ (if ?c then _ else _) => destruct c eqn:?
      | |- Run.reads _ _ _ (match ?p with pair _ _ => _ end) =>
        destruct p eqn:?
      | |- Run.reads _ _ _ (Enc.collect_output _) =>
        apply reads_quiet; [solve [emit_walk; reflexivity] | intros ?]
      | |- Run.reads _ _ _ (ITree.bind _ _) =>
        apply reads_quiet_bind; [solve [emit_walk; reflexivity] | intros ?]
      end
    | progress cbv beta zeta
    | progress unfold Enc.encode, Enc.encode_header, Enc.encode_settings,
        Enc.encode_frame, Enc.leave ].

Ltac read_walk := repeat read_step.

(** ** Size arithmetic *)

Section SizeFacts.

Variable size_bits : Z.
Hypothesis size_bits_ge : 32 <= size_bits.

Lemma size_max_pos : 2 ^ 32 - 1 <= Enc.size_max size_bits.
Proof.
  unfold Enc.size_max, Int.max_unsigned.
  assert (2 ^ 32 <= 2 ^ size_bits) by (apply Z.pow_le_mono_r; lia). lia.
Qed.

Lemma to_size_small x :
  0 <= x <= Enc.size_max size_bits -> Enc.to_size size_bits x = x.
Proof.
  unfold Enc.to_size, Enc.size_max, Int.wrap, Int.max_unsigned. intros H.
  apply Z.mod_small. lia.
Qed.

(** The division test of the source decides whether a product overflows. *)
Lemma div_test a b m :
  0 <= a -> 0 < b -> 0 <= m ->
  (m / b <? a) = true <-> m < a * b.
Proof.
  intros Ha Hb Hm. rewrite Z.ltb_lt.
  pose proof (Z.div_mod m b ltac:(lia)) as E.
  pose proof (Z.mod_pos_bound m b Hb) as B.
  split; intros H; nia.
Qed.

Lemma div_test_false a b m :
  0 <= a -> 0 < b -> 0 <= m ->
  (m / b <? a) = false <-> a * b <= m.
Proof.
  intros Ha Hb Hm. rewrite Z.ltb_ge.
  pose proof (Z.div_mod m b ltac:(lia)) as E.
  pose proof (Z.mod_pos_bound m b Hb) as B.
  split; intros H; nia.
Qed.

Lemma size_max_nonneg : 0 <= Enc.size_max size_bits.
Proof. pose proof size_max_pos. lia. Qed.

(** On positive arguments the three division tests pass exactly when the
    product fits in [size_t]. *)
Lemma ComputeExpectedSize_positive
    (width height num_channels bytes_per_sample old : Z) :
  0 < width <= Int.max_unsigned 32 -> 0 < height <= Int.max_unsigned 32 ->
  0 < num_channels <= Int.int_max ->
  0 < bytes_per_sample <= Enc.size_max size_bits ->
  let product := width * height * num_channels * bytes_per_sample in
  Enc.ComputeExpectedSize size_bits width height num_channels
    bytes_per_sample old =
  if product <=? Enc.size_max size_bits then (true, product)
  else (false, old).
Proof.
  intros Hw Hh Hc Hb product. subst product.
  pose proof size_max_pos as HM.
  unfold Int.max_unsigned, Int.int_max in *.
  unfold Enc.ComputeExpectedSize.
  replace ((width =? 0) || (height =? 0) || (num_channels <=? 0)
           || (bytes_per_sample =? 0)) with false
    by (symmetry; rewrite !orb_false_iff, !Z.eqb_neq, Z.leb_gt; lia).
  rewrite (to_size_small width), (to_size_small height),
    (to_size_small num_channels) by lia.
  assert (P1 : 0 < width * height) by nia.
  assert (P2 : 0 < width * height * num_channels) by nia.
  assert (L1 : width * height <= width * height * num_channels) by nia.
  assert (L2 : width * height * num_channels
               <= width * height * num_channels * bytes_per_sample) by nia.
  destruct (Z.leb_spec (width * height * num_channels * bytes_per_sample)
              (Enc.size_max size_bits)) as [Fit|Over].
  - assert (T1 : (Enc.size_max size_bits / height <? width) = false)
      by (apply div_test_false; lia).
    assert (T2 : (Enc.size_max size_bits / num_channels <? width * height)
                 = false) by (apply div_test_false; lia).
    assert (T3 : (Enc.size_max size_bits / bytes_per_sample
                  <? width * height * num_channels) = false)
      by (apply div_test_false; lia).
    rewrite T1. rewrite (to_size_small (width * height)) by lia.
    rewrite T2. rewrite (to_size_small (width * height * num_channels)) by lia.
    rewrite T3.
    rewrite to_size_small by lia. reflexivity.
  - destruct (Enc.size_max size_bits / height <? width) eqn:T1;
      [reflexivity|].
    apply div_test_false in T1; try lia.
    rewrite (to_size_small (width * height)) by lia.
    destruct (Enc.size_max size_bits / num_channels <? width * height) eqn:T2;
      [reflexivity|].
    apply div_test_false in T2; try lia.
    rewrite (to_size_small (width * height * num_channels)) by lia.
    destruct (Enc.size_max size_bits / bytes_per_sample
                <? width * height * num_channels) eqn:T3; [reflexivity|].
    apply div_test_false in T3; try lia.
Qed.

(** C1 (amended): on positive arguments [ComputeExpectedSize] stores the
    exact product [width*height*channels*bytesPerSample] and returns true
    when that product fits in [size_t], and returns false, leaving the
    out-parameter alone, when the product exceeds the largest [size_t];
    when an argument is zero (or the channel count is not positive) it
    returns false although the product does not overflow. *)
Theorem ComputeExpectedSize_exact
    (width height num_channels bytes_per_sample old : Z) :
  Int.is_uint32 width -> Int.is_uint32 height ->
  Int.is_int num_channels -> Enc.is_size size_bits bytes_per_sample ->
  let product := width * height * num_channels * bytes_per_sample in
  let result :=
    Enc.ComputeExpectedSize size_bits width height num_channels
      bytes_per_sample old in
  (0 < width -> 0 < height -> 0 < num_channels -> 0 < bytes_per_sample ->
     (product <= Enc.size_max size_bits -> result = (true, product)) /\
     (Enc.size_max size_bits < product -> result = (false, old))) /\
  (width = 0 \/ height = 0 \/ num_channels <= 0 \/ bytes_per_sample = 0 ->
     result = (false, old)).
Proof.
  intros Hw Hh Hc Hb product result. subst product result.
  unfold Int.is_uint32, Int.is_int, Enc.is_size in *.
  split.
  - intros Pw Ph Pc Pb.
    rewrite ComputeExpectedSize_positive by lia.
    destruct (Z.leb_spec (width * height * num_channels * bytes_per_sample)
                (Enc.size_max size_bits)); split; intros; (reflexivity || lia).
  - intros Hz. unfold Enc.ComputeExpectedSize.
    replace ((width =? 0) || (height =? 0) || (num_channels <=? 0)
             || (bytes_per_sample =? 0)) with true; [reflexivity|].
    symmetry. rewrite !orb_true_iff, !Z.eqb_eq, Z.leb_le. tauto.
Qed.

End SizeFacts.

(** C1, witness: a 65536 x 65536 RGBA float image needs 2^36 bytes, which
    fits a 64-bit [size_t]. *)
Lemma ComputeExpectedSize_exact_witness :
  Enc.ComputeExpectedSize 64 65536 65536 4 4 0 = (true, 2 ^ 36).
Proof.
  assert (U : Int.is_uint32 65536)
    by (unfold Int.is_uint32, Int.max_unsigned; lia).
  assert (I : Int.is_int 4)
    by (unfold Int.is_int, Int.int_min, Int.int_max; lia).
  assert (B : Enc.is_size 64 4)
    by (unfold Enc.is_size, Enc.size_max, Int.max_unsigned; lia).
  assert (S : 32 <= 64) by lia.
  destruct (ComputeExpectedSize_exact 64 S 65536 65536 4 4 0 U U I B)
    as [Hpos _].
  destruct Hpos as [Hfit _]; try lia.
  apply Hfit. unfold Enc.size_max, Int.max_unsigned. lia.
Defined.

(** A 65536 x 65536 RGBA float image overflows a 32-bit [size_t]. *)
Lemma ComputeExpectedSize_overflows_32 :
  Enc.ComputeExpectedSize 32 65536 65536 4 4 0 = (false, 0).
Proof. reflexivity. Qed.

(** C1, counterexample: with width 0 the product is 0, far below the largest
    [size_t], and yet the function reports failure instead of the product. *)
Lemma ComputeExpectedSize_zero_width_fails :
  0 * 1 * 3 * 1 <= Enc.size_max 32 /\
  Enc.ComputeExpectedSize 32 0 1 3 1 7 = (false, 7) /\
  ~ (0 * 1 * 3 * 1 <= Enc.size_max 32 ->
     Enc.ComputeExpectedSize 32 0 1 3 1 7 = (true, 0 * 1 * 3 * 1)).
Proof.
  split; [vm_compute; discriminate|].
  split; [reflexivity|].
  intros H. assert (E : 0 * 1 * 3 * 1 <= Enc.size_max 32)
    by (vm_compute; discriminate).
  apply H in E. vm_compute in E. discriminate.
Qed.

(** ** Encoder: quality to distance *)

Section DistanceFacts.

Local Open Scope R_scope.

Lemma clamp_range (q : R) : 0 <= Flt.clamp q 0 100 <= 100.
Proof.
  unfold Flt.clamp. destruct (Rlt_dec q 0); [lra|].
  destruct (Rlt_dec 100 q); lra.
Qed.

Lemma clamp_id (q : R) : 0 <= q <= 100 -> Flt.clamp q 0 100 = q.
Proof.
  intros H. unfold Flt.clamp. destruct (Rlt_dec q 0); [lra|].
  destruct (Rlt_dec 100 q); lra.
Qed.

Lemma clamp_monotone (q1 q2 : R) :
  q1 <= q2 -> Flt.clamp q1 0 100 <= Flt.clamp q2 0 100.
Proof.
  intros H. unfold Flt.clamp.
  destruct (Rlt_dec q1 0); destruct (Rlt_dec q2 0);
    destruct (Rlt_dec 100 q1); destruct (Rlt_dec 100 q2); lra.
Qed.

Lemma distance_lossless (q : R) : 100 <= q -> Enc.distance q = 0.
Proof. intros H. unfold Enc.distance. destruct (Rle_dec 100 q); lra. Qed.

Lemma distance_linear (q : R) :
  30 <= q < 100 -> Enc.distance q = 0.1 + (100 - q) * 0.09.
Proof.
  intros H. unfold Enc.distance. destruct (Rle_dec 100 q); [lra|].
  destruct (Rle_dec 30 q); lra.
Qed.

Lemma distance_exponential (q : R) :
  q < 30 -> Enc.distance q = 6.4 + Rpower 2.5 ((30 - q) / 5) / 6.25.
Proof.
  intros H. unfold Enc.distance. destruct (Rle_dec 100 q); [lra|].
  destruct (Rle_dec 30 q); lra.
Qed.

Lemma Rpower_2_5_ge_1 (x : R) : 0 <= x -> 1 <= Rpower 2.5 x.
Proof.
  intros H. rewrite <- (Rpower_O 2.5) by lra. apply Rle_Rpower; lra.
Qed.

Lemma Rpower_2_5_6 : Rpower 2.5 6 = 244.140625.
Proof.
  replace 6 with (INR 6) by (simpl; lra).
  rewrite Rpower_pow by lra. simpl. lra.
Qed.

(** Below 30 the distance stays above 6.56. *)
Lemma distance_exponential_ge (q : R) : q < 30 -> 6.56 <= Enc.distance q.
Proof.
  intros H. rewrite distance_exponential by exact H.
  pose proof (Rpower_2_5_ge_1 ((30 - q) / 5) ltac:(lra)). lra.
Qed.

Lemma distance_antitone (a b : R) :
  a <= b -> Enc.distance b <= Enc.distance a.
Proof.
  intros Hab.
  destruct (Rle_dec 100 b) as [Hb|Hb].
  - rewrite (distance_lossless b Hb).
    destruct (Rle_dec 100 a) as [Ha|Ha];
      [rewrite distance_lossless by exact Ha; lra|].
    destruct (Rle_dec 30 a) as [Ha'|Ha'].
    + rewrite distance_linear by lra. lra.
    + pose proof (distance_exponential_ge a ltac:(lra)). lra.
  - destruct (Rle_dec 30 b) as [Hb'|Hb'].
    + rewrite (distance_linear b) by lra.
      destruct (Rle_dec 30 a) as [Ha'|Ha'].
      * rewrite distance_linear by lra. lra.
      * pose proof (distance_exponential_ge a ltac:(lra)). lra.
    + rewrite (distance_exponential b), (distance_exponential a) by lra.
      assert (Rpower 2.5 ((30 - b) / 5) <= Rpower 2.5 ((30 - a) / 5))
        by (apply Rle_Rpower; lra).
      lra.
Qed.

(** C9: the distance never grows with the quality, over the whole range of
    qualities and across both breakpoints. *)
Theorem quality_to_distance_antitone (q1 q2 : R) :
  q1 <= q2 -> Enc.quality_to_distance q2 <= Enc.quality_to_distance q1.
Proof.
  intros H. unfold Enc.quality_to_distance.
  apply distance_antitone, clamp_monotone, H.
Qed.

(** The mapping jumps down by at least 0.16 at quality 30. *)
Lemma quality_to_distance_jump_30 (q : R) :
  q < 30 ->
  Enc.quality_to_distance 30 = 6.4 /\ 6.56 <= Enc.quality_to_distance q.
Proof.
  intros H. unfold Enc.quality_to_distance. split.
  - rewrite clamp_id by lra. rewrite distance_linear by lra. lra.
  - apply distance_exponential_ge. pose proof (clamp_range q).
    unfold Flt.clamp in *. destruct (Rlt_dec q 0); [lra|].
    destruct (Rlt_dec 100 q); lra.
Qed.

(** The mapping jumps down by at least 0.1 at quality 100. *)
Lemma quality_to_distance_jump_100 (q : R) :
  30 <= q < 100 ->
  Enc.quality_to_distance 100 = 0 /\ 0.1 < Enc.quality_to_distance q.
Proof.
  intros H. unfold Enc.quality_to_distance. split.
  - rewrite clamp_id by lra. apply distance_lossless. lra.
  - rewrite clamp_id by lra. rewrite distance_linear by lra. lra.
Qed.



End DistanceFacts.

Section EncodeDistance.

Import Jxl.

Variable size_bits : Z.
Variable JxlColorEncodingSetToLinearSRGB : bool -> JxlColorEncoding.
Variable JxlColorEncodingSetToSRGB : bool -> JxlColorEncoding.

Let encode :=
  Enc.encode size_bits JxlColorEncodingSetToLinearSRGB
    JxlColorEncodingSetToSRGB.

(** Every distance [encode] sets is the one computed from the clamped
    quality, and none is set in lossless mode. *)
Lemma encode_emits_distance (image : list byte) (width height : Z)
    (options : Enc.JXLOptions) :
  emits (fun en => forall d, Enc.distance_of en = Some d ->
           Enc.lossless options = false
           /\ d = Enc.quality_to_distance (Enc.quality options))
    (encode image width height options).
Proof.
  subst encode. emit_walk;
    cbn; intros d Hd; try discriminate Hd.
  all: inversion Hd; subst; split; [reflexivity || assumption|reflexivity].
Qed.

(** A run of [encode] that returns bytes has set the distance exactly
    once, or not at all in lossless mode. *)
Lemma encode_sets_distance_once (image : list byte) (width height : Z)
    (options : Enc.JXLOptions) :
  reads Enc.distance_of []
    (fun ds r => r <> None ->
       ds = if Enc.lossless options then []
            else [Enc.quality_to_distance (Enc.quality options)])
    (encode image width height options).
Proof.
  subst encode. read_walk;
    try (intros H; contradiction H; reflexivity);
    intros _; reflexivity.
Qed.

(** [encode] switches the library to lossless mode only when
    [options.lossless] is set, and then it sets no distance. *)
Lemma encode_lossless_mode (image : list byte) (width height : Z)
    (options : Enc.JXLOptions) :
  emits (fun en => forall flag, Enc.lossless_of en = Some flag ->
           flag = true /\ Enc.lossless options = true)
    (encode image width height options)
  /\ reads Enc.distance_of []
       (fun ds _ => Enc.lossless options = true -> ds = [])
       (encode image width height options).
Proof.
  subst encode. split.
  - emit_walk; cbn; intros flag Hflag; try discriminate Hflag.
    all: inversion Hflag; subst; split; reflexivity.
  - read_walk; intros H; (reflexivity || discriminate H).
Qed.

Local Open Scope R_scope.

(** C2 (amended): with [lossless] off, [encode] clamps the quality to
    [0,100] and sets the frame distance 0 for a clamped quality of 100,
    0.1 + (100 - q) * 0.09 from 30 up to 100 and
    6.4 + 2.5^((30 - q)/5) / 6.25 below 30; so quality 100 gives 0, quality
    30 gives 6.4 and quality 0 gives 45.4625.  Every distance set in a run
    of [encode] is this one, a run that returns bytes has set it exactly
    once, and with [lossless] on none is set. *)
Theorem encode_quality_to_distance :
  (forall quality : R,
     let q := Flt.clamp quality 0 100 in
     0 <= q <= 100
     /\ (quality < 0 -> q = 0) /\ (100 < quality -> q = 100)
     /\ (0 <= quality <= 100 -> q = quality)
     /\ (100 <= q -> Enc.quality_to_distance quality = 0)
     /\ (30 <= q < 100 ->
         Enc.quality_to_distance quality = 0.1 + (100 - q) * 0.09)
     /\ (q < 30 ->
         Enc.quality_to_distance quality
         = 6.4 + Rpower 2.5 ((30 - q) / 5) / 6.25))
  /\ Enc.quality_to_distance 100 = 0
  /\ Enc.quality_to_distance 30 = 6.4
  /\ Enc.quality_to_distance 0 = 45.4625
  /\ (forall (image : list byte) (width height : Z)
        (options : Enc.JXLOptions) St (h : Run.handler EncE St)
        fuel s s' lg r,
        Run.exec h fuel s (encode image width height options)
          = Some (s', lg, r) ->
        (forall d : R, In d (Enc.distances_set lg) ->
           Enc.lossless options = false
           /\ d = Enc.quality_to_distance (Enc.quality options))
        /\ (r <> None -> Enc.lossless options = false ->
            Enc.distances_set lg
            = [Enc.quality_to_distance (Enc.quality options)])).
Proof.
  split.
  { intros quality q. subst q. pose proof (clamp_range quality) as Hc.
    split; [exact Hc|].
    unfold Enc.quality_to_distance.
    split; [unfold Flt.clamp; intros; destruct (Rlt_dec quality 0); lra|].
    split; [unfold Flt.clamp; intros; destruct (Rlt_dec quality 0);
            [lra|destruct (Rlt_dec 100 quality); lra]|].
    split; [apply clamp_id|].
    split; [apply distance_lossless|].
    split; [apply distance_linear|apply distance_exponential]. }
  split; [apply (quality_to_distance_jump_100 30); lra|].
  split; [apply (quality_to_distance_jump_30 0); lra|].
  split.
  { unfold Enc.quality_to_distance. rewrite clamp_id by lra.
    rewrite distance_exponential by lra.
    replace ((30 - 0) / 5) with 6 by lra. rewrite Rpower_2_5_6. lra. }
  intros image width height options St h fuel s s' lg r Hrun. split.
  - intros d Hin.
    pose proof (encode_emits_distance image width height options
                  _ h _ _ _ _ _ Hrun) as Hall. cbn beta in Hall.
    apply pick_In in Hin. destruct Hin as (en & Hen & Hd).
    rewrite Forall_forall in Hall. exact (Hall en Hen d Hd).
  - intros Hr Hlossy.
    pose proof (encode_sets_distance_once image width height options
                  _ h _ _ _ _ _ Hrun Hr) as Hds. cbn beta in Hds.
    rewrite Hlossy in Hds. exact Hds.
Qed.

End EncodeDistance.

(** The end-to-end example of the specification against the simulated
    encoder with two bytes of output: the run succeeds and sets the
    distance of quality 90 once. *)
Lemma encode_example_run :
  exists lg,
    Run.exec Sim.encoder 100 [x0a; xff]
      (Sim.encode_32 Sim.image_3x2 3 2 Sim.options_rgb8)
      = Some ([], lg, Some [x0a; xff])
    /\ Enc.distances_set lg = [Enc.distance 90].
Proof.
  unfold Sim.encode_32, Enc.encode, Enc.encode_header, Enc.encode_settings,
    Enc.encode_frame, Flt.clamp.
  cbn [Enc.photonNoiseIso Enc.quality Sim.options_rgb8].
  destruct (Rlt_dec 0 0) as [H|_]; [lra|].
  destruct (Rlt_dec 90 0) as [H|_]; [lra|].
  destruct (Rlt_dec 100 90) as [H|_]; [lra|].
  destruct (Rle_dec 100 90) as [H|_]; [lra|].
  eexists. split; reflexivity.
Qed.

(** C2, witness: the example run sets distance 1 for quality 90. *)
Lemma encode_quality_to_distance_witness :
  exists lg d,
    Run.exec Sim.encoder 100 [x0a; xff]
      (Sim.encode_32 Sim.image_3x2 3 2 Sim.options_rgb8)
      = Some ([], lg, Some [x0a; xff])
    /\ In d (Enc.distances_set lg)
    /\ d = Enc.quality_to_distance 90.
Proof.
  destruct encode_example_run as (lg & Hrun & Hd).
  exists lg, (Enc.distance 90). split; [exact Hrun|].
  assert (Hin : In (Enc.distance 90) (Enc.distances_set lg))
    by (rewrite Hd; left; reflexivity).
  split; [exact Hin|].
  exact (proj2 (proj1 (proj2 (proj2 (proj2 (proj2
           (encode_quality_to_distance 32 _ _)))) _ _ _ _ _ _ _ _ _ _ _
           Hrun) _ Hin)).
Defined.

(** C2, counterexample: quality 0 gives distance 45.4625, which is not
    approximately 65.4. *)
Lemma quality_0_distance_not_65 :
  Enc.quality_to_distance 0 = 45.4625%R
  /\ ~ (Rabs (Enc.quality_to_distance 0 - 65.4) <= 1)%R.
Proof.
  assert (E : Enc.quality_to_distance 0 = 45.4625%R).
  { unfold Enc.quality_to_distance. rewrite clamp_id by lra.
    rewrite distance_exponential by lra.
    replace ((30 - 0) / 5)%R with 6%R by lra. rewrite Rpower_2_5_6. lra. }
  split; [exact E|]. rewrite E. intros H.
  rewrite Rabs_left in H by lra. lra.
Qed.

(** C9, witness: qualities 20 and 50. *)
Lemma quality_to_distance_antitone_witness :
  (Enc.quality_to_distance 50 <= Enc.quality_to_distance 20)%R.
Proof. apply quality_to_distance_antitone. lra. Defined.



(** ** Encoder: the output loop *)

Section BufferFacts.

Lemma size_app (u v : list byte) : Enc.size (u ++ v) = Enc.size u + Enc.size v.
Proof. unfold Enc.size. rewrite length_app. lia. Qed.

Lemma size_nonneg (v : list byte) : 0 <= Enc.size v.
Proof. unfold Enc.size. lia. Qed.

Lemma store_size (v : list byte) (n : Z) (w : list byte) :
  0 <= n -> n + Enc.size w <= Enc.size v ->
  Enc.size (Enc.store v n w) = Enc.size v.
Proof.
  unfold Enc.size, Enc.store. intros Hn Hfit.
  rewrite !length_app, length_firstn, length_skipn. lia.
Qed.

Lemma store_prefix (v : list byte) (n : Z) (w : list byte) :
  0 <= n -> n + Enc.size w <= Enc.size v ->
  firstn (Z.to_nat (n + Enc.size w)) (Enc.store v n w)
  = firstn (Z.to_nat n) v ++ w.
Proof.
  unfold Enc.size, Enc.store. intros Hn Hfit.
  assert (L : List.length (firstn (Z.to_nat n) v) = Z.to_nat n)
    by (apply firstn_length_le; lia).
  replace (Z.to_nat (n + Z.of_nat (List.length w)))
    with (List.length (firstn (Z.to_nat n) v) + List.length w)%nat by lia.
  rewrite firstn_app_2. f_equal.
  rewrite firstn_app, firstn_all, Nat.sub_diag. cbn. apply app_nil_r.
Qed.

Lemma resize_grow (v : list byte) (n : Z) :
  Enc.size v <= n ->
  Enc.resize v n = v ++ repeat x00 (Z.to_nat (n - Enc.size v)).
Proof.
  unfold Enc.size, Enc.resize. intros H.
  rewrite firstn_all2 by lia. f_equal. f_equal. lia.
Qed.

Lemma resize_cut (v : list byte) (n : Z) :
  0 <= n <= Enc.size v -> Enc.resize v n = firstn (Z.to_nat n) v.
Proof.
  unfold Enc.size, Enc.resize. intros H.
  replace (Z.to_nat n - List.length v)%nat with 0%nat by lia.
  apply app_nil_r.
Qed.

Lemma written_by_app (a b : list Enc.output_call) :
  Enc.written_by (a ++ b) = Enc.written_by a ++ Enc.written_by b.
Proof. unfold Enc.written_by. rewrite map_app, concat_app. reflexivity. Qed.

Lemma written_by_one (c : Enc.output_call) :
  Enc.written_by [c] = Enc.oc_written c.
Proof. unfold Enc.written_by. cbn. apply app_nil_r. Qed.

Lemma on_schedule_snoc (calls : list Enc.output_call) (c : Enc.output_call) :
  Enc.on_schedule calls ->
  Enc.oc_next_out c + Enc.oc_avail_out c
    = 8192 * 2 ^ Z.of_nat (List.length calls) ->
  Enc.oc_next_out c = Enc.size (Enc.written_by calls) ->
  Enc.on_schedule (calls ++ [c]).
Proof.
  intros Hs Hcap Hoff i c' Hi.
  destruct (Nat.lt_ge_cases i (List.length calls)) as [Lt|Ge].
  - rewrite nth_error_app1 in Hi by exact Lt.
    rewrite firstn_app.
    replace (i - List.length calls)%nat with 0%nat by lia.
    cbn [firstn]. rewrite app_nil_r. apply Hs, Hi.
  - rewrite nth_error_app2 in Hi by exact Ge.
    destruct (i - List.length calls)%nat as [|k] eqn:Ek; cbn in Hi.
    + inversion Hi; subst c'. assert (i = List.length calls) by lia. subst i.
      rewrite firstn_app, firstn_all, Nat.sub_diag. cbn [firstn].
      rewrite app_nil_r. split; assumption.
    + destruct k; discriminate Hi.
Qed.

End BufferFacts.

Section OutputLoop.

Import Jxl.

Variable size_bits : Z.

(** What is known after a sequence of calls that all asked for more room,
    provided the library kept within [avail_out] and the capacity fits
    [size_t]. *)
Let loop_invariant (lg : list (entry EncE)) (st : Enc.out_state) : Prop :=
  let calls := Enc.output_calls lg in
  Forall Enc.within_avail calls ->
  8192 * 2 ^ Z.of_nat (List.length calls) <= Enc.size_max size_bits ->
  Forall Enc.asks_for_more calls
  /\ Enc.good_output_state calls st
  /\ Enc.on_schedule calls.

(** What is known when the loop is left. *)
Let loop_post (lg : list (entry EncE)) (r : option (list byte)) : Prop :=
  let calls := Enc.output_calls lg in
  Forall Enc.within_avail calls ->
  8192 * 2 ^ (Z.of_nat (List.length calls) - 1) <= Enc.size_max size_bits ->
  exists init last,
    calls = init ++ [last]
    /\ Forall Enc.asks_for_more init
    /\ Enc.oc_status last <> JXL_ENC_NEED_MORE_OUTPUT
    /\ Enc.on_schedule calls
    /\ (Enc.oc_status last = JXL_ENC_SUCCESS ->
        r = Some (Enc.written_by calls))
    /\ (Enc.oc_status last <> JXL_ENC_SUCCESS -> r = None).

Lemma output_calls_snoc (lg : list (entry EncE)) next_out avail_out
    (a : Z * list byte) (tl : list (entry EncE)) :
  Enc.output_calls tl = [] ->
  Enc.output_calls
    (lg ++ Answered _ (JxlEncoderProcessOutput next_out avail_out) a :: tl)
  = Enc.output_calls lg ++
    [{| Enc.oc_next_out := next_out; Enc.oc_avail_out := avail_out;
        Enc.oc_status := fst a; Enc.oc_written := snd a |}].
Proof.
  intros Htl. unfold Enc.output_calls in *. rewrite pick_app. cbn.
  rewrite Htl. reflexivity.
Qed.

Lemma output_step_holds (lg : list (entry EncE)) (st : Enc.out_state) :
  loop_invariant lg st ->
  holds (Enc.output_step size_bits st) (fun log lr =>
    match lr with
    | inl st' => loop_invariant (lg ++ log) st'
    | inr r => loop_post (lg ++ log) r
    end).
Proof.
  destruct st as [[compressed next_out] avail_out]. intros Inv.
  unfold Enc.output_step. apply holds_call. intros [status written].
  cbv beta zeta iota.
  set (c := {| Enc.oc_next_out := next_out; Enc.oc_avail_out := avail_out;
               Enc.oc_status := status; Enc.oc_written := written |}).
  assert (Facts : Forall Enc.within_avail (Enc.output_calls lg ++ [c]) ->
            8192 * 2 ^ Z.of_nat (List.length (Enc.output_calls lg))
              <= Enc.size_max size_bits ->
            Forall Enc.asks_for_more (Enc.output_calls lg)
            /\ Enc.on_schedule (Enc.output_calls lg ++ [c])
            /\ Enc.size (Enc.store compressed next_out written)
               = 8192 * 2 ^ Z.of_nat (List.length (Enc.output_calls lg))
            /\ next_out + Enc.size written
               = Enc.size (Enc.written_by (Enc.output_calls lg ++ [c]))
            /\ next_out + Enc.size written
               <= Enc.size (Enc.store compressed next_out written)
            /\ firstn (Z.to_nat (next_out + Enc.size written))
                 (Enc.store compressed next_out written)
               = Enc.written_by (Enc.output_calls lg ++ [c])).
  { intros Hav Hcap. apply Forall_app in Hav. destruct Hav as [Hav Hc].
    inversion Hc as [|? ? Hc' _]; subst. unfold Enc.within_avail in Hc'.
    cbn in Hc'.
    destruct (Inv Hav Hcap) as (Hmore & Hgood & Hsched).
    destruct Hgood as (Hsize & Hnext & Havail & Hpos & Hprefix).
    pose proof (size_nonneg written) as Hw.
    pose proof (size_nonneg (Enc.written_by (Enc.output_calls lg))) as Hn.
    assert (Hfit : next_out + Enc.size written <= Enc.size compressed)
      by lia.
    split; [exact Hmore|].
    split.
    { apply on_schedule_snoc; [exact Hsched| |exact Hnext].
      unfold c. cbn [Enc.oc_next_out Enc.oc_avail_out]. lia. }
    rewrite store_size by lia. split; [exact Hsize|].
    rewrite written_by_app, written_by_one, size_app.
    change (Enc.oc_written c) with written.
    split; [lia|]. split; [lia|].
    rewrite store_prefix by lia. rewrite Hprefix. reflexivity. }
  destruct (Z.eqb_spec status JXL_ENC_NEED_MORE_OUTPUT) as [More|NotMore].
  - apply holds_ret. unfold loop_invariant. cbv zeta.
    rewrite (output_calls_snoc lg next_out avail_out (status, written) [])
      by reflexivity.
    cbn [fst snd]. fold c. intros Hav Hcap.
    rewrite length_app in Hcap. cbn [List.length] in Hcap.
    replace (Z.of_nat (List.length (Enc.output_calls lg) + 1))
      with (Z.of_nat (List.length (Enc.output_calls lg)) + 1) in Hcap by lia.
    rewrite Z.pow_add_r in Hcap by lia.
    assert (Hp : 0 < 2 ^ Z.of_nat (List.length (Enc.output_calls lg)))
      by (apply Z.pow_pos_nonneg; lia).
    destruct (Facts Hav ltac:(lia))
      as (Hmore & Hsched & Hsize & Hnext & Hle & Hprefix).
    split.
    { apply Forall_app. split; [exact Hmore|].
      constructor; [exact More|constructor]. }
    split; [|exact Hsched].
    unfold Enc.good_output_state.
    set (stored := Enc.store compressed next_out written) in *.
    assert (Hdouble : Enc.to_size size_bits (Enc.size stored * 2)
                      = Enc.size stored * 2).
    { unfold Enc.to_size, Int.wrap, Enc.size_max, Int.max_unsigned in *.
      apply Z.mod_small. lia. }
    rewrite Hdouble.
    rewrite resize_grow by (pose proof (size_nonneg stored); lia).
    assert (Hgrown : Enc.size (stored ++ repeat x00
                       (Z.to_nat (Enc.size stored * 2 - Enc.size stored)))
                     = Enc.size stored * 2).
    { rewrite size_app. unfold Enc.size at 2. rewrite repeat_length.
      pose proof (size_nonneg stored). lia. }
    rewrite Hgrown.
    assert (Hroom : Enc.to_size size_bits
                      (Enc.size stored * 2 - (next_out + Enc.size written))
                    = Enc.size stored * 2 - (next_out + Enc.size written)).
    { unfold Enc.to_size, Int.wrap, Enc.size_max, Int.max_unsigned in *.
      apply Z.mod_small.
      pose proof (size_nonneg (Enc.written_by (Enc.output_calls lg ++ [c]))).
      lia. }
    rewrite Hroom.
    split.
    { rewrite length_app. cbn [List.length].
      replace (Z.of_nat (List.length (Enc.output_calls lg) + 1))
        with (Z.of_nat (List.length (Enc.output_calls lg)) + 1) by lia.
      rewrite Z.pow_add_r by lia. lia. }
    split; [exact Hnext|]. split; [reflexivity|]. split; [lia|].
    rewrite firstn_app.
    replace (Z.to_nat (next_out + Enc.size written) - List.length stored)%nat
      with 0%nat by (unfold Enc.size in *; lia).
    cbn [firstn]. rewrite app_nil_r. exact Hprefix.
  - assert (Post : forall r,
              (status = JXL_ENC_SUCCESS ->
               r = Some (Enc.resize
                           (Enc.store compressed next_out written)
                           (next_out + Enc.size written))) ->
              (status <> JXL_ENC_SUCCESS -> r = None) ->
              forall x : unit,
              loop_post
                (lg ++
                 [Answered _ (JxlEncoderProcessOutput next_out avail_out)
                    (status, written)]
                 ++ [Answered _ JxlEncoderDestroy x] ++ [])
                r).
    { intros r Hok Hbad x. unfold loop_post. cbv zeta. cbn [app].
      rewrite (output_calls_snoc lg next_out avail_out (status, written)
                 [Answered _ JxlEncoderDestroy x]) by reflexivity.
      cbn [fst snd]. fold c. intros Hav Hcap.
      rewrite length_app in Hcap. cbn [List.length] in Hcap.
      replace (Z.of_nat (List.length (Enc.output_calls lg) + 1) - 1)
        with (Z.of_nat (List.length (Enc.output_calls lg))) in Hcap by lia.
      destruct (Facts Hav Hcap)
        as (Hmore & Hsched & Hsize & Hnext & Hle & Hprefix).
      exists (Enc.output_calls lg), c.
      split; [reflexivity|]. split; [exact Hmore|].
      split; [exact NotMore|]. split; [exact Hsched|].
      split; [|exact Hbad].
      intros Hs. rewrite (Hok Hs). f_equal.
      rewrite resize_cut; [exact Hprefix|].
      pose proof (size_nonneg
                    (Enc.written_by (Enc.output_calls lg ++ [c]))). lia. }
    destruct (Z.eqb_spec status JXL_ENC_SUCCESS) as [Ok|Bad]; cbn [negb];
      unfold Enc.leave.
    + apply holds_bind, holds_call. intros x. apply holds_ret. cbv beta.
      apply holds_ret. apply Post; [reflexivity|contradiction].
    + apply holds_bind, holds_call. intros x. apply holds_ret. cbv beta.
      apply holds_ret. apply Post; [contradiction|reflexivity].
Qed.

Lemma collect_output_holds :
  holds (Enc.collect_output size_bits) loop_post.
Proof.
  unfold Enc.collect_output. cbv zeta.
  apply (holds_iter _ _ loop_invariant); [|apply output_step_holds].
  unfold loop_invariant. cbn [Enc.output_calls pick List.length].
  intros _ _. split; [constructor|]. split.
  - unfold Enc.good_output_state, Enc.written_by, Enc.size.
    cbn [map List.concat List.length firstn Z.to_nat Z.of_nat].
    rewrite repeat_length. repeat split; (lia || reflexivity).
  - intros i c Hi. destruct i; discriminate Hi.
Qed.

(** Each round of the loop calls [JxlEncoderProcessOutput] once. *)
Lemma output_step_one_call (st : Enc.out_state) :
  holds (Enc.output_step size_bits st) (fun log _ =>
    List.length (Enc.output_calls log) = 1%nat).
Proof.
  destruct st as [[compressed next_out] avail_out].
  unfold Enc.output_step. apply holds_call. intros [status written].
  cbv beta zeta iota.
  destruct (status =? JXL_ENC_NEED_MORE_OUTPUT).
  - apply holds_ret. reflexivity.
  - destruct (negb (status =? JXL_ENC_SUCCESS)); unfold Enc.leave;
      apply holds_bind, holds_call; intros x; apply holds_ret; cbv beta;
      apply holds_ret; reflexivity.
Qed.

Lemma output_loop_start :
  loop_invariant []
    (repeat x00 (Z.to_nat 8192), 0,
     Enc.size (repeat x00 (Z.to_nat 8192))).
Proof.
  unfold loop_invariant. cbn [Enc.output_calls pick List.length].
  intros _ _. split; [constructor|]. split.
  - unfold Enc.good_output_state, Enc.written_by, Enc.size.
    cbn [map List.concat List.length firstn Z.to_nat Z.of_nat].
    rewrite repeat_length. repeat split; (lia || reflexivity).
  - intros i c Hi. destruct i; discriminate Hi.
Qed.

(** The vector at the start of each round: after [i] calls that asked
    for more output it has [8192 * 2^i] bytes, and these start with
    everything the library stored. *)
Lemma output_loop_states {St} (h : handler EncE St) :
  forall s st s' lg rounds r,
  iterates h (Enc.output_step size_bits) s st s' lg rounds r ->
  forall lg0, loop_invariant lg0 st ->
    Forall Enc.within_avail (Enc.output_calls (lg0 ++ lg)) ->
    8192 * 2 ^ (Z.of_nat (List.length (Enc.output_calls (lg0 ++ lg))) - 1)
      <= Enc.size_max size_bits ->
    List.length rounds = List.length (Enc.output_calls lg)
    /\ forall i st_i, nth_error rounds i = Some st_i ->
         Enc.good_output_state
           (firstn (List.length (Enc.output_calls lg0) + i)
              (Enc.output_calls (lg0 ++ lg))) st_i.
Proof.
  assert (Here : forall lg0 lg,
            List.length (Enc.output_calls lg) = 1%nat ->
            Forall Enc.within_avail (Enc.output_calls (lg0 ++ lg)) ->
            8192 * 2 ^ (Z.of_nat
                          (List.length (Enc.output_calls (lg0 ++ lg))) - 1)
              <= Enc.size_max size_bits ->
            forall st, loop_invariant lg0 st ->
            forall tl,
            Enc.good_output_state
              (firstn (List.length (Enc.output_calls lg0) + 0)
                 (Enc.output_calls lg0 ++ tl)) st).
  { intros lg0 lg Hone Hav Hcap st Inv tl.
    unfold Enc.output_calls in *. rewrite pick_app in Hav, Hcap.
    rewrite length_app, Hone in Hcap.
    apply Forall_app in Hav. destruct Hav as [Hav _].
    rewrite Nat.add_0_r, firstn_app, firstn_all, Nat.sub_diag.
    cbn [firstn]. rewrite app_nil_r.
    apply Inv; [exact Hav|].
    replace (Z.of_nat (List.length (pick Enc.output_call_of lg0) + 1) - 1)
      with (Z.of_nat (List.length (pick Enc.output_call_of lg0)))
      in Hcap by lia.
    exact Hcap. }
  intros s st s' lg rounds r Hiter.
  induction Hiter as [s st fuel s' lg r Hstep
                     |s st fuel s1 lg1 st1 s' lg rounds r Hstep Hrest IH];
    intros lg0 Inv Hav Hcap.
  - pose proof (output_step_one_call st _ h _ _ _ _ _ Hstep) as Hone.
    cbv beta in Hone. split; [rewrite Hone; reflexivity|].
    intros i st_i Hi.
    destruct i as [|i]; [|destruct i; discriminate Hi].
    inversion Hi; subst st_i.
    unfold Enc.output_calls at 2. rewrite pick_app.
    exact (Here lg0 lg Hone Hav Hcap st Inv _).
  - pose proof (output_step_one_call st _ h _ _ _ _ _ Hstep) as Hone.
    cbv beta in Hone.
    pose proof (output_step_holds lg0 st Inv _ h _ _ _ _ _ Hstep) as Inv1.
    cbv beta iota in Inv1.
    assert (Hlen : List.length (Enc.output_calls (lg0 ++ lg1))
                   = S (List.length (Enc.output_calls lg0))).
    { unfold Enc.output_calls in *. rewrite pick_app, length_app, Hone.
      lia. }
    assert (Hpos : (1 <= List.length (Enc.output_calls lg))%nat).
    { clear - Hrest. inversion Hrest; subst.
      - match goal with
        | H : exec _ _ _ _ = Some _ |- _ =>
          pose proof (output_step_one_call _ _ _ _ _ _ _ _ H) as H1
        end.
        cbv beta in H1. rewrite H1. lia.
      - match goal with
        | H : exec _ _ _ _ = Some (_, _, inl _) |- _ =>
          pose proof (output_step_one_call _ _ _ _ _ _ _ _ H) as H1
        end.
        cbv beta in H1. unfold Enc.output_calls in *.
        rewrite pick_app, length_app, H1. lia. }
    rewrite app_assoc in Hav, Hcap.
    destruct (IH (lg0 ++ lg1) Inv1 Hav Hcap) as [IHlen IHst].
    split.
    { cbn [List.length]. rewrite IHlen. unfold Enc.output_calls in *.
      rewrite pick_app, length_app, Hone. reflexivity. }
    intros i st_i Hi. destruct i as [|i].
    + inversion Hi; subst st_i.
      unfold Enc.output_calls at 2. rewrite pick_app.
      apply (Here lg0 lg1 Hone); [| |exact Inv].
      * unfold Enc.output_calls in *. rewrite !pick_app in Hav.
        rewrite pick_app. apply Forall_app in Hav. apply Hav.
      * rewrite Hlen. eapply Z.le_trans; [|exact Hcap].
        apply Z.mul_le_mono_nonneg_l; [lia|].
        apply Z.pow_le_mono_r; [lia|].
        unfold Enc.output_calls in *. rewrite !pick_app, !length_app.
        rewrite !pick_app, !length_app in Hlen. lia.
    + cbn [nth_error] in Hi. specialize (IHst i st_i Hi).
      rewrite Hlen in IHst. rewrite <- app_assoc in IHst.
      replace (List.length (Enc.output_calls lg0) + S i)%nat
        with (S (List.length (Enc.output_calls lg0)) + i)%nat by lia.
      exact IHst.
Qed.

Lemma firstn_snoc_nth {A} (l : list A) (i : nat) (x : A) :
  nth_error l i = Some x -> firstn (S i) l = firstn i l ++ [x].
Proof.
  revert i. induction l as [|a l IH]; intros [|i] H; try discriminate H.
  - inversion H. reflexivity.
  - cbn [firstn app]. f_equal. apply IH. exact H.
Qed.

(** C4: the output loop starts with a vector of 8192 bytes.  Each call
    that asks for more output is followed by a round on a vector twice as
    large - [8192 * 2^i] bytes in round [i] - that still starts with
    everything stored so far, with [next_out] behind these bytes and
    [avail_out] the room left.  The first other status ends the loop:
    success with exactly the bytes the library stored, in order and
    without slack, anything else with null.  [states] are the loop states
    of the run, one for each round of the loop body. *)
Theorem collect_output_spec {St} (h : handler EncE St) fuel s s' lg r :
  exec h fuel s (Enc.collect_output size_bits) = Some (s', lg, r) ->
  let calls := Enc.output_calls lg in
  Forall Enc.within_avail calls ->
  8192 * 2 ^ (Z.of_nat (List.length calls) - 1) <= Enc.size_max size_bits ->
  exists init last states,
    calls = init ++ [last]
    /\ Forall Enc.asks_for_more init
    /\ Enc.oc_status last <> JXL_ENC_NEED_MORE_OUTPUT
    /\ (forall i c, nth_error calls i = Some c ->
          Enc.oc_next_out c + Enc.oc_avail_out c = 8192 * 2 ^ Z.of_nat i
          /\ Enc.oc_next_out c = Enc.size (Enc.written_by (firstn i calls)))
    /\ (Enc.oc_status last = JXL_ENC_SUCCESS ->
        r = Some (Enc.written_by calls)
        /\ forall out, r = Some out ->
             Enc.size out = Enc.size (Enc.written_by calls))
    /\ (Enc.oc_status last <> JXL_ENC_SUCCESS -> r = None)
    /\ iterates h (Enc.output_step size_bits) s
         (repeat x00 (Z.to_nat 8192), 0, 8192) s' lg states r
    /\ List.length states = List.length calls
    /\ (forall i compressed next_out avail_out,
          nth_error states i = Some (compressed, next_out, avail_out) ->
          Enc.size compressed = 8192 * 2 ^ Z.of_nat i
          /\ next_out = Enc.size (Enc.written_by (firstn i calls))
          /\ avail_out = Enc.size compressed - next_out
          /\ firstn (Z.to_nat next_out) compressed
             = Enc.written_by (firstn i calls))
    /\ (forall i compressed next_out avail_out c,
          nth_error states i = Some (compressed, next_out, avail_out) ->
          nth_error calls i = Some c ->
          Enc.oc_next_out c = next_out /\ Enc.oc_avail_out c = avail_out)
    /\ (forall i compressed next_out avail_out
           compressed' next_out' avail_out',
          nth_error states i = Some (compressed, next_out, avail_out) ->
          nth_error states (S i)
            = Some (compressed', next_out', avail_out') ->
          Enc.size compressed' = 2 * Enc.size compressed
          /\ exists c,
               nth_error calls i = Some c
               /\ next_out' = next_out + Enc.size (Enc.oc_written c)
               /\ firstn (Z.to_nat next_out') compressed'
                  = firstn (Z.to_nat next_out) compressed
                    ++ Enc.oc_written c).
Proof.
  intros Hrun calls Hav Hcap.
  destruct (collect_output_holds _ h _ _ _ _ _ Hrun Hav Hcap)
    as (init & last & Hc & Hmore & Hlast & Hsched & Hok & Hbad).
  assert (Hsize : Enc.size (repeat x00 (Z.to_nat 8192)) = 8192)
    by (unfold Enc.size; rewrite repeat_length; lia).
  pose proof Hrun as Hloop. unfold Enc.collect_output in Hloop.
  cbv zeta in Hloop.
  destruct (exec_iterates h fuel s _ _ s' lg r Hloop) as [states Hiter].
  rewrite Hsize in Hiter.
  pose proof output_loop_start as Hstart. rewrite Hsize in Hstart.
  destruct (output_loop_states h _ _ _ _ _ _ Hiter [] Hstart Hav Hcap)
    as [Hlen Hstates].
  change (Enc.output_calls []) with (@nil Enc.output_call) in Hstates.
  cbn [app List.length Nat.add] in Hstates.
  fold calls in Hlen, Hstates.
  assert (Hstate : forall i compressed next_out avail_out,
            nth_error states i = Some (compressed, next_out, avail_out) ->
            Enc.size compressed = 8192 * 2 ^ Z.of_nat i
            /\ next_out = Enc.size (Enc.written_by (firstn i calls))
            /\ avail_out = Enc.size compressed - next_out
            /\ firstn (Z.to_nat next_out) compressed
               = Enc.written_by (firstn i calls)).
  { intros i compressed next_out avail_out Hi.
    assert (Hlt : (i < List.length calls)%nat).
    { rewrite <- Hlen. apply nth_error_Some. rewrite Hi. discriminate. }
    destruct (Hstates i _ Hi) as (Hsz & Hnext & Havail & _ & Hprefix).
    rewrite length_firstn, Nat.min_l in Hsz by lia.
    repeat split; assumption. }
  exists init, last, states.
  split; [exact Hc|]. split; [exact Hmore|]. split; [exact Hlast|].
  split; [exact Hsched|]. split.
  { intros Hs. split; [exact (Hok Hs)|].
    intros out Hout. rewrite (Hok Hs) in Hout. inversion Hout.
    reflexivity. }
  split; [exact Hbad|]. split; [exact Hiter|]. split; [exact Hlen|].
  split; [exact Hstate|]. split.
  { intros i compressed next_out avail_out c Hi Hci.
    destruct (Hstate i _ _ _ Hi) as (Hsz & Hnext & Havail & _).
    destruct (Hsched i c Hci) as [Hsum Hoff].
    assert (E : Enc.oc_next_out c = next_out)
      by (rewrite Hnext; exact Hoff).
    split; [exact E|]. rewrite E in Hsum. lia. }
  intros i compressed next_out avail_out compressed' next_out' avail_out'
    Hi Hi'.
  destruct (Hstate i _ _ _ Hi) as (Hsz & Hnext & _ & Hprefix).
  destruct (Hstate (S i) _ _ _ Hi') as (Hsz' & Hnext' & _ & Hprefix').
  split.
  { rewrite Hsz, Hsz', Nat2Z.inj_succ, Z.pow_succ_r by lia. lia. }
  assert (Hlt : (i < List.length calls)%nat).
  { rewrite <- Hlen. apply nth_error_Some. rewrite Hi. discriminate. }
  destruct (nth_error calls i) as [c|] eqn:Hci;
    [|apply nth_error_None in Hci; lia].
  exists c. split; [reflexivity|].
  rewrite (firstn_snoc_nth calls i c Hci) in Hnext', Hprefix'.
  rewrite written_by_app, written_by_one in Hnext', Hprefix'.
  rewrite size_app in Hnext'.
  split; [rewrite Hnext', Hnext; reflexivity|].
  rewrite Hprefix', Hprefix. reflexivity.
Qed.

End OutputLoop.

(** The loop ends: against a library that asks for more output
    [length ws] times and then answers another status, it returns after
    exactly these calls. *)
Lemma output_loop_ends (size_bits : Z) (ws : list (list byte))
    (status : Z) (w : list byte) (st : Enc.out_state) :
  status <> Jxl.JXL_ENC_NEED_MORE_OUTPUT ->
  let script := map (pair Jxl.JXL_ENC_NEED_MORE_OUTPUT) ws ++ [(status, w)] in
  exists lg r,
    exec Sim.scripted (4 * List.length script) script
      (ITree.iter (Enc.output_step size_bits) st) = Some ([], lg, r)
    /\ Enc.answers (Enc.output_calls lg) = script.
Proof.
  intros Hst. cbv zeta. revert st.
  induction ws as [|w0 ws IH]; intros [[compressed next_out] avail_out].
  - cbn [map app List.length Nat.mul Nat.add].
    apply Z.eqb_neq in Hst.
    destruct (status =? Jxl.JXL_ENC_SUCCESS) eqn:Ok;
      eexists _, _;
      (split;
       [apply (exec_iter_exit Sim.scripted 3);
        unfold Enc.output_step, Enc.leave;
        rewrite exec_call_fwd; cbn [Sim.scripted]; rewrite Hst, Ok;
        reflexivity
       |reflexivity]).
  - cbn [map app List.length].
    set (stored := Enc.store compressed next_out w0).
    set (grown := Enc.resize stored
                    (Enc.to_size size_bits (Enc.size stored * 2))).
    destruct (IH (grown, next_out + Enc.size w0,
                  Enc.to_size size_bits
                    (Enc.size grown - (next_out + Enc.size w0))))
      as (lg & r & Hrun & Hans).
    eexists _, r. split.
    + replace (4 * S (List.length
                        (map (pair Jxl.JXL_ENC_NEED_MORE_OUTPUT) ws
                         ++ [(status, w)])))%nat
        with (3 + S (4 * List.length
                           (map (pair Jxl.JXL_ENC_NEED_MORE_OUTPUT) ws
                            ++ [(status, w)])))%nat by lia.
      eapply exec_iter_continue; [|exact Hrun].
      unfold Enc.output_step. rewrite exec_call_fwd. reflexivity.
    + unfold Enc.answers, Enc.output_calls in *. cbn. rewrite Hans.
      reflexivity.
Qed.

(** C4, witness: 10000 bytes of output need one doubling: the loop runs
    on a vector of 8192 and then of 16384 bytes and returns them all.  A
    library that asks twice for more output although it stored one byte
    only is given 8192, 16384 and 32768 bytes, behind the bytes already
    stored. *)
Lemma collect_output_spec_witness :
  (exists lg states,
     exec Sim.encoder 20 Sim.payload (Enc.collect_output 32)
       = Some ([], lg, Some Sim.payload)
     /\ map (fun c => (Enc.oc_next_out c, Enc.oc_avail_out c))
          (Enc.output_calls lg) = [(0, 8192); (8192, 8192)]
     /\ Enc.written_by (Enc.output_calls lg) = Sim.payload
     /\ iterates Sim.encoder (Enc.output_step 32) Sim.payload
          (repeat x00 (Z.to_nat 8192), 0, 8192) [] lg states
          (Some Sim.payload)
     /\ map (fun st : Enc.out_state => Enc.size (fst (fst st))) states
        = [8192; 16384])
  /\ (exists lg states,
        exec Sim.scripted 20
          [(Jxl.JXL_ENC_NEED_MORE_OUTPUT, [x0a]);
           (Jxl.JXL_ENC_NEED_MORE_OUTPUT, [xff]);
           (Jxl.JXL_ENC_SUCCESS, [x2a])]
          (Enc.collect_output 32)
        = Some ([], lg, Some [x0a; xff; x2a])
        /\ map (fun c => (Enc.oc_next_out c, Enc.oc_avail_out c))
             (Enc.output_calls lg)
           = [(0, 8192); (1, 16383); (2, 32766)]
        /\ map (fun st : Enc.out_state =>
                  (Enc.size (fst (fst st)), snd (fst st), snd st)) states
           = [(8192, 0, 8192); (16384, 1, 16383); (32768, 2, 32766)]).
Proof.
  split.
  - assert (Hrun : exists lg,
              exec Sim.encoder 20 Sim.payload (Enc.collect_output 32)
              = Some ([], lg, Some Sim.payload)
              /\ map (fun c => (Enc.oc_next_out c, Enc.oc_avail_out c))
                   (Enc.output_calls lg) = [(0, 8192); (8192, 8192)]
              /\ List.length (Enc.output_calls lg) = 2%nat
              /\ Forall Enc.within_avail (Enc.output_calls lg)).
    { eexists. split; [vm_compute; reflexivity|].
      split; [vm_compute; reflexivity|].
      split; [vm_compute; reflexivity|].
      repeat constructor; vm_compute; discriminate. }
    destruct Hrun as (lg & Hrun & Hargs & Hn & Hav).
    assert (Hcap : 8192 * 2 ^ (Z.of_nat (List.length (Enc.output_calls lg))
                               - 1)
                   <= Enc.size_max 32)
      by (rewrite Hn; vm_compute; discriminate).
    destruct (collect_output_spec 32 Sim.encoder 20 Sim.payload [] lg
                (Some Sim.payload) Hrun Hav Hcap)
      as (init & last & states & Hc & _ & _ & _ & Hok & Hbad & Hiter & Hlen
          & Hstates & _).
    exists lg, states.
    split; [exact Hrun|]. split; [exact Hargs|]. split.
    { destruct (Z.eq_dec (Enc.oc_status last) Jxl.JXL_ENC_SUCCESS)
        as [Hlast|Hlast].
      - destruct (Hok Hlast) as [E _]. injection E as E. symmetry.
        exact E.
      - discriminate (Hbad Hlast). }
    split; [exact Hiter|].
    rewrite Hn in Hlen.
    destruct states as [|[[c0 n0] a0] [|[[c1 n1] a1] [|st2 states]]];
      try discriminate Hlen.
    destruct (Hstates 0%nat c0 n0 a0 eq_refl) as [H0 _].
    destruct (Hstates 1%nat c1 n1 a1 eq_refl) as [H1 _].
    cbn [map fst]. rewrite H0, H1. reflexivity.
  - assert (Hrun : exists lg,
              exec Sim.scripted 20
                [(Jxl.JXL_ENC_NEED_MORE_OUTPUT, [x0a]);
                 (Jxl.JXL_ENC_NEED_MORE_OUTPUT, [xff]);
                 (Jxl.JXL_ENC_SUCCESS, [x2a])]
                (Enc.collect_output 32)
              = Some ([], lg, Some [x0a; xff; x2a])
              /\ Enc.output_calls lg
                 = [{| Enc.oc_next_out := 0; Enc.oc_avail_out := 8192;
                       Enc.oc_status := Jxl.JXL_ENC_NEED_MORE_OUTPUT;
                       Enc.oc_written := [x0a] |};
                    {| Enc.oc_next_out := 1; Enc.oc_avail_out := 16383;
                       Enc.oc_status := Jxl.JXL_ENC_NEED_MORE_OUTPUT;
                       Enc.oc_written := [xff] |};
                    {| Enc.oc_next_out := 2; Enc.oc_avail_out := 32766;
                       Enc.oc_status := Jxl.JXL_ENC_SUCCESS;
                       Enc.oc_written := [x2a] |}]).
    { eexists. split; vm_compute; reflexivity. }
    destruct Hrun as (lg & Hrun & Hcalls).
    assert (Hav : Forall Enc.within_avail (Enc.output_calls lg))
      by (rewrite Hcalls; repeat constructor; vm_compute; discriminate).
    assert (Hcap : 8192 * 2 ^ (Z.of_nat (List.length (Enc.output_calls lg))
                               - 1)
                   <= Enc.size_max 32)
      by (rewrite Hcalls; vm_compute; discriminate).
    destruct (collect_output_spec 32 Sim.scripted 20 _ [] lg _ Hrun Hav
                Hcap)
      as (init & last & states & _ & _ & _ & _ & _ & _ & _ & Hlen
          & Hstates & _).
    exists lg, states. split; [exact Hrun|].
    split; [rewrite Hcalls; reflexivity|].
    rewrite Hcalls in Hlen, Hstates. cbn [List.length] in Hlen.
    destruct states
      as [|[[c0 n0] a0] [|[[c1 n1] a1] [|[[c2 n2] a2] [|st3 states]]]];
      try discriminate Hlen.
    destruct (Hstates 0%nat c0 n0 a0 eq_refl) as (S0 & N0 & A0 & _).
    destruct (Hstates 1%nat c1 n1 a1 eq_refl) as (S1 & N1 & A1 & _).
    destruct (Hstates 2%nat c2 n2 a2 eq_refl) as (S2 & N2 & A2 & _).
    cbn [map fst snd]. rewrite A0, A1, A2, S0, S1, S2, N0, N1, N2.
    reflexivity.
Defined.

(** ** Encoder: colour encoding *)

Section ColorEncodingFacts.

Import Jxl.

Variable JxlColorEncodingSetToLinearSRGB : bool -> JxlColorEncoding.
Variable JxlColorEncodingSetToSRGB : bool -> JxlColorEncoding.

Let Setup :=
  Enc.SetupColorEncoding JxlColorEncodingSetToLinearSRGB
    JxlColorEncodingSetToSRGB.

(** C6: [SetupColorEncoding] succeeds on the four colour spaces with an
    encoding that depends on [(color_space, input_type)] only - linear sRGB
    or sRGB as libjxl sets them, P3 with D65 and a linear or sRGB transfer,
    BT.2100 with PQ, BT.2100 with HLG - and fails on every other value. *)
Theorem SetupColorEncoding_spec (input_type : Z) (ce : JxlColorEncoding) :
  Setup 0 input_type ce =
    (true, if input_type =? 2 then JxlColorEncodingSetToLinearSRGB false
           else JxlColorEncodingSetToSRGB false)
  /\ (let r := Setup 1 input_type ce in
      fst r = true
      /\ color_space (snd r) = JXL_COLOR_SPACE_RGB
      /\ primaries (snd r) = JXL_PRIMARIES_P3
      /\ white_point (snd r) = JXL_WHITE_POINT_D65
      /\ transfer_function (snd r) =
           (if input_type =? 2 then JXL_TRANSFER_FUNCTION_LINEAR
            else JXL_TRANSFER_FUNCTION_SRGB)
      /\ rendering_intent (snd r) = JXL_RENDERING_INTENT_PERCEPTUAL)
  /\ (let r := Setup 2 input_type ce in
      fst r = true
      /\ color_space (snd r) = JXL_COLOR_SPACE_RGB
      /\ primaries (snd r) = JXL_PRIMARIES_2100
      /\ white_point (snd r) = JXL_WHITE_POINT_D65
      /\ transfer_function (snd r) = JXL_TRANSFER_FUNCTION_PQ
      /\ rendering_intent (snd r) = JXL_RENDERING_INTENT_PERCEPTUAL)
  /\ (let r := Setup 3 input_type ce in
      fst r = true
      /\ color_space (snd r) = JXL_COLOR_SPACE_RGB
      /\ primaries (snd r) = JXL_PRIMARIES_2100
      /\ white_point (snd r) = JXL_WHITE_POINT_D65
      /\ transfer_function (snd r) = JXL_TRANSFER_FUNCTION_HLG
      /\ rendering_intent (snd r) = JXL_RENDERING_INTENT_PERCEPTUAL)
  /\ (forall color_space : Z,
        color_space <> 0 -> color_space <> 1 -> color_space <> 2 ->
        color_space <> 3 ->
        fst (Setup color_space input_type ce) = false).
Proof.
  subst Setup. unfold Enc.SetupColorEncoding.
  split; [destruct (input_type =? 2); reflexivity|].
  split; [cbn; destruct (input_type =? 2); repeat split; reflexivity|].
  split; [cbn; repeat split; reflexivity|].
  split; [cbn; repeat split; reflexivity|].
  intros cs H0 H1 H2 H3.
  apply Z.eqb_neq in H0, H1, H2, H3. rewrite H0, H1, H2, H3. reflexivity.
Qed.

End ColorEncodingFacts.

(** C6, witness: 7 names no colour space. *)
Lemma SetupColorEncoding_spec_witness :
  fst (Enc.SetupColorEncoding (fun _ => Jxl.zero_color_encoding)
         (fun _ => Jxl.zero_color_encoding) 7 2 Jxl.zero_color_encoding)
  = false.
Proof.
  apply (SetupColorEncoding_spec (fun _ => Jxl.zero_color_encoding)
           (fun _ => Jxl.zero_color_encoding) 2 Jxl.zero_color_encoding);
    discriminate.
Defined.

(** ** Encoder: validation *)

Section ValidationFacts.

Import Jxl.

Variable size_bits : Z.
Hypothesis size_bits_ge : 32 <= size_bits.
Variable JxlColorEncodingSetToLinearSRGB : bool -> JxlColorEncoding.
Variable JxlColorEncodingSetToSRGB : bool -> JxlColorEncoding.

Let encode :=
  Enc.encode size_bits JxlColorEncodingSetToLinearSRGB
    JxlColorEncodingSetToSRGB.

Lemma IsSupportedCombination_spec (input_type bit_depth : Z) :
  Enc.IsSupportedCombination input_type bit_depth = true
  <-> Spec.supported_pair input_type bit_depth.
Proof.
  unfold Enc.IsSupportedCombination, Spec.supported_pair.
  destruct (Z.eqb_spec input_type 0); [rewrite Z.eqb_eq; lia|].
  destruct (Z.eqb_spec input_type 1);
    [rewrite !orb_true_iff, !Z.eqb_eq; lia|].
  destruct (Z.eqb_spec input_type 2); [rewrite Z.eqb_eq; lia|].
  split; [discriminate|lia].
Qed.

(** The tests at the head of [encode] pass exactly on valid input. *)
Lemma encode_validation (image : list byte) (width height : Z)
    (options : Enc.JXLOptions) :
  Int.is_int width -> Int.is_int height ->
  Int.is_int (Enc.numChannels options) ->
  (Spec.valid_input size_bits image width height options ->
   exists data_type,
     encode image width height options =
     (encoder <- ITree.trigger JxlEncoderCreate ;;
      if negb encoder then Ret None
      else Enc.encode_header size_bits JxlColorEncodingSetToLinearSRGB
             JxlColorEncodingSetToSRGB image width height options
             data_type))
  /\ (~ Spec.valid_input size_bits image width height options ->
      encode image width height options = Ret None).
Proof.
  intros Iw Ih Ic. subst encode. unfold Enc.encode, Spec.valid_input.
  unfold Int.is_int, Int.int_min, Int.int_max in *.
  destruct (Z.leb_spec width 0) as [W|W];
    [split; [intros V; lia | reflexivity]|].
  destruct (Z.leb_spec height 0) as [H|H];
    [split; [intros V; lia | reflexivity]|].
  cbn [orb].
  destruct (Z.eqb_spec (Enc.numChannels options) 3) as [C3|C3];
    destruct (Z.eqb_spec (Enc.numChannels options) 4) as [C4|C4];
    cbn [negb andb]; try (split; [intros V; lia | reflexivity]).
  all: destruct (Enc.IsSupportedCombination (Enc.inputType options)
                   (Enc.bitDepth options)) eqn:Sup; cbn [negb];
    [apply IsSupportedCombination_spec in Sup
    |split; [intros (_ & _ & _ & V & _);
             apply IsSupportedCombination_spec in V; congruence
            |reflexivity]].
  all: assert (Hbps : 1 <= Spec.bytes_per_sample (Enc.inputType options) <= 4)
    by (unfold Spec.bytes_per_sample;
        destruct (Enc.inputType options =? 1);
        destruct (Enc.inputType options =? 2); lia).
  all: pose proof (size_max_pos size_bits size_bits_ge) as HM.
  all: assert (Uw : Int.to_uint32 width = width)
    by (apply Z.mod_small; lia).
  all: assert (Uh : Int.to_uint32 height = height)
    by (apply Z.mod_small; lia).
  all: rewrite Uw, Uh.
  all: replace (if Enc.inputType options =? 1 then (JXL_TYPE_UINT16, 2)
                else if Enc.inputType options =? 2 then (JXL_TYPE_FLOAT, 4)
                else (JXL_TYPE_UINT8, 1))
         with (if Enc.inputType options =? 1 then JXL_TYPE_UINT16
               else if Enc.inputType options =? 2 then JXL_TYPE_FLOAT
               else JXL_TYPE_UINT8,
               Spec.bytes_per_sample (Enc.inputType options))
    by (unfold Spec.bytes_per_sample;
        destruct (Enc.inputType options =? 1);
        destruct (Enc.inputType options =? 2); reflexivity).
  all: rewrite (ComputeExpectedSize_positive size_bits size_bits_ge)
    by (unfold Int.max_unsigned, Int.int_max; lia).
  all: destruct (Z.leb_spec
         (width * height * Enc.numChannels options
          * Spec.bytes_per_sample (Enc.inputType options))
         (Enc.size_max size_bits)) as [Fit|Over]; cbn [negb];
    [|split; [intros V; lia | reflexivity]].
  all: destruct (Z.eqb_spec
         (width * height * Enc.numChannels options
          * Spec.bytes_per_sample (Enc.inputType options))
         (Enc.size image)) as [Len|Len]; cbn [negb];
    [|split; [intros V; lia | reflexivity]].
  all: split; [intros _; eexists; reflexivity|].
  all: intros NV; exfalso; apply NV; repeat split; try lia; assumption.
Qed.

(** C7: on every input that violates a validation rule [encode] is the
    program that returns null at once: run against any library it makes no
    call at all and leaves the library as it was. *)
Theorem encode_rejects_invalid_input (image : list byte) (width height : Z)
    (options : Enc.JXLOptions) :
  Int.is_int width -> Int.is_int height ->
  Int.is_int (Enc.numChannels options) ->
  ~ Spec.valid_input size_bits image width height options ->
  encode image width height options = Ret None
  /\ (forall St (h : Run.handler EncE St) fuel s,
        Run.exec h (S fuel) s (encode image width height options)
        = Some (s, [], None))
  /\ Enc.IsSupportedCombination 0 16 = false
  /\ Enc.IsSupportedCombination 1 12 = true.
Proof.
  intros Iw Ih Ic NV.
  destruct (encode_validation image width height options Iw Ih Ic)
    as [_ Hrej].
  rewrite (Hrej NV). split; [reflexivity|].
  split; [intros; reflexivity|]. split; reflexivity.
Qed.

End ValidationFacts.

(** C7, witness: an empty buffer for a 3 x 2 RGB image is rejected before
    any call. *)
Lemma encode_rejects_invalid_input_witness :
  Sim.encode_32 [] 3 2 Sim.options_rgb8 = Ret None
  /\ exec Sim.encoder 1 Sim.payload (Sim.encode_32 [] 3 2 Sim.options_rgb8)
     = Some (Sim.payload, [], None).
Proof.
  assert (I3 : Int.is_int 3)
    by (unfold Int.is_int, Int.int_min, Int.int_max; lia).
  assert (I2 : Int.is_int 2)
    by (unfold Int.is_int, Int.int_min, Int.int_max; lia).
  assert (NV : ~ Spec.valid_input 32 [] 3 2 Sim.options_rgb8).
  { unfold Spec.valid_input. intros (_ & _ & _ & _ & _ & Hlen).
    vm_compute in Hlen. discriminate Hlen. }
  destruct (encode_rejects_invalid_input 32 ltac:(lia)
              (Sim.srgb_encoding Jxl.JXL_TRANSFER_FUNCTION_LINEAR)
              (Sim.srgb_encoding Jxl.JXL_TRANSFER_FUNCTION_SRGB)
              [] 3 2 Sim.options_rgb8 I3 I2 I3 NV) as (Htree & Hrun & _).
  split; [exact Htree|]. apply Hrun.
Defined.

(** ** Decoder: bit depth and colour-space label *)

Ltac walk_step :=
  first
    [ apply holds_call; intros ?
    | apply holds_ret
    | match goal with
      | |- Run.holds (ITree.bind (Ret _) _) _ => apply holds_bind, holds_ret
      | |- Run.holds (if ?c then _ else _) _ => destruct c eqn:?
      | |- Run.holds (ITree.bind (if ?c then _ else _) _) _ => destruct c eqn:?
      end
    | progress cbv beta zeta
    | progress unfold Dec.EXPECT_EQ, Dec.EXPECT_TRUE, Dec.leave ].

Ltac walk := repeat walk_step.

Ltac bound_step :=
  first
    [ apply bounded_ret
    | apply bounded_call; intros ?
    | apply bounded_bind_ret
    | match goal with
      | |- bounded _ (if ?c then _ else _) => destruct c
      | |- bounded _ (ITree.bind (if ?c then _ else _) _) => destruct c
      end
    | progress cbv beta zeta
    | progress unfold Dec.EXPECT_EQ, Dec.EXPECT_TRUE, Dec.leave ].

(** Truncation of a sample scaled into [0, 255]. *)
Lemma Int_part_range (x : R) (n : Z) :
  (0 <= x <= IZR n)%R -> 0 <= Int_part x <= n.
Proof.
  intros [H0 Hn]. destruct (base_Int_part x) as [Hle Hgt].
  split.
  - assert (H : (IZR (-1) < IZR (Int_part x))%R) by (simpl; lra).
    apply lt_IZR in H. lia.
  - apply le_IZR. lra.
Qed.

Lemma clamp01_range (v : R) : (0 <= Spec.clamp01 v <= 1)%R.
Proof.
  unfold Spec.clamp01, Rmax, Rmin.
  repeat destruct (Rle_dec _ _); lra.
Qed.

Lemma cxx_clamp01 (v : R) : Flt.max 0 (Flt.min 1 v) = Spec.clamp01 v.
Proof.
  unfold Flt.max, Flt.min, Spec.clamp01, Rmax, Rmin.
  repeat destruct (Rlt_dec _ _); repeat destruct (Rle_dec _ _); lra.
Qed.

Lemma trunc_scaled (v : R) (n : Z) :
  0 <= n ->
  Flt.trunc (Flt.max 0 (Flt.min 1 v) * IZR n)
  = Int_part (Spec.clamp01 v * IZR n)
  /\ 0 <= Int_part (Spec.clamp01 v * IZR n) <= n.
Proof.
  intros Hn. rewrite cxx_clamp01. pose proof (clamp01_range v) as [H0 H1].
  assert (Hn' : (0 <= IZR n)%R) by (apply IZR_le; exact Hn).
  assert (Hr : (0 <= Spec.clamp01 v * IZR n <= IZR n)%R) by nra.
  split; [|apply Int_part_range; exact Hr].
  unfold Flt.trunc.
  destruct (Rle_dec 0 (Spec.clamp01 v * IZR n)); [reflexivity|].
  lra.
Qed.

(** The loop body of the fallback is the specification's formula: gamma
    encoding for a float source, then clamp and scale. *)
Lemma to_byte_pixel_spec (exponent_bits : Z) (v : R) :
  Dec.to_byte_pixel exponent_bits v =
  if 0 <? exponent_bits then Spec.scale_to_byte (Spec.gamma_encode v)
  else Spec.scale_to_byte v.
Proof.
  unfold Dec.to_byte_pixel, Spec.scale_to_byte, Spec.gamma_encode.
  assert (G : forall w, Int.wrap 8 (Flt.trunc (Flt.max 0 (Flt.min 1 w) * 255)%R)
                        = Int_part (Spec.clamp01 w * 255)).
  { intros w. destruct (trunc_scaled w 255 ltac:(lia)) as [-> Hr].
    unfold Int.wrap. apply Z.mod_small. lia. }
  destruct (0 <? exponent_bits).
  - destruct (Rle_dec v 0.0031308); rewrite G; [|reflexivity].
    replace (v * 12.92)%R with (12.92 * v)%R by lra. reflexivity.
  - apply G.
Qed.

Section DecoderFacts.

Variable size_bits : Z.

Import Jxl Dec.

(** What every successful run of [decodeHighBitDepth] returns, in terms of
    the answers in its log. *)
Lemma decodeHighBitDepth_returns (data : list byte) :
  holds (decodeHighBitDepth size_bits data) (fun lg r =>
    forall img, r = Some img ->
    exists info icc_size samples,
      reported_info lg = Some info /\
      reported_icc_size lg = Some icc_size /\
      stored_samples lg = Some samples /\
      bitDepth img =
        effective_bit_depth (bits_per_sample info)
          (exponent_bits_per_sample info) /\
      colorSpace img = color_space_str (exponent_bits_per_sample info) /\
      (bitDepth img = 8 ->
       icc_size <= 0 \/ parse_answer lg = Some false ->
       Dec.data img =
         Uint8ClampedArray
           (typed_memory_view (component_count size_bits info)
              (map (to_byte_pixel (exponent_bits_per_sample info))
                 (image_buffer size_bits info samples))))).
Proof.
  unfold decodeHighBitDepth. walk;
    intros img0 Eimg; try discriminate; inversion Eimg; subst; clear Eimg;
    do 3 eexists; cbn [bitDepth colorSpace Dec.data];
    (split; [reflexivity|]); (split; [reflexivity|]);
    (split; [reflexivity|]); (split; [reflexivity|]);
    (split; [reflexivity|]); intros H8 Hicc;
    try reflexivity; exfalso;
    repeat match goal with
           | H : (0 <? _) = true |- _ => apply Z.ltb_lt in H
           | H : (_ =? _) = false |- _ => apply Z.eqb_neq in H
           end;
    try (cbn in H8; congruence);
    (destruct Hicc as [Hicc|Hicc]; [lia | cbn in Hicc; discriminate]).
Qed.

(** C3: the [bitDepth] of every image [decodeHighBitDepth] returns is
    computed from the reported [bits_per_sample] and
    [exponent_bits_per_sample]: 32 when the exponent bits are positive,
    otherwise 8, 10, 12 for at most 8, 10, 12 bits and 16 above. *)
Theorem decodeHighBitDepth_bit_depth
    (data : list byte) {St} (h : Run.handler DecE St) f s s' lg img :
  Run.exec h f s (decodeHighBitDepth size_bits data)
    = Some (s', lg, Some img) ->
  exists info, reported_info lg = Some info /\
    let bits := bits_per_sample info in
    let exponent_bits := exponent_bits_per_sample info in
    (0 < exponent_bits -> bitDepth img = 32) /\
    (exponent_bits <= 0 -> bits <= 8 -> bitDepth img = 8) /\
    (exponent_bits <= 0 -> 8 < bits <= 10 -> bitDepth img = 10) /\
    (exponent_bits <= 0 -> 10 < bits <= 12 -> bitDepth img = 12) /\
    (exponent_bits <= 0 -> 12 < bits -> bitDepth img = 16).
Proof.
  intros H.
  destruct (decodeHighBitDepth_returns data _ h _ _ _ _ _ H img eq_refl)
    as (info & icc_size & samples & Hi & _ & _ & Hd & _).
  exists info. split; [exact Hi|]. cbv zeta. rewrite Hd.
  unfold effective_bit_depth.
  repeat match goal with
         | |- context [?a <? ?b] => destruct (Z.ltb_spec a b)
         | |- context [?a <=? ?b] => destruct (Z.leb_spec a b)
         end; repeat split; intros; lia.
Qed.

Lemma decodeLinearFloat_returns (data : list byte) :
  holds (decodeLinearFloat size_bits data) (fun lg r =>
    forall img, r = Some img ->
    exists info,
      reported_info lg = Some info /\
      lf_colorSpace img = color_space_str (exponent_bits_per_sample info)).
Proof.
  unfold decodeLinearFloat. walk;
    intros img0 Eimg; try discriminate; inversion Eimg; subst; clear Eimg;
    eexists; (split; [reflexivity|]); cbn [lf_colorSpace];
    unfold color_space_str; reflexivity.
Qed.

(** [decode] returns an image only after [skcms_Parse] accepted the
    profile. *)
Lemma decode_returns (data : list byte) :
  holds (decode size_bits data) (fun lg r =>
    forall img, r = Some img -> parse_answer lg = Some true).
Proof.
  unfold decode. walk;
    intros img0 Eimg; try discriminate;
    repeat match goal with
           | H : negb ?b = false |- _ =>
             is_var b; destruct b; [clear H|discriminate H]
           end;
    reflexivity.
Qed.

(** The three decode functions return against every library, within 20
    steps. *)
Lemma decode_functions_return (data : list byte) {St}
    (h : handler DecE St) (s : St) :
  (exists v, exec h 20 s (decode size_bits data) = Some v)
  /\ (exists v, exec h 20 s (decodeHighBitDepth size_bits data) = Some v)
  /\ (exists v, exec h 20 s (decodeLinearFloat size_bits data) = Some v).
Proof.
  repeat split; apply bounded_exec.
  - unfold decode. repeat bound_step.
  - unfold decodeHighBitDepth. repeat bound_step.
  - unfold decodeLinearFloat. repeat bound_step.
Qed.

Lemma view_of_mapped_view {A B} (f : A -> B) (n : Z) (l : list A) :
  typed_memory_view n (map f (typed_memory_view n l))
  = map f (typed_memory_view n l).
Proof.
  unfold typed_memory_view.
  rewrite firstn_map, firstn_firstn, Nat.min_id. reflexivity.
Qed.

(** C10: the [colorSpace] of every object returned by [decodeHighBitDepth]
    and by [decodeLinearFloat] is "linear" when the reported exponent bits
    are positive and "srgb" otherwise; no other label is returned. *)
Theorem decoded_color_space_label :
  (forall (data : list byte) St (h : Run.handler DecE St) f s s' lg img,
     Run.exec h f s (decodeHighBitDepth size_bits data)
       = Some (s', lg, Some img) ->
     exists info, reported_info lg = Some info /\
       (0 < exponent_bits_per_sample info ->
        colorSpace img = "linear"%string) /\
       (exponent_bits_per_sample info <= 0 ->
        colorSpace img = "srgb"%string)) /\
  (forall (data : list byte) St (h : Run.handler DecE St) f s s' lg img,
     Run.exec h f s (decodeLinearFloat size_bits data)
       = Some (s', lg, Some img) ->
     exists info, reported_info lg = Some info /\
       (0 < exponent_bits_per_sample info ->
        lf_colorSpace img = "linear"%string) /\
       (exponent_bits_per_sample info <= 0 ->
        lf_colorSpace img = "srgb"%string)).
Proof.
  split; intros data St h f s s' lg img H.
  - destruct (decodeHighBitDepth_returns data _ h _ _ _ _ _ H img eq_refl)
      as (info & icc_size & samples & Hi & _ & _ & _ & Hc & _).
    exists info. split; [exact Hi|]. rewrite Hc. unfold color_space_str.
    destruct (Z.ltb_spec 0 (exponent_bits_per_sample info));
      split; intros; (reflexivity || lia).
  - destruct (decodeLinearFloat_returns data _ h _ _ _ _ _ H img eq_refl)
      as (info & Hi & Hc).
    exists info. split; [exact Hi|]. rewrite Hc. unfold color_space_str.
    destruct (Z.ltb_spec 0 (exponent_bits_per_sample info));
      split; intros; (reflexivity || lia).
Qed.

(** C5 (amended): the loop body of the manual fallback applies the gamma
    curve when the exponent bits are positive and then clamps to [0,1] and
    scales to [0,255]; in [decodeHighBitDepth] the 8-bit path is taken only
    when the exponent bits are zero, so whenever no profile is present or
    it fails to parse every sample is clamped and scaled without
    re-encoding; [decode] has no fallback and returns null unless the
    profile parsed. *)
Theorem fallback_conversion :
  (forall (exponent_bits : Z) (v : R),
     to_byte_pixel exponent_bits v =
     if 0 <? exponent_bits then Spec.scale_to_byte (Spec.gamma_encode v)
     else Spec.scale_to_byte v) /\
  (forall (data : list byte) St (h : Run.handler DecE St) f s s' lg img,
     Run.exec h f s (decodeHighBitDepth size_bits data)
       = Some (s', lg, Some img) ->
     bitDepth img = 8 ->
     (exists n, reported_icc_size lg = Some n /\ n <= 0)
       \/ parse_answer lg = Some false ->
     exists info samples,
       reported_info lg = Some info /\
       stored_samples lg = Some samples /\
       exponent_bits_per_sample info <= 0 /\
       Dec.data img =
         Uint8ClampedArray
           (map Spec.scale_to_byte (image_buffer size_bits info samples))) /\
  (forall (data : list byte) St (h : Run.handler DecE St) f s s' lg r,
     Run.exec h f s (decode size_bits data) = Some (s', lg, r) ->
     parse_answer lg <> Some true -> r = None).
Proof.
  split; [exact to_byte_pixel_spec|]. split.
  - intros data St h f s s' lg img H H8 Hicc.
    destruct (decodeHighBitDepth_returns data _ h _ _ _ _ _ H img eq_refl)
      as (info & icc_size & samples & Hi & Hs & Hp & Hd & _ & Hdata).
    exists info, samples. split; [exact Hi|]. split; [exact Hp|].
    assert (He : exponent_bits_per_sample info <= 0).
    { rewrite H8 in Hd. unfold effective_bit_depth in Hd.
      destruct (Z.ltb_spec 0 (exponent_bits_per_sample info)); [discriminate|].
      assumption. }
    split; [exact He|].
    rewrite Hdata; [|exact H8|].
    + unfold image_buffer. rewrite view_of_mapped_view. f_equal.
      apply map_ext. intros v. rewrite to_byte_pixel_spec.
      destruct (Z.ltb_spec 0 (exponent_bits_per_sample info)); [lia|].
      reflexivity.
    + destruct Hicc as [(n & Hn & Hle)|Hf]; [left|right; exact Hf].
      rewrite Hs in Hn. inversion Hn. subst. exact Hle.
  - intros data St h f s s' lg r H Hp. destruct r as [img|]; [|reflexivity].
    exfalso. apply Hp.
    exact (decode_returns data _ h _ _ _ _ _ H img eq_refl).
Qed.

End DecoderFacts.

(** C3, witness: a 1 x 1 float image (16 bits, 8 exponent bits). *)
Lemma decodeHighBitDepth_bit_depth_witness :
  exists s' lg img,
    Run.exec (Sim.decoder (Sim.info_1x1 16 8) [] Sim.one_pixel false []) 40
      0%nat (Dec.decodeHighBitDepth 32 []) = Some (s', lg, Some img) /\
    Dec.bitDepth img = 32.
Proof.
  eexists _, _, _. split; [reflexivity|].
  destruct (decodeHighBitDepth_bit_depth 32 []
              (Sim.decoder (Sim.info_1x1 16 8) [] Sim.one_pixel false [])
              40 0%nat _ _ _ eq_refl) as (info & Hi & H32 & _).
  apply H32. inversion Hi. cbn. lia.
Defined.

(** C10, witness: a float image is labelled "linear" by both functions. *)
Lemma decoded_color_space_label_witness :
  (exists s' lg img,
     Run.exec (Sim.decoder (Sim.info_1x1 16 8) [] Sim.one_pixel false []) 40
       0%nat (Dec.decodeHighBitDepth 32 []) = Some (s', lg, Some img) /\
     Dec.colorSpace img = "linear"%string) /\
  (exists s' lg img,
     Run.exec (Sim.decoder (Sim.info_1x1 16 8) [] Sim.one_pixel false []) 40
       0%nat (Dec.decodeLinearFloat 32 []) = Some (s', lg, Some img) /\
     Dec.lf_colorSpace img = "linear"%string).
Proof.
  split; eexists _, _, _; (split; [reflexivity|]).
  - destruct (proj1 (decoded_color_space_label 32) [] _
                (Sim.decoder (Sim.info_1x1 16 8) [] Sim.one_pixel false [])
                40%nat 0%nat _ _ _ eq_refl) as (info & Hi & Hlin & _).
    apply Hlin. inversion Hi. cbn. lia.
  - destruct (proj2 (decoded_color_space_label 32) [] _
                (Sim.decoder (Sim.info_1x1 16 8) [] Sim.one_pixel false [])
                40%nat 0%nat _ _ _ eq_refl) as (info & Hi & Hlin & _).
    apply Hlin. inversion Hi. cbn. lia.
Defined.

(** C5, witness: an 8-bit 1 x 1 image without a profile is clamped and
    scaled sample by sample. *)
Lemma fallback_conversion_witness :
  exists s' lg img,
    Run.exec (Sim.decoder (Sim.info_1x1 8 0) [] Sim.one_pixel false []) 40
      0%nat (Dec.decodeHighBitDepth 32 []) = Some (s', lg, Some img) /\
    Dec.data img =
      Dec.Uint8ClampedArray (map Spec.scale_to_byte Sim.one_pixel).
Proof.
  eexists _, _, _. split; [reflexivity|].
  destruct (proj1 (proj2 (fallback_conversion 32)) [] _
              (Sim.decoder (Sim.info_1x1 8 0) [] Sim.one_pixel false [])
              40%nat 0%nat _ _ _ eq_refl eq_refl
              (or_introl (ex_intro _ 0 (conj eq_refl (Z.le_refl 0)))))
    as (info & samples & Hi & Hs & _ & Hd).
  inversion Hi. inversion Hs. subst. exact Hd.
Defined.

(** C5, counterexample: the profile of this 8-bit image does not parse, and
    [decode] returns null instead of converting the samples by hand. *)
Lemma decode_has_no_fallback :
  exists s' lg,
    Run.exec (Sim.decoder (Sim.info_1x1 8 0) [x00] Sim.one_pixel false []) 40
      0%nat (Dec.decode 32 []) = Some (s', lg, None) /\
    Dec.parse_answer lg = Some false.
Proof. eexists _, _. split; reflexivity. Qed.

(** * Further properties of the encoder and the decoders *)

(** ** Encoder: the shape of a run *)

Section OutputShape.

Import Jxl.

Variable size_bits : Z.

(** The log of the output loop, whatever the library answers. *)
Lemma collect_output_log :
  holds (Enc.collect_output size_bits) Enc.output_loop_log.
Proof.
  unfold Enc.collect_output. cbv zeta.
  apply (holds_iter _ _
           (fun lg _ =>
              Forall
                (Enc.output_entry (fun st => st = JXL_ENC_NEED_MORE_OUTPUT))
                lg)); [constructor|].
  intros lg [[compressed next_out] avail_out] Inv.
  unfold Enc.output_step. apply holds_call. intros [status written].
  cbv beta zeta iota.
  destruct (Z.eqb_spec status JXL_ENC_NEED_MORE_OUTPUT) as [More|NotMore].
  - apply holds_ret. apply Forall_app. split; [exact Inv|].
    constructor; [exact More|constructor].
  - assert (Post : forall r x,
              (status = JXL_ENC_SUCCESS <-> r <> None) ->
              Enc.output_loop_log
                (lg ++
                 [Answered _ (JxlEncoderProcessOutput next_out avail_out)
                    (status, written)]
                 ++ [Answered _ JxlEncoderDestroy x] ++ [])
                r).
    { intros r x Hr.
      exists lg, (Answered _ (JxlEncoderProcessOutput next_out avail_out)
                    (status, written)), x.
      split; [reflexivity|].
      split; [exact Inv|]. cbn. split; assumption. }
    destruct (Z.eqb_spec status JXL_ENC_SUCCESS) as [Ok|Bad]; cbn [negb];
      unfold Enc.leave.
    + apply holds_bind, holds_call. intros x. apply holds_ret. cbv beta.
      apply holds_ret. apply Post. split; [discriminate|intros _; exact Ok].
    + apply holds_bind, holds_call. intros x. apply holds_ret. cbv beta.
      apply holds_ret. apply Post.
      split; [contradiction|intros H; contradiction H; reflexivity].
Qed.

Lemma output_entry_quiet {A} (f : entry EncE -> option A) (P : Z -> Prop)
    (l : list (entry EncE)) :
  (forall next_out avail_out a,
     f (Answered _ (JxlEncoderProcessOutput next_out avail_out) a) = None) ->
  Forall (Enc.output_entry P) l -> pick f l = [].
Proof.
  intros Hf Hl. apply pick_quiet. eapply Forall_impl; [|exact Hl].
  intros [X e a] H. destruct e; cbn in H; try contradiction. apply Hf.
Qed.

(** What a reader that ignores [JxlEncoderProcessOutput] finds in the log
    of the output loop: the destruction of the encoder. *)
Lemma output_loop_pick {A} (f : entry EncE -> option A) lg r :
  (forall next_out avail_out a,
     f (Answered _ (JxlEncoderProcessOutput next_out avail_out) a) = None) ->
  Enc.output_loop_log lg r ->
  exists x, pick f lg = pick f [Answered _ JxlEncoderDestroy x].
Proof.
  intros Hf (outs & last & x & -> & Houts & Hlast). exists x.
  rewrite pick_app, (output_entry_quiet f _ outs Hf Houts). cbn [app].
  destruct last as [X e a]. destruct e; cbn in Hlast; try contradiction.
  cbn [pick]. rewrite Hf. reflexivity.
Qed.

Lemma output_entry_phase (P : Z -> Prop) (en : entry EncE) :
  Enc.output_entry P en -> Enc.phase_of en = Enc.Output.
Proof.
  destruct en as [X e a]. destruct e; cbn; intros H; try contradiction.
  reflexivity.
Qed.

Lemma output_loop_phases lg r :
  Enc.output_loop_log lg r ->
  exists m,
    Enc.phases lg = repeat Enc.Output (S m) ++ [Enc.Destroyed].
Proof.
  intros (outs & last & x & -> & Houts & Hlast).
  exists (List.length outs). unfold Enc.phases. rewrite map_app.
  cbn [map]. rewrite (output_entry_phase _ _ Hlast).
  assert (E : map Enc.phase_of outs = repeat Enc.Output (List.length outs)).
  { induction Houts as [|en l Hen _ IH]; [reflexivity|].
    cbn [map List.length repeat].
    rewrite (output_entry_phase _ _ Hen), IH. reflexivity. }
  rewrite E. cbn [Enc.phase_of].
  change [Enc.Output; Enc.Destroyed] with ([Enc.Output] ++ [Enc.Destroyed]).
  rewrite app_assoc, <- repeat_cons. reflexivity.
Qed.

End OutputShape.

Ltac enc_core :=
  first
    [ progress cbn [negb app]
    | match goal with
      | |- Run.holds (ITree.bind (ITree.trigger _) _) _ =>
        apply holds_call; intros ?
      | |- Run.holds (Ret _) _ => apply holds_ret
      | |- Run.holds (ITree.bind (Ret _) _) _ => apply holds_bind, holds_ret
      | |- Run.holds (if ?c then _ else _) _ => destruct c eqn:?
      | |- Run.holds (ITree.bind (if ?c then _ else _) _) _ => destruct c eqn:?
      | |- Run.holds (match ?p with pair _ _ => _ end) _ => destruct p eqn:?
      | |- Run.holds (ITree.bind (ITree.bind _ _) _) _ => apply holds_bind
      end
    | progress cbv beta zeta
    | progress unfold Enc.leave, Enc.SetFrameOption ].

(** Walk one stage of [encode] down to its leaves and to the next stage. *)
Ltac enc_walk := repeat enc_core.

Ltac enc_tests :=
  repeat match goal with
         | H : negb (_ =? _) = false |- _ =>
           apply negb_false_iff, Z.eqb_eq in H
         | H : negb ?b = false |- _ => apply negb_false_iff in H
         | H : (_ <? _) = false |- _ => apply Z.ltb_ge in H
         | H : (_ =? _) = true |- _ => apply Z.eqb_eq in H
         | H : (_ =? _) = false |- _ => apply Z.eqb_neq in H
         end.

Ltac enc_destroyed_last :=
  match goal with
  | |- Enc.destroyed_last ?l =>
    exists (removelast l); eexists; reflexivity
  end.

Section EncodeRuns.

Import Jxl.

Variable size_bits : Z.
Variable JxlColorEncodingSetToLinearSRGB : bool -> JxlColorEncoding.
Variable JxlColorEncodingSetToSRGB : bool -> JxlColorEncoding.

Let encode :=
  Enc.encode size_bits JxlColorEncodingSetToLinearSRGB
    JxlColorEncodingSetToSRGB.
Let encode_header :=
  Enc.encode_header size_bits JxlColorEncodingSetToLinearSRGB
    JxlColorEncodingSetToSRGB.

(** *** Bytes are returned only when every call succeeded *)

Let all_succeeded (lg : list (entry EncE)) (r : option (list byte)) : Prop :=
  r <> None -> Forall Enc.call_succeeded lg.

Ltac succeeded_leaf :=
  intros Hr; first
    [ contradiction Hr; reflexivity
    | repeat (apply Forall_cons;
              [cbn; enc_tests; first [assumption|exact I|auto]|]);
      first [ apply Forall_nil
            | match goal with
              | H : all_succeeded _ _ |- _ => apply H, Hr
              end ] ].

Lemma collect_output_succeeded :
  holds (Enc.collect_output size_bits) all_succeeded.
Proof.
  eapply holds_weaken; [apply collect_output_log|].
  intros lg r (outs & last & x & -> & Houts & Hlast) Hr.
  apply Forall_app. split.
  - eapply Forall_impl; [|exact Houts]. intros [X e a] H.
    destruct e; cbn in H; try contradiction. cbn. right. exact H.
  - constructor; [|constructor; [exact I|constructor]].
    destruct last as [X e a]. destruct e; cbn in Hlast; try contradiction.
    cbn. left. apply Hlast, Hr.
Qed.

Lemma encode_frame_succeeded image options data_type :
  holds (Enc.encode_frame size_bits image options data_type) all_succeeded.
Proof.
  unfold Enc.encode_frame. enc_walk.
  all: try (eapply holds_weaken; [apply collect_output_succeeded|];
            intros log r0 H).
  all: succeeded_leaf.
Qed.

Lemma encode_settings_succeeded image options data_type :
  holds (Enc.encode_settings size_bits image options data_type)
    all_succeeded.
Proof.
  unfold Enc.encode_settings. enc_walk.
  all: try (eapply holds_weaken; [apply encode_frame_succeeded|];
            intros log r0 H).
  all: succeeded_leaf.
Qed.

Lemma encode_header_succeeded image width height options data_type :
  holds (encode_header image width height options data_type) all_succeeded.
Proof.
  subst encode_header. unfold Enc.encode_header. enc_walk.
  all: try (eapply holds_weaken; [apply encode_settings_succeeded|];
            intros log r0 H).
  all: succeeded_leaf.
Qed.

Lemma encode_succeeded image width height options :
  holds (encode image width height options) all_succeeded.
Proof.
  subst encode. unfold Enc.encode. enc_walk.
  all: try (eapply holds_weaken; [apply encode_header_succeeded|];
            intros log r0 H).
  all: succeeded_leaf.
Qed.

(** *** The encoder handle *)

Let held (lg : list (entry EncE)) (r : option (list byte)) : Prop :=
  Enc.destroyed_last lg /\ Enc.lifecycle lg = [Released].

Lemma destroyed_last_cons (en : entry EncE) (l : list (entry EncE)) :
  Enc.destroyed_last l -> Enc.destroyed_last (en :: l).
Proof. intros (init & x & ->). exists (en :: init), x. reflexivity. Qed.

Ltac held_leaf :=
  first
    [ split; [enc_destroyed_last|reflexivity]
    | match goal with
      | H : held _ _ |- _ =>
        destruct H as [Hlast Hlife]; split;
        [repeat apply destroyed_last_cons; exact Hlast
        |unfold Enc.lifecycle in *; cbn [pick Enc.lifecycle_of];
         exact Hlife]
      end ].

Lemma collect_output_held : holds (Enc.collect_output size_bits) held.
Proof.
  eapply holds_weaken; [apply collect_output_log|].
  intros lg r H. split.
  - destruct H as (outs & last & x & -> & _).
    exists (outs ++ [last]), x. rewrite <- app_assoc. reflexivity.
  - destruct (output_loop_pick Enc.lifecycle_of lg r) as [x Hx];
      [reflexivity|exact H|]. exact Hx.
Qed.

Lemma encode_frame_held image options data_type :
  holds (Enc.encode_frame size_bits image options data_type) held.
Proof.
  unfold Enc.encode_frame. enc_walk.
  all: try (eapply holds_weaken; [apply collect_output_held|];
            intros log r0 H).
  all: held_leaf.
Qed.

Lemma encode_settings_held image options data_type :
  holds (Enc.encode_settings size_bits image options data_type) held.
Proof.
  unfold Enc.encode_settings. enc_walk.
  all: try (eapply holds_weaken; [apply encode_frame_held|];
            intros log r0 H).
  all: held_leaf.
Qed.

Lemma encode_header_held image width height options data_type :
  holds (encode_header image width height options data_type) held.
Proof.
  subst encode_header. unfold Enc.encode_header. enc_walk.
  all: try (eapply holds_weaken; [apply encode_settings_held|];
            intros log r0 H).
  all: held_leaf.
Qed.

Lemma encode_handle_released image width height options :
  holds (encode image width height options)
    (fun lg _ => Enc.handle_released lg).
Proof.
  subst encode. unfold Enc.encode. enc_walk.
  all: try (eapply holds_weaken; [apply encode_header_held|];
            intros log r0 [Hlast Hlife]).
  all: try (left; reflexivity).
  all: right; eexists _, _; split; [reflexivity|].
  all: repeat match goal with
              | H : negb ?b = _ |- _ =>
                is_var b; destruct b; try discriminate H; clear H
              end.
  - split; [reflexivity|]. split; [discriminate|reflexivity].
  - split.
    { unfold Enc.lifecycle in *. cbn [pick Enc.lifecycle_of].
      rewrite Hlife. reflexivity. }
    split; [intros _; apply destroyed_last_cons, Hlast|discriminate].
Qed.

(** *** The order of the calls *)

Let ordered (lg : list (entry EncE)) (r : option (list byte)) : Prop :=
  r <> None ->
  exists n m,
    Enc.phases lg
    = repeat Enc.Setup n ++ [Enc.Frame; Enc.Closed]
        ++ repeat Enc.Output (S m) ++ [Enc.Destroyed].

Lemma ordered_setup (en : entry EncE) lg r :
  Enc.phase_of en = Enc.Setup -> ordered lg r -> ordered (en :: lg) r.
Proof.
  intros He H Hr. destruct (H Hr) as (n & m & E). exists (S n), m.
  unfold Enc.phases in *. cbn [map repeat app]. rewrite He, E. reflexivity.
Qed.

Lemma ordered_frame (e1 e2 : entry EncE) lg r :
  Enc.phase_of e1 = Enc.Frame -> Enc.phase_of e2 = Enc.Closed ->
  Enc.output_loop_log lg r -> ordered (e1 :: e2 :: lg) r.
Proof.
  intros H1 H2 H _. destruct (output_loop_phases lg r H) as [m E].
  exists 0%nat, m. unfold Enc.phases in *. cbn [map repeat app].
  rewrite H1, H2, E. reflexivity.
Qed.

Ltac ordered_leaf :=
  first
    [ intros Hr; contradiction Hr; reflexivity
    | repeat (apply ordered_setup; [reflexivity|]);
      first [ assumption
            | apply ordered_frame; [reflexivity|reflexivity|assumption] ] ].

Lemma encode_frame_ordered image options data_type :
  holds (Enc.encode_frame size_bits image options data_type) ordered.
Proof.
  unfold Enc.encode_frame. enc_walk.
  all: try (eapply holds_weaken; [apply collect_output_log|];
            intros log r0 H).
  all: ordered_leaf.
Qed.

Lemma encode_settings_ordered image options data_type :
  holds (Enc.encode_settings size_bits image options data_type) ordered.
Proof.
  unfold Enc.encode_settings. enc_walk.
  all: try (eapply holds_weaken; [apply encode_frame_ordered|];
            intros log r0 H).
  all: ordered_leaf.
Qed.

Lemma encode_header_ordered image width height options data_type :
  holds (encode_header image width height options data_type) ordered.
Proof.
  subst encode_header. unfold Enc.encode_header. enc_walk.
  all: try (eapply holds_weaken; [apply encode_settings_ordered|];
            intros log r0 H).
  all: ordered_leaf.
Qed.

Lemma encode_ordered image width height options :
  holds (encode image width height options)
    (fun lg r => r <> None -> Enc.session_order (Enc.phases lg)).
Proof.
  subst encode. unfold Enc.encode. enc_walk.
  all: try (eapply holds_weaken; [apply encode_header_ordered|];
            intros log r0 H).
  all: intros Hr; try (contradiction Hr; reflexivity).
  destruct (H Hr) as (n & m & E). exists n, m.
  unfold Enc.phases in *. cbn [map Enc.phase_of]. rewrite E. reflexivity.
Qed.

(** *** The bytes returned *)

Let returns_written (lg : list (entry EncE)) (r : option (list byte))
  : Prop :=
  let calls := Enc.output_calls lg in
  Forall Enc.within_avail calls ->
  8192 * 2 ^ (Z.of_nat (List.length calls) - 1) <= Enc.size_max size_bits ->
  forall out, r = Some out ->
    out = Enc.written_by calls
    /\ exists init last,
         calls = init ++ [last]
         /\ Forall Enc.asks_for_more init
         /\ Enc.oc_status last = JXL_ENC_SUCCESS.

Ltac written_leaf :=
  first
    [ match goal with H : returns_written _ _ |- _ => exact H end
    | unfold returns_written; cbv zeta; intros _ _ out Hout;
      discriminate Hout ].

Lemma collect_output_written :
  holds (Enc.collect_output size_bits) returns_written.
Proof.
  eapply holds_weaken; [apply collect_output_holds|].
  intros lg r H. cbv zeta in H. unfold returns_written. cbv zeta.
  intros Hav Hcap out Hout.
  destruct (H Hav Hcap) as (init & last & Hc & Hmore & _ & _ & Hok & Hbad).
  destruct (Z.eq_dec (Enc.oc_status last) JXL_ENC_SUCCESS) as [Ok|Bad].
  - rewrite (Hok Ok) in Hout. inversion Hout. split; [reflexivity|].
    exists init, last. repeat split; assumption.
  - rewrite (Hbad Bad) in Hout. discriminate Hout.
Qed.

Lemma encode_frame_written image options data_type :
  holds (Enc.encode_frame size_bits image options data_type)
    returns_written.
Proof.
  unfold Enc.encode_frame. enc_walk.
  all: try (eapply holds_weaken; [apply collect_output_written|];
            intros log r0 H).
  all: written_leaf.
Qed.

Lemma encode_settings_written image options data_type :
  holds (Enc.encode_settings size_bits image options data_type)
    returns_written.
Proof.
  unfold Enc.encode_settings. enc_walk.
  all: try (eapply holds_weaken; [apply encode_frame_written|];
            intros log r0 H).
  all: written_leaf.
Qed.

Lemma encode_header_written image width height options data_type :
  holds (encode_header image width height options data_type)
    returns_written.
Proof.
  subst encode_header. unfold Enc.encode_header. enc_walk.
  all: try (eapply holds_weaken; [apply encode_settings_written|];
            intros log r0 H).
  all: written_leaf.
Qed.

Lemma encode_written image width height options :
  holds (encode image width height options) returns_written.
Proof.
  subst encode. unfold Enc.encode. enc_walk.
  all: try (eapply holds_weaken; [apply encode_header_written|];
            intros log r0 H).
  all: written_leaf.
Qed.

(** *** The codestream level *)

Let level_pattern (lg : list (entry EncE)) (r : option (list byte))
  : Prop :=
  match Enc.level_calls lg with
  | [] => r = None
  | [Enc.RequiredLevel l] => l <> 10 /\ (r <> None -> 0 <= l)
  | [Enc.RequiredLevel l; Enc.SetLevel level st] =>
      l = 10 /\ level = 10 /\ (r <> None -> st = JXL_ENC_SUCCESS)
  | _ => False
  end.

Lemma encode_settings_no_level image options data_type :
  emits (fun en => Enc.level_call_of en = None)
    (Enc.encode_settings size_bits image options data_type).
Proof. emit_walk; reflexivity. Qed.

Lemma encode_header_level image width height options data_type :
  holds (encode_header image width height options data_type) level_pattern.
Proof.
  subst encode_header. unfold Enc.encode_header. enc_walk.
  all: try (eapply holds_weaken; [apply encode_settings_no_level|];
            intros log r0 Hq; apply pick_quiet in Hq).
  all: unfold level_pattern, Enc.level_calls;
    cbn [pick Enc.level_call_of]; try rewrite Hq.
  all: enc_tests; repeat split;
    try reflexivity; try lia; try assumption;
    try (intros Hr; first [contradiction Hr; reflexivity | lia]).
Qed.

Lemma encode_level image width height options :
  holds (encode image width height options) level_pattern.
Proof.
  subst encode. unfold Enc.encode. enc_walk.
  all: try (eapply holds_weaken; [apply encode_header_level|];
            intros log r0 H; exact H).
  all: reflexivity.
Qed.

(** *** The alpha channel *)

Let alpha_declared (options : Enc.JXLOptions) (lg : list (entry EncE))
    (r : option (list byte)) : Prop :=
  let has_alpha := Enc.numChannels options =? 4 in
  exists info,
    Enc.basic_infos_set lg = [info]
    /\ num_extra_channels info = (if has_alpha then 1 else 0)
    /\ alpha_bits info = (if has_alpha then bits_per_sample info else 0)
    /\ alpha_exponent_bits info
       = (if has_alpha then exponent_bits_per_sample info else 0)
    /\ alpha_premultiplied info
       = has_alpha && Enc.premultipliedAlpha options
    /\ (Enc.extra_channels_set lg = []
        \/ (has_alpha = true
            /\ Enc.extra_channels_set lg
               = [(0, {| ec_type := JXL_CHANNEL_ALPHA;
                         ec_bits_per_sample := alpha_bits info;
                         ec_exponent_bits_per_sample :=
                           alpha_exponent_bits info;
                         ec_alpha_premultiplied :=
                           alpha_premultiplied info |})]))
    /\ (r <> None -> has_alpha = true -> Enc.extra_channels_set lg <> []).

Lemma encode_settings_no_info image options data_type :
  emits (fun en => Enc.basic_info_of en = None
                   /\ Enc.extra_channel_of en = None)
    (Enc.encode_settings size_bits image options data_type).
Proof. emit_walk; split; reflexivity. Qed.

Lemma encode_header_alpha image width height options data_type :
  holds (encode_header image width height options data_type)
    (alpha_declared options).
Proof.
  subst encode_header. unfold Enc.encode_header. enc_walk.
  all: try (eapply holds_weaken; [apply encode_settings_no_info|];
            intros log r0 Hq;
            assert (Hqi : pick Enc.basic_info_of log = [])
              by (apply pick_quiet; eapply Forall_impl; [|exact Hq];
                  intros en H; apply H);
            assert (Hqe : pick Enc.extra_channel_of log = [])
              by (apply pick_quiet; eapply Forall_impl; [|exact Hq];
                  intros en H; apply H);
            clear Hq).
  all: unfold alpha_declared, Enc.basic_infos_set, Enc.extra_channels_set;
    cbv zeta; cbn [pick Enc.basic_info_of Enc.extra_channel_of];
    try rewrite Hqi; try rewrite Hqe.
  all: eexists; split; [reflexivity|].
  all: cbn [num_extra_channels alpha_bits alpha_exponent_bits
            alpha_premultiplied bits_per_sample exponent_bits_per_sample].
  all: repeat match goal with
              | H : (Enc.numChannels _ =? 4) = _ |- _ => rewrite H
              end.
  all: repeat (split; [reflexivity|]).
  all: split;
    [first [left; reflexivity | right; split; reflexivity]|].
  all: intros Hr Ha;
    first [contradiction Hr; reflexivity | discriminate Ha | discriminate].
Qed.

Lemma encode_alpha image width height options :
  holds (encode image width height options) (fun lg r =>
    (Enc.basic_infos_set lg = [] /\ Enc.extra_channels_set lg = []
     /\ r = None)
    \/ alpha_declared options lg r).
Proof.
  subst encode. unfold Enc.encode. enc_walk.
  all: try (eapply holds_weaken; [apply encode_header_alpha|];
            intros log r0 H; right; exact H).
  all: left; repeat split; reflexivity.
Qed.

(** *** The frame options *)

Let option_ok (options : Enc.JXLOptions) (en : entry EncE) : Prop :=
  forall id v, Enc.option_set_of en = Some (id, v) ->
    Enc.option_value_allowed options id v.

Ltac emit_core :=
  first
    [ match goal with
      | |- Run.emits _ (Ret _) => apply emits_ret
      | |- Run.emits _ (ITree.bind (ITree.trigger _) _) =>
        apply emits_call; [intros ? | intros ?]
      | |- Run.emits _ (ITree.trigger _) => apply emits_trigger; intros ?
      | |- Run.emits _ (if ?c then _ else _) => destruct c eqn:?
      | |- Run.emits _ (match ?p with pair _ _ => _ end) => destruct p eqn:?
      | |- Run.emits _ (ITree.bind _ _) => apply emits_bind; [|intros ?]
      end
    | progress cbv beta zeta
    | progress unfold Enc.leave, Enc.SetFrameOption ].

Lemma round_nearest (x : R) :
  (0 < x)%R -> (IZR (Flt.round x) - / 2 <= x < IZR (Flt.round x) + / 2)%R.
Proof.
  intros H. unfold Flt.round. destruct (Rle_dec 0 x) as [_|N]; [|lra].
  destruct (base_Int_part (x + / 2)). lra.
Qed.

Lemma minZ_min (a b : Z) : Enc.minZ a b = Z.min a b.
Proof. unfold Enc.minZ. destruct (Z.ltb_spec b a); lia. Qed.

Lemma clampZ_min_max (v lo hi : Z) :
  lo <= hi -> Enc.clampZ v lo hi = Z.max lo (Z.min v hi).
Proof.
  intros H. unfold Enc.clampZ.
  destruct (Z.ltb_spec v lo); [lia|]. destruct (Z.ltb_spec hi v); lia.
Qed.

Ltac option_leaf :=
  match goal with
  | |- option_ok _ _ =>
    intros id v Hid; cbn in Hid; try discriminate Hid;
    inversion Hid; subst; clear Hid; cbn [Enc.option_value_allowed];
    rewrite ?minZ_min, ?clampZ_min_max by lia;
    repeat match goal with
           | H : _ && _ = true |- _ => apply andb_prop in H; destruct H
           | H : (_ <=? _) = true |- _ => apply Z.leb_le in H
           | H : negb _ = true |- _ => apply negb_true_iff in H
           end;
    repeat split; auto; try lia; try (apply round_nearest; assumption)
  end.

Lemma collect_output_options options :
  emits (option_ok options) (Enc.collect_output size_bits).
Proof. emit_walk; intros id v Hid; discriminate Hid. Qed.

Lemma encode_frame_options image options data_type :
  emits (option_ok options)
    (Enc.encode_frame size_bits image options data_type).
Proof.
  unfold Enc.encode_frame. repeat emit_core.
  all: try apply collect_output_options.
  all: option_leaf.
Qed.

Lemma encode_settings_options image options data_type :
  emits (option_ok options)
    (Enc.encode_settings size_bits image options data_type).
Proof.
  unfold Enc.encode_settings. repeat emit_core.
  all: try apply encode_frame_options.
  all: option_leaf.
Qed.

Lemma encode_header_options image width height options data_type :
  emits (option_ok options)
    (encode_header image width height options data_type).
Proof.
  subst encode_header. unfold Enc.encode_header. repeat emit_core.
  all: try apply encode_settings_options.
  all: option_leaf.
Qed.

Lemma encode_options image width height options :
  emits (option_ok options) (encode image width height options).
Proof.
  subst encode. unfold Enc.encode. repeat emit_core.
  all: try apply encode_header_options.
  all: option_leaf.
Qed.

(** *** The colour encoding *)

Let color_sent (options : Enc.JXLOptions) (lg : list (entry EncE))
    (r : option (list byte)) : Prop :=
  let result :=
    Enc.SetupColorEncoding JxlColorEncodingSetToLinearSRGB
      JxlColorEncodingSetToSRGB (Enc.colorSpace options)
      (Enc.inputType options) zero_color_encoding in
  (Enc.color_encodings_set lg = []
   \/ (fst result = true /\ Enc.color_encodings_set lg = [snd result]))
  /\ (fst result = false ->
      r = None /\ Enc.color_encodings_set lg = []
      /\ Enc.options_set lg = [] /\ Enc.frames_added lg = [])
  /\ (r <> None -> Enc.color_encodings_set lg = [snd result]).

Lemma encode_settings_no_color image options data_type :
  emits (fun en => Enc.color_encoding_of en = None)
    (Enc.encode_settings size_bits image options data_type).
Proof. emit_walk; reflexivity. Qed.

Lemma encode_header_color image width height options data_type :
  holds (encode_header image width height options data_type)
    (color_sent options).
Proof.
  subst encode_header. unfold Enc.encode_header, color_sent. enc_walk.
  all: try (eapply holds_weaken; [apply encode_settings_no_color|];
            intros log r0 Hq; apply pick_quiet in Hq).
  all: unfold Enc.color_encodings_set, Enc.options_set, Enc.frames_added;
    cbv zeta;
    cbn [pick Enc.color_encoding_of Enc.option_set_of Enc.frame_of fst snd];
    try rewrite Hq.
  all: repeat match goal with
              | H : negb ?b = _ |- _ =>
                is_var b; destruct b; try discriminate H; clear H
              end.
  all: split;
    [first [left; reflexivity | right; split; reflexivity]|].
  all: split;
    [intros Hf; first [discriminate Hf | repeat split; reflexivity]|].
  all: intros Hr; first [contradiction Hr; reflexivity | reflexivity].
Qed.

Lemma encode_color image width height options :
  holds (encode image width height options) (fun lg r =>
    (Enc.color_encodings_set lg = [] /\ Enc.options_set lg = []
     /\ Enc.frames_added lg = [] /\ r = None)
    \/ color_sent options lg r).
Proof.
  subst encode. unfold Enc.encode. enc_walk.
  all: try (eapply holds_weaken; [apply encode_header_color|];
            intros log r0 H; right; exact H).
  all: left; repeat split; reflexivity.
Qed.

Lemma SetupColorEncoding_ok (color_space input_type : Z)
    (ce : JxlColorEncoding) :
  fst (Enc.SetupColorEncoding JxlColorEncodingSetToLinearSRGB
         JxlColorEncodingSetToSRGB color_space input_type ce) = true
  <-> 0 <= color_space <= 3.
Proof.
  unfold Enc.SetupColorEncoding.
  destruct (Z.eqb_spec color_space 0);
    [destruct (input_type =? 2); cbn; split; intros; (reflexivity || lia)|].
  destruct (Z.eqb_spec color_space 1);
    [cbn; split; intros; (reflexivity || lia)|].
  destruct (Z.eqb_spec color_space 2);
    [cbn; split; intros; (reflexivity || lia)|].
  destruct (Z.eqb_spec color_space 3);
    [cbn; split; intros; (reflexivity || lia)|].
  cbn. split; intros; (discriminate || lia).
Qed.

(** *** Lossless flag or distance *)

Let mode_set (options : Enc.JXLOptions) (lg : list (entry EncE))
    (r : option (list byte)) : Prop :=
  (Enc.lossless options = true ->
   Enc.distances_set lg = []
   /\ (Enc.lossless_flags lg = [] \/ Enc.lossless_flags lg = [true])
   /\ (r <> None -> Enc.lossless_flags lg = [true]))
  /\ (Enc.lossless options = false ->
      Enc.lossless_flags lg = []
      /\ (Enc.distances_set lg = []
          \/ Enc.distances_set lg
             = [Enc.quality_to_distance (Enc.quality options)])
      /\ (r <> None ->
          Enc.distances_set lg
          = [Enc.quality_to_distance (Enc.quality options)])).

Lemma collect_output_no_mode :
  holds (Enc.collect_output size_bits) (fun lg _ =>
    Enc.distances_set lg = [] /\ Enc.lossless_flags lg = []).
Proof.
  eapply holds_weaken; [apply collect_output_log|].
  intros lg r H. split.
  - destruct (output_loop_pick Enc.distance_of lg r) as [x Hx];
      [reflexivity|exact H|]. exact Hx.
  - destruct (output_loop_pick Enc.lossless_of lg r) as [x Hx];
      [reflexivity|exact H|]. exact Hx.
Qed.

Ltac mode_leaf :=
  first
    [ match goal with H : mode_set _ _ _ |- _ => exact H end
    | unfold mode_set, Enc.distances_set, Enc.lossless_flags,
        Enc.quality_to_distance in *;
      cbn [pick Enc.distance_of Enc.lossless_of];
      try match goal with
          | H : pick Enc.distance_of ?l = [] /\ pick Enc.lossless_of ?l = []
            |- _ => destruct H as [Hd Hl]; rewrite Hd, Hl
          end;
      split; intros Hmode; try congruence;
      (split; [reflexivity|]);
      (split; [first [left; reflexivity | right; reflexivity]|]);
      intros Hr; first [contradiction Hr; reflexivity | reflexivity] ].

Lemma encode_frame_mode image options data_type :
  holds (Enc.encode_frame size_bits image options data_type)
    (mode_set options).
Proof.
  unfold Enc.encode_frame. enc_walk.
  all: try (eapply holds_weaken; [apply collect_output_no_mode|];
            intros log r0 H).
  all: mode_leaf.
Qed.

Lemma encode_settings_mode image options data_type :
  holds (Enc.encode_settings size_bits image options data_type)
    (mode_set options).
Proof.
  unfold Enc.encode_settings. enc_walk.
  all: try (eapply holds_weaken; [apply encode_frame_mode|];
            intros log r0 H).
  all: mode_leaf.
Qed.

Lemma encode_header_mode image width height options data_type :
  holds (encode_header image width height options data_type)
    (mode_set options).
Proof.
  subst encode_header. unfold Enc.encode_header. enc_walk.
  all: try (eapply holds_weaken; [apply encode_settings_mode|];
            intros log r0 H).
  all: mode_leaf.
Qed.

Lemma encode_mode image width height options :
  holds (encode image width height options) (mode_set options).
Proof.
  subst encode. unfold Enc.encode. enc_walk.
  all: try (eapply holds_weaken; [apply encode_header_mode|];
            intros log r0 H).
  all: mode_leaf.
Qed.

(** *** Termination *)

Section Returns.

Context {St : Type}.
Variable h : handler EncE St.

Lemma returns_ret {Res} (r : Res) : returns h (Ret r : itree EncE Res).
Proof. intros s. exists 1%nat. eexists. reflexivity. Qed.

Lemma returns_call {X Res} (e : EncE X) (k : X -> itree EncE Res) :
  (forall x, returns h (k x)) ->
  returns h (ITree.bind (ITree.trigger e) k).
Proof.
  intros Hk s. destruct (h X e s) as [s1 x] eqn:Hh.
  destruct (Hk x s1) as (f & [[s2 lg] r] & Hf).
  exists (S f). rewrite exec_call_fwd, Hh, Hf. eexists. reflexivity.
Qed.

Lemma returns_bind {A Res} (t : itree EncE A) (k : A -> itree EncE Res) :
  returns h t -> (forall x, returns h (k x)) ->
  returns h (ITree.bind t k).
Proof.
  intros Ht Hk s. destruct (Ht s) as (f & [[s1 l1] x] & Hf).
  destruct (Hk x s1) as (g & [[s2 l2] r] & Hg).
  exists (f + g)%nat. eexists.
  exact (exec_bind_fwd h f g s t k _ _ _ _ _ _ Hf Hg).
Qed.

(** The library cannot ask for more output for ever: each such answer
    lowers a measure of its state. *)
Variable budget : St -> nat.
Hypothesis need_more_costs :
  forall next_out avail_out s s1 written,
    h _ (JxlEncoderProcessOutput next_out avail_out) s
    = (s1, (JXL_ENC_NEED_MORE_OUTPUT, written)) ->
    (budget s1 < budget s)%nat.

Lemma output_loop_returns (st : Enc.out_state) :
  returns h (ITree.iter (Enc.output_step size_bits) st).
Proof.
  intros s. remember (budget s) as n eqn:En. revert st s En.
  induction n as [n IH] using lt_wf_ind. intros st s En.
  destruct st as [[compressed next_out] avail_out].
  destruct (h _ (JxlEncoderProcessOutput next_out avail_out) s)
    as [s1 [status written]] eqn:Hh.
  destruct (Z.eqb_spec status JXL_ENC_NEED_MORE_OUTPUT) as [More|NotMore].
  - subst status. pose proof (need_more_costs _ _ _ _ _ Hh) as Hlt.
    set (stored := Enc.store compressed next_out written).
    set (grown := Enc.resize stored
                    (Enc.to_size size_bits (Enc.size stored * 2))).
    destruct (IH (budget s1) ltac:(lia)
                (grown, next_out + Enc.size written,
                 Enc.to_size size_bits
                   (Enc.size grown - (next_out + Enc.size written)))
                s1 eq_refl) as (f & v & Hf).
    destruct v as [[s2 l2] r].
    exists (2 + S f)%nat. eexists.
    eapply exec_iter_continue; [|exact Hf].
    unfold Enc.output_step. rewrite exec_call_fwd, Hh. reflexivity.
  - apply Z.eqb_neq in NotMore.
    destruct (h _ JxlEncoderDestroy s1) as [s2 []] eqn:Hd.
    exists (3 + 1)%nat.
    destruct (status =? JXL_ENC_SUCCESS) eqn:Ok; eexists;
      (apply (exec_iter_exit h 3);
       unfold Enc.output_step, Enc.leave;
       rewrite exec_call_fwd, Hh; cbv beta iota zeta;
       rewrite NotMore, Ok; cbn [negb];
       cbn; rewrite Hd; reflexivity).
Qed.

Ltac returns_core :=
  first
    [ progress cbn [negb]
    | match goal with
      | |- returns _ (ITree.bind (ITree.trigger _) _) =>
        apply returns_call; intros ?
      | |- returns _ (Ret _) => apply returns_ret
      | |- returns _ (ITree.bind (Ret _) _) =>
        apply returns_bind; [apply returns_ret|intros ?]
      | |- returns _ (if ?c then _ else _) => destruct c
      | |- returns _ (ITree.bind (if ?c then _ else _) _) => destruct c
      | |- returns _ (match ?p with pair _ _ => _ end) => destruct p
      | |- returns _ (ITree.bind (ITree.bind _ _) _) =>
        apply returns_bind; [|intros ?]
      end
    | progress cbv beta zeta
    | progress unfold Enc.leave, Enc.SetFrameOption ].

Lemma encode_frame_returns image options data_type :
  returns h (Enc.encode_frame size_bits image options data_type).
Proof.
  unfold Enc.encode_frame. repeat returns_core.
  all: apply output_loop_returns.
Qed.

Lemma encode_settings_returns image options data_type :
  returns h (Enc.encode_settings size_bits image options data_type).
Proof.
  unfold Enc.encode_settings. repeat returns_core.
  all: apply encode_frame_returns.
Qed.

Lemma encode_header_returns image width height options data_type :
  returns h (encode_header image width height options data_type).
Proof.
  subst encode_header. unfold Enc.encode_header. repeat returns_core.
  all: apply encode_settings_returns.
Qed.

Lemma encode_returns image width height options :
  returns h (encode image width height options).
Proof.
  subst encode. unfold Enc.encode. repeat returns_core.
  all: apply encode_header_returns.
Qed.

End Returns.

(** *** Properties of every run of [encode] *)

(** X1: [encode] returns bytes only when every call into the library
    succeeded: no null handle, no error status (only
    [JxlEncoderProcessOutput] may also ask for more output) and no
    negative codestream level. *)
Theorem encode_returns_only_after_success (image : list byte)
    (width height : Z) (options : Enc.JXLOptions) {St}
    (h : Run.handler EncE St) fuel s s' lg out :
  Run.exec h fuel s (encode image width height options)
    = Some (s', lg, Some out) ->
  Forall Enc.call_succeeded lg.
Proof.
  intros H.
  apply (encode_succeeded image width height options _ h _ _ _ _ _ H).
  discriminate.
Qed.

(** X2: on every path through [encode], failures included, an encoder
    that was created is destroyed exactly once, by the last call of the
    run; nothing is destroyed when none was created. *)
Theorem encode_releases_encoder (image : list byte)
    (width height : Z) (options : Enc.JXLOptions) {St}
    (h : Run.handler EncE St) fuel s s' lg r :
  Run.exec h fuel s (encode image width height options)
    = Some (s', lg, r) ->
  Enc.handle_released lg.
Proof.
  intros H.
  exact (encode_handle_released image width height options _ h _ _ _ _ _ H).
Qed.

(** X3: a run of [encode] that returns bytes made its calls in the order
    of an encoding session: the encoder is created, then come the
    settings, then exactly one frame is added and the input closed, then
    output is requested one or more times, and last the encoder is
    destroyed. *)
Theorem encode_calls_in_order (image : list byte)
    (width height : Z) (options : Enc.JXLOptions) {St}
    (h : Run.handler EncE St) fuel s s' lg out :
  Run.exec h fuel s (encode image width height options)
    = Some (s', lg, Some out) ->
  Enc.session_order (Enc.phases lg).
Proof.
  intros H.
  apply (encode_ordered image width height options _ h _ _ _ _ _ H).
  discriminate.
Qed.

(** X4: the bytes [encode] returns are exactly those the library stored
    through [JxlEncoderProcessOutput], in order: every call but the last
    asked for more output and the last reported success (provided the
    library stores at most [avail_out] bytes a call and the buffer size
    fits [size_t]). *)
Theorem encode_returns_written_bytes (image : list byte)
    (width height : Z) (options : Enc.JXLOptions) {St}
    (h : Run.handler EncE St) fuel s s' lg out :
  Run.exec h fuel s (encode image width height options)
    = Some (s', lg, Some out) ->
  let calls := Enc.output_calls lg in
  Forall Enc.within_avail calls ->
  8192 * 2 ^ (Z.of_nat (List.length calls) - 1) <= Enc.size_max size_bits ->
  out = Enc.written_by calls
  /\ exists init last,
       calls = init ++ [last]
       /\ Forall Enc.asks_for_more init
       /\ Enc.oc_status last = JXL_ENC_SUCCESS.
Proof.
  intros H calls Hav Hcap.
  exact (encode_written image width height options _ h _ _ _ _ _ H
           Hav Hcap out eq_refl).
Qed.

(** X5: [encode] asks for the required codestream level at most once; it
    sets a level only when the library requires level 10, and then it
    sets 10; a run that returns bytes was given a level that is not
    negative and, where it set the level, a success status. *)
Theorem encode_codestream_level (image : list byte)
    (width height : Z) (options : Enc.JXLOptions) {St}
    (h : Run.handler EncE St) fuel s s' lg r :
  Run.exec h fuel s (encode image width height options)
    = Some (s', lg, r) ->
  match Enc.level_calls lg with
  | [] => r = None
  | [Enc.RequiredLevel l] => l <> 10 /\ (r <> None -> 0 <= l)
  | [Enc.RequiredLevel l; Enc.SetLevel level st] =>
      l = 10 /\ level = 10 /\ (r <> None -> st = JXL_ENC_SUCCESS)
  | _ => False
  end.
Proof.
  intros H.
  exact (encode_level image width height options _ h _ _ _ _ _ H).
Qed.

(** X6: the alpha channel is declared consistently.  The basic info
    announces one extra channel with the bit depth and exponent bits of
    the colour channels when [numChannels] is 4, and none, with
    [alpha_premultiplied] off whatever the option says, otherwise.  An
    extra channel is declared only when [numChannels] is 4: at index 0,
    of type alpha, with the alpha fields of the basic info; a run that
    returns bytes declared it exactly once then, and never otherwise. *)
Theorem encode_declares_alpha (image : list byte)
    (width height : Z) (options : Enc.JXLOptions) {St}
    (h : Run.handler EncE St) fuel s s' lg r :
  Run.exec h fuel s (encode image width height options)
    = Some (s', lg, r) ->
  let has_alpha := Enc.numChannels options =? 4 in
  (forall info, In info (Enc.basic_infos_set lg) ->
     num_extra_channels info = (if has_alpha then 1 else 0)
     /\ alpha_bits info = (if has_alpha then bits_per_sample info else 0)
     /\ alpha_exponent_bits info
        = (if has_alpha then exponent_bits_per_sample info else 0)
     /\ alpha_premultiplied info
        = has_alpha && Enc.premultipliedAlpha options)
  /\ (forall index ec, In (index, ec) (Enc.extra_channels_set lg) ->
        Enc.numChannels options = 4 /\ index = 0
        /\ ec_type ec = JXL_CHANNEL_ALPHA
        /\ forall info, In info (Enc.basic_infos_set lg) ->
             ec_bits_per_sample ec = alpha_bits info
             /\ ec_exponent_bits_per_sample ec = alpha_exponent_bits info
             /\ ec_alpha_premultiplied ec = alpha_premultiplied info)
  /\ (r <> None ->
      Z.of_nat (List.length (Enc.extra_channels_set lg))
      = if has_alpha then 1 else 0).
Proof.
  intros H has_alpha.
  pose proof (encode_alpha image width height options _ h _ _ _ _ _ H)
    as [(Hi & He & Hr)|A].
  { rewrite Hi, He. repeat split; try contradiction;
      intros Hn; contradiction Hn. }
  unfold alpha_declared in A. cbv zeta in A. fold has_alpha in A.
  destruct A as (info & Hi & F1 & F2 & F3 & F4 & Hec & Hsome).
  rewrite Hi. split.
  { intros info' [<-|[]]. repeat split; assumption. }
  split.
  - intros index ec Hin.
    destruct Hec as [Hec|[Ha Hec]]; rewrite Hec in Hin; [contradiction|].
    destruct Hin as [E|[]]. inversion E; subst index ec.
    split; [apply Z.eqb_eq, Ha|]. split; [reflexivity|].
    split; [reflexivity|]. intros info' [<-|[]]. repeat split.
  - intros Hr. destruct Hec as [Hec|[Ha Hec]]; rewrite Hec.
    + destruct has_alpha eqn:Ha; [|reflexivity].
      contradiction (Hsome Hr eq_refl).
    + rewrite Ha. reflexivity.
Qed.

(** X7: every value [encode] passes for a frame option is an allowed
    one: effort within 1..9 and decoding speed within 0..4, whatever the
    options hold; the filter strength only when it lies within -1..3;
    the photon noise only for a positive ISO, rounded to the nearest
    integer where that fits [int32_t]; lossy palette, modular mode and
    the progressive switches only when the options ask for them. *)
Theorem encode_option_values (image : list byte)
    (width height : Z) (options : Enc.JXLOptions) {St}
    (h : Run.handler EncE St) fuel s s' lg r :
  Run.exec h fuel s (encode image width height options)
    = Some (s', lg, r) ->
  forall id v, In (id, v) (Enc.options_set lg) ->
    Enc.option_value_allowed options id v.
Proof.
  intros H id v Hin.
  pose proof (encode_options image width height options _ h _ _ _ _ _ H)
    as Hall. cbn beta in Hall.
  apply pick_In in Hin. destruct Hin as (en & Hen & Hid).
  rewrite Forall_forall in Hall. exact (Hall en Hen id v Hid).
Qed.

(** X8: the colour encoding.  [encode] passes a colour encoding to the
    library only for a colour space from 0 to 3, and then it is the one
    [SetupColorEncoding] makes of the zeroed structure for the colour
    space and the input type; a run that returns bytes passed it exactly
    once.  For any other colour space [encode] returns null without
    having set a colour encoding or a frame option or added a frame. *)
Theorem encode_color_encoding (image : list byte)
    (width height : Z) (options : Enc.JXLOptions) {St}
    (h : Run.handler EncE St) fuel s s' lg r :
  Run.exec h fuel s (encode image width height options)
    = Some (s', lg, r) ->
  let result :=
    Enc.SetupColorEncoding JxlColorEncodingSetToLinearSRGB
      JxlColorEncodingSetToSRGB (Enc.colorSpace options)
      (Enc.inputType options) zero_color_encoding in
  (fst result = true <-> 0 <= Enc.colorSpace options <= 3)
  /\ (forall ce, In ce (Enc.color_encodings_set lg) ->
        fst result = true /\ ce = snd result)
  /\ (fst result = false ->
      r = None /\ Enc.color_encodings_set lg = []
      /\ Enc.options_set lg = [] /\ Enc.frames_added lg = [])
  /\ (r <> None -> Enc.color_encodings_set lg = [snd result]).
Proof.
  intros H result. split; [apply SetupColorEncoding_ok|].
  pose proof (encode_color image width height options _ h _ _ _ _ _ H)
    as [(Hc & Ho & Hf & Hr)|C].
  { rewrite Hc, Ho, Hf. split; [intros ce []|].
    split; [intros _; repeat split; assumption|].
    intros Hn. contradiction. }
  unfold color_sent in C. cbv zeta in C. fold result in C.
  destruct C as (Hsent & Hfail & Hok).
  split; [|split; assumption].
  intros ce Hin. destruct Hsent as [E|[Ht E]]; rewrite E in Hin.
  - contradiction.
  - destruct Hin as [<-|[]]. split; [exact Ht|reflexivity].
Qed.

(** X9: lossless flag or distance, never both.  With [lossless] on,
    [encode] sets no distance and sets the lossless flag, to true, at most
    once - exactly once in a run that returns bytes.  With [lossless] off
    it never sets the lossless flag, and sets the distance of the quality
    at most once - exactly once in a run that returns bytes. *)
Theorem encode_lossless_or_distance (image : list byte)
    (width height : Z) (options : Enc.JXLOptions) {St}
    (h : Run.handler EncE St) fuel s s' lg r :
  Run.exec h fuel s (encode image width height options)
    = Some (s', lg, r) ->
  (Enc.lossless options = true ->
   Enc.distances_set lg = []
   /\ (Enc.lossless_flags lg = [] \/ Enc.lossless_flags lg = [true])
   /\ (r <> None -> Enc.lossless_flags lg = [true]))
  /\ (Enc.lossless options = false ->
      Enc.lossless_flags lg = []
      /\ (Enc.distances_set lg = []
          \/ Enc.distances_set lg
             = [Enc.quality_to_distance (Enc.quality options)])
      /\ (r <> None ->
          Enc.distances_set lg
          = [Enc.quality_to_distance (Enc.quality options)])).
Proof.
  intros H.
  exact (encode_mode image width height options _ h _ _ _ _ _ H).
Qed.

(** X10: [encode] terminates.  Run against any library that cannot ask
    for more output for ever - each such answer lowers some measure of
    the library's state - [encode] returns, from every state and for
    every input. *)
Theorem encode_terminates (image : list byte)
    (width height : Z) (options : Enc.JXLOptions) {St}
    (h : Run.handler EncE St) (budget : St -> nat) :
  (forall next_out avail_out s s1 written,
     h _ (JxlEncoderProcessOutput next_out avail_out) s
     = (s1, (JXL_ENC_NEED_MORE_OUTPUT, written)) ->
     (budget s1 < budget s)%nat) ->
  forall s, exists fuel s' lg r,
    Run.exec h fuel s (encode image width height options)
    = Some (s', lg, r).
Proof.
  intros Hcost s.
  destruct (encode_returns h budget Hcost image width height options s)
    as (f & [[s' lg] r] & Hf).
  exists f, s', lg, r. exact Hf.
Qed.

End EncodeRuns.


Section EncodeGeometry.

Import Jxl.

Variable size_bits : Z.
Hypothesis size_bits_ge : 32 <= size_bits.
Variable JxlColorEncodingSetToLinearSRGB : bool -> JxlColorEncoding.
Variable JxlColorEncodingSetToSRGB : bool -> JxlColorEncoding.

Let encode :=
  Enc.encode size_bits JxlColorEncodingSetToLinearSRGB
    JxlColorEncodingSetToSRGB.
Let encode_header :=
  Enc.encode_header size_bits JxlColorEncodingSetToLinearSRGB
    JxlColorEncodingSetToSRGB.

(** What the tests at the head of [encode] establish. *)
Lemma validation_facts (image : list byte) (width height : Z)
    (options : Enc.JXLOptions) (data_type : JxlDataType)
    (bytes_per_sample : Z) (ok : bool) (expected_size : Z) :
  Int.is_int width -> Int.is_int height ->
  Int.is_int (Enc.numChannels options) ->
  (width <=? 0) || (height <=? 0) = false ->
  negb (Enc.numChannels options =? 3) && negb (Enc.numChannels options =? 4)
    = false ->
  negb (Enc.IsSupportedCombination (Enc.inputType options)
          (Enc.bitDepth options)) = false ->
  (if Enc.inputType options =? 1 then (JXL_TYPE_UINT16, 2)
   else if Enc.inputType options =? 2 then (JXL_TYPE_FLOAT, 4)
   else (JXL_TYPE_UINT8, 1)) = (data_type, bytes_per_sample) ->
  Enc.ComputeExpectedSize size_bits (Int.to_uint32 width)
    (Int.to_uint32 height) (Enc.numChannels options) bytes_per_sample 0
    = (ok, expected_size) ->
  negb ok = false ->
  negb (expected_size =? Enc.size image) = false ->
  Int.to_uint32 width = width /\ Int.to_uint32 height = height
  /\ Int.to_uint32 (Enc.numChannels options) = Enc.numChannels options
  /\ Int.to_uint32 (Enc.bitDepth options) = Enc.bitDepth options
  /\ (Enc.numChannels options = 3 \/ Enc.numChannels options = 4)
  /\ Enc.size image
     = width * height * Enc.numChannels options * sample_bytes data_type
  /\ ((data_type = JXL_TYPE_UINT8 /\ Enc.inputType options = 0
       /\ Enc.bitDepth options = 8)
      \/ (data_type = JXL_TYPE_UINT16 /\ Enc.inputType options = 1
          /\ (Enc.bitDepth options = 10 \/ Enc.bitDepth options = 12
              \/ Enc.bitDepth options = 16))
      \/ (data_type = JXL_TYPE_FLOAT /\ Enc.inputType options = 2
          /\ Enc.bitDepth options = 32)).
Proof.
  intros Iw Ih Ic Hdim Hch Hsup Hty Hsize Hok Hlen.
  unfold Int.is_int, Int.int_min, Int.int_max in *.
  apply orb_false_iff in Hdim. destruct Hdim as [Hw Hh].
  apply Z.leb_gt in Hw, Hh.
  assert (Hc : Enc.numChannels options = 3 \/ Enc.numChannels options = 4).
  { destruct (Z.eqb_spec (Enc.numChannels options) 3); [left; assumption|].
    destruct (Z.eqb_spec (Enc.numChannels options) 4); [right; assumption|].
    discriminate Hch. }
  apply negb_false_iff, IsSupportedCombination_spec in Hsup.
  apply negb_false_iff in Hok. subst ok.
  apply negb_false_iff, Z.eqb_eq in Hlen. subst expected_size.
  assert (Uw : Int.to_uint32 width = width) by (apply Z.mod_small; lia).
  assert (Uh : Int.to_uint32 height = height) by (apply Z.mod_small; lia).
  assert (Uc : Int.to_uint32 (Enc.numChannels options)
               = Enc.numChannels options) by (apply Z.mod_small; lia).
  assert (Ub : Int.to_uint32 (Enc.bitDepth options) = Enc.bitDepth options).
  { apply Z.mod_small. unfold Spec.supported_pair in Hsup. lia. }
  assert (Hb : bytes_per_sample = sample_bytes data_type
               /\ 1 <= bytes_per_sample <= 4).
  { destruct (Enc.inputType options =? 1);
      [|destruct (Enc.inputType options =? 2)];
      inversion Hty; subst; cbn; lia. }
  destruct Hb as [Hb Hbr].
  pose proof (size_max_pos size_bits size_bits_ge) as HM.
  rewrite Uw, Uh in Hsize.
  rewrite (ComputeExpectedSize_positive size_bits size_bits_ge) in Hsize
    by (unfold Int.max_unsigned, Int.int_max; lia).
  destruct (Z.leb_spec (width * height * Enc.numChannels options
                        * bytes_per_sample) (Enc.size_max size_bits));
    [|discriminate Hsize].
  injection Hsize as Hprod. rewrite Hb in Hprod.
  repeat (split; [assumption|]). split; [symmetry; exact Hprod|].
  unfold Spec.supported_pair in Hsup.
  destruct (Z.eqb_spec (Enc.inputType options) 1) as [E1|E1];
    [|destruct (Z.eqb_spec (Enc.inputType options) 2) as [E2|E2]];
    inversion Hty; subst data_type.
  - right. left. split; [reflexivity|]. split; [assumption|]. lia.
  - right. right. split; [reflexivity|]. split; [assumption|]. lia.
  - left. split; [reflexivity|]. lia.
Qed.

Let frame_added (image : list byte) (options : Enc.JXLOptions)
    (data_type : JxlDataType) (lg : list (entry EncE))
    (r : option (list byte)) : Prop :=
  Enc.basic_infos_set lg = []
  /\ ((Enc.frames_added lg = [] /\ r = None)
      \/ Enc.frames_added lg
         = [({| num_channels := Int.to_uint32 (Enc.numChannels options);
                Jxl.data_type := data_type;
                endianness := JXL_NATIVE_ENDIAN;
                align := 0 |}, image, Enc.size image)]).

Lemma collect_output_no_frame :
  holds (Enc.collect_output size_bits) (fun lg _ =>
    Enc.basic_infos_set lg = [] /\ Enc.frames_added lg = []).
Proof.
  eapply holds_weaken; [apply collect_output_log|].
  intros lg r H. split.
  - destruct (output_loop_pick Enc.basic_info_of lg r) as [x Hx];
      [reflexivity|exact H|]. exact Hx.
  - destruct (output_loop_pick Enc.frame_of lg r) as [x Hx];
      [reflexivity|exact H|]. exact Hx.
Qed.

Ltac frame_leaf :=
  unfold frame_added, Enc.basic_infos_set, Enc.frames_added in *;
  cbn [pick Enc.basic_info_of Enc.frame_of];
  first
    [ match goal with
      | H : pick Enc.basic_info_of ?l = [] /\ pick Enc.frame_of ?l = []
        |- _ =>
        destruct H as [Hb Hf]; rewrite Hb, Hf;
        split; [reflexivity|right; reflexivity]
      end
    | assumption
    | split; [reflexivity|];
      first [left; split; reflexivity | right; reflexivity] ].

Lemma encode_frame_frame image options data_type :
  holds (Enc.encode_frame size_bits image options data_type)
    (frame_added image options data_type).
Proof.
  unfold Enc.encode_frame. enc_walk.
  all: try (eapply holds_weaken; [apply collect_output_no_frame|];
            intros log r0 H).
  all: frame_leaf.
Qed.

Lemma encode_settings_frame image options data_type :
  holds (Enc.encode_settings size_bits image options data_type)
    (frame_added image options data_type).
Proof.
  unfold Enc.encode_settings. enc_walk.
  all: try (eapply holds_weaken; [apply encode_frame_frame|];
            intros log r0 H).
  all: frame_leaf.
Qed.

Let header_sent (image : list byte) (width height : Z)
    (options : Enc.JXLOptions) (data_type : JxlDataType)
    (lg : list (entry EncE)) (r : option (list byte)) : Prop :=
  exists info,
    Enc.basic_infos_set lg = [info]
    /\ xsize info = Int.to_uint32 width
    /\ ysize info = Int.to_uint32 height
    /\ bits_per_sample info = Int.to_uint32 (Enc.bitDepth options)
    /\ exponent_bits_per_sample info
       = (if Enc.inputType options =? 2 then 8 else 0)
    /\ num_color_channels info = 3
    /\ num_extra_channels info
       = (if Enc.numChannels options =? 4 then 1 else 0)
    /\ uses_original_profile info = true
    /\ ((Enc.frames_added lg = [] /\ r = None)
        \/ Enc.frames_added lg
           = [({| num_channels := Int.to_uint32 (Enc.numChannels options);
                  Jxl.data_type := data_type;
                  endianness := JXL_NATIVE_ENDIAN;
                  align := 0 |}, image, Enc.size image)]).

Lemma encode_header_frame image width height options data_type :
  holds (encode_header image width height options data_type)
    (header_sent image width height options data_type).
Proof.
  subst encode_header. unfold Enc.encode_header. enc_walk.
  all: try (eapply holds_weaken; [apply encode_settings_frame|];
            intros log r0 [Hb Hf]).
  all: unfold header_sent, Enc.basic_infos_set, Enc.frames_added in *;
    cbn [pick Enc.basic_info_of Enc.frame_of]; try rewrite Hb.
  all: eexists; split; [reflexivity|].
  all: cbn [xsize ysize bits_per_sample exponent_bits_per_sample
            num_color_channels num_extra_channels uses_original_profile].
  all: repeat match goal with
              | H : (Enc.numChannels _ =? 4) = _ |- _ => rewrite H
              end.
  all: repeat (split; [reflexivity|]).
  all: first [assumption | left; split; reflexivity].
Qed.

(** X11: the frame [encode] hands to the library is the caller's buffer,
    and its size is the one the declared geometry implies: the basic info
    carries the width, the height, three colour channels plus the alpha
    channel, and the bit depth of the options; the pixel format has
    [numChannels] channels of the sample type of [inputType]; and the
    buffer holds exactly width * height * channels * bytes-per-sample
    bytes.  A run that returns bytes sent one basic info and one
    frame. *)
Theorem encode_frame_geometry (image : list byte)
    (width height : Z) (options : Enc.JXLOptions) {St}
    (h : Run.handler EncE St) fuel s s' lg r :
  Int.is_int width -> Int.is_int height ->
  Int.is_int (Enc.numChannels options) ->
  Run.exec h fuel s (encode image width height options)
    = Some (s', lg, r) ->
  (forall info, In info (Enc.basic_infos_set lg) ->
     xsize info = width /\ ysize info = height
     /\ num_color_channels info = 3
     /\ num_color_channels info + num_extra_channels info
        = Enc.numChannels options
     /\ bits_per_sample info = Enc.bitDepth options
     /\ exponent_bits_per_sample info
        = (if Enc.inputType options =? 2 then 8 else 0)
     /\ uses_original_profile info = true)
  /\ (forall format buffer size,
        In (format, buffer, size) (Enc.frames_added lg) ->
        buffer = image /\ size = Enc.size image
        /\ num_channels format = Enc.numChannels options
        /\ endianness format = JXL_NATIVE_ENDIAN /\ align format = 0
        /\ Enc.size image
           = width * height * num_channels format
             * sample_bytes (data_type format)
        /\ ((data_type format = JXL_TYPE_UINT8
             /\ Enc.inputType options = 0 /\ Enc.bitDepth options = 8)
            \/ (data_type format = JXL_TYPE_UINT16
                /\ Enc.inputType options = 1
                /\ (Enc.bitDepth options = 10 \/ Enc.bitDepth options = 12
                    \/ Enc.bitDepth options = 16))
            \/ (data_type format = JXL_TYPE_FLOAT
                /\ Enc.inputType options = 2
                /\ Enc.bitDepth options = 32)))
  /\ (r <> None ->
      exists info format,
        Enc.basic_infos_set lg = [info]
        /\ Enc.frames_added lg = [(format, image, Enc.size image)]).
Proof.
  intros Iw Ih Ic. revert St h fuel s s' lg r.
  change (holds (encode image width height options) (fun lg r =>
    (forall info, In info (Enc.basic_infos_set lg) ->
       xsize info = width /\ ysize info = height
       /\ num_color_channels info = 3
       /\ num_color_channels info + num_extra_channels info
          = Enc.numChannels options
       /\ bits_per_sample info = Enc.bitDepth options
       /\ exponent_bits_per_sample info
          = (if Enc.inputType options =? 2 then 8 else 0)
       /\ uses_original_profile info = true)
    /\ (forall format buffer size,
          In (format, buffer, size) (Enc.frames_added lg) ->
          buffer = image /\ size = Enc.size image
          /\ num_channels format = Enc.numChannels options
          /\ endianness format = JXL_NATIVE_ENDIAN /\ align format = 0
          /\ Enc.size image
             = width * height * num_channels format
               * sample_bytes (data_type format)
          /\ ((data_type format = JXL_TYPE_UINT8
               /\ Enc.inputType options = 0 /\ Enc.bitDepth options = 8)
              \/ (data_type format = JXL_TYPE_UINT16
                  /\ Enc.inputType options = 1
                  /\ (Enc.bitDepth options = 10
                      \/ Enc.bitDepth options = 12
                      \/ Enc.bitDepth options = 16))
              \/ (data_type format = JXL_TYPE_FLOAT
                  /\ Enc.inputType options = 2
                  /\ Enc.bitDepth options = 32)))
    /\ (r <> None ->
        exists info format,
          Enc.basic_infos_set lg = [info]
          /\ Enc.frames_added lg = [(format, image, Enc.size image)]))).
  subst encode. unfold Enc.encode. enc_walk.
  all: try (eapply holds_weaken; [apply encode_header_frame|];
            intros log r0 H).
  all: try (split; [intros ? []|];
            split; [intros ? ? ? []|];
            intros Hr; contradiction Hr; reflexivity).
  match goal with
  | Hdim : (_ <=? _) || (_ <=? _) = false,
    Hch : negb _ && negb _ = false,
    Hsup : negb (Enc.IsSupportedCombination _ _) = false,
    Hty : (if _ then _ else _) = (_, _),
    Hsize : Enc.ComputeExpectedSize _ _ _ _ _ _ = _,
    Hok : negb ?b = false,
    Hlen : negb (_ =? Enc.size _) = false |- _ =>
    destruct (validation_facts _ _ _ _ _ _ _ _ Iw Ih Ic Hdim Hch Hsup Hty
                Hsize Hok Hlen)
      as (Uw & Uh & Uc & Ub & Hc & Hlen' & Hkind)
  end.
  destruct H as (info & Hi & F1 & F2 & F3 & F4 & F5 & F6 & F7 & Hframe).
  unfold Enc.basic_infos_set, Enc.frames_added in *.
  cbn [pick Enc.basic_info_of Enc.frame_of]. rewrite Hi.
  split.
  { intros info' [<-|[]]. rewrite F1, F2, F3, F5, F6, Uw, Uh, Ub.
    repeat split; try assumption.
    destruct Hc as [E|E]; rewrite E; reflexivity. }
  split.
  - intros format buffer size Hin.
    destruct Hframe as [[Hf _]|Hf]; rewrite Hf in Hin; [contradiction|].
    destruct Hin as [E|[]]. inversion E; subst format buffer size.
    cbn [num_channels data_type endianness align]. rewrite Uc.
    repeat split; assumption.
  - intros Hr. destruct Hframe as [[_ Hn]|Hf]; [contradiction|].
    rewrite Hf. eexists _, _. split; reflexivity.
Qed.

(** X12: [encode] consults the library exactly on valid input: a run on
    input that breaks a validation rule makes no call at all, and a run
    on valid input starts with [JxlEncoderCreate]. *)
Theorem encode_calls_library_iff_valid (image : list byte)
    (width height : Z) (options : Enc.JXLOptions) {St}
    (h : Run.handler EncE St) fuel s s' lg r :
  Int.is_int width -> Int.is_int height ->
  Int.is_int (Enc.numChannels options) ->
  Run.exec h fuel s (encode image width height options)
    = Some (s', lg, r) ->
  (lg = [] <-> ~ Spec.valid_input size_bits image width height options)
  /\ (Spec.valid_input size_bits image width height options ->
      exists b rest, lg = Run.Answered _ JxlEncoderCreate b :: rest).
Proof.
  intros Iw Ih Ic H.
  destruct (encode_validation size_bits size_bits_ge
              JxlColorEncodingSetToLinearSRGB JxlColorEncodingSetToSRGB
              image width height options Iw Ih Ic) as [Hv Hn].
  assert (Hvalid : Spec.valid_input size_bits image width height options ->
                   exists b rest, lg = Answered _ JxlEncoderCreate b :: rest).
  { intros V. destruct (Hv V) as [dt E]. subst encode. rewrite E in H.
    assert (G : holds
              (encoder <- ITree.trigger JxlEncoderCreate;;
               (if negb encoder
                then Ret None
                else
                  Enc.encode_header size_bits
                    JxlColorEncodingSetToLinearSRGB
                    JxlColorEncodingSetToSRGB image width height options dt))
              (fun lg _ =>
                 exists b rest, lg = Answered _ JxlEncoderCreate b :: rest)).
    { apply holds_call. intros x St0 h0 f1 s1 s1' lg1 r1 _.
      eexists _, _. reflexivity. }
    exact (G _ h _ _ _ _ _ H). }
  split; [|exact Hvalid]. split.
  - intros -> V. destruct (Hvalid V) as (b & rest & E). discriminate E.
  - intros NV. subst encode. rewrite (Hn NV) in H.
    destruct fuel as [|fuel]; [discriminate H|]. cbn in H.
    inversion H. reflexivity.
Qed.

End EncodeGeometry.

(** ** Encoder: the range of the distance *)

Section DistanceRange.

Local Open Scope R_scope.

Lemma distance_linear_range (q : R) :
  30 <= q < 100 -> 0.1 < Enc.distance q <= 6.4.
Proof. intros H. rewrite distance_linear by exact H. lra. Qed.

Lemma distance_exponential_le (q : R) :
  0 <= q < 30 -> Enc.distance q <= 45.4625.
Proof.
  intros H. rewrite distance_exponential by lra.
  assert (L : Rpower 2.5 ((30 - q) / 5) <= Rpower 2.5 6)
    by (apply Rle_Rpower; lra).
  rewrite Rpower_2_5_6 in L. lra.
Qed.

(** The fifth root of 2.5 exceeds 1.1875. *)
Lemma Rpower_2_5_fifth : 1.1875 < Rpower 2.5 0.2.
Proof.
  destruct (Rlt_dec 1.1875 (Rpower 2.5 0.2)) as [L|N]; [exact L|exfalso].
  assert (Hpos : 0 < Rpower 2.5 0.2) by (unfold Rpower; apply exp_pos).
  assert (H5 : Rpower 2.5 0.2 ^ 5 = 2.5).
  { rewrite <- Rpower_pow by exact Hpos. rewrite Rpower_mult.
    replace (0.2 * INR 5) with 1 by (simpl; lra).
    apply Rpower_1. lra. }
  assert (Hle : Rpower 2.5 0.2 ^ 5 <= 1.1875 ^ 5)
    by (apply pow_incr; lra).
  rewrite H5 in Hle. lra.
Qed.

(** Below 30, one unit of quality is worth more than 0.03 of distance. *)
Lemma distance_exponential_step (a b : R) :
  a + 1 <= b -> b < 30 -> Enc.distance b + 0.03 < Enc.distance a.
Proof.
  intros Hab Hb. rewrite !distance_exponential by lra.
  set (x := (30 - b) / 5).
  assert (Hx : 0 <= x) by (unfold x; lra).
  assert (Hstep : Rpower 2.5 x * Rpower 2.5 0.2 <= Rpower 2.5 ((30 - a) / 5)).
  { rewrite <- Rpower_plus. apply Rle_Rpower; [lra|]. unfold x. lra. }
  pose proof (Rpower_2_5_ge_1 x Hx) as H1.
  pose proof Rpower_2_5_fifth as H2.
  assert (Hgap : Rpower 2.5 x + 0.1875 < Rpower 2.5 x * Rpower 2.5 0.2)
    by nra.
  lra.
Qed.

Lemma distance_step (a b : R) :
  0 <= a -> a + 1 <= b -> b <= 100 ->
  Enc.distance b + 0.03 < Enc.distance a.
Proof.
  intros Ha Hab Hb.
  destruct (Rle_dec 100 b) as [B100|B100].
  - rewrite (distance_lossless b B100).
    destruct (Rle_dec 30 a) as [A30|A30].
    + rewrite distance_linear by lra. lra.
    + pose proof (distance_exponential_ge a ltac:(lra)). lra.
  - destruct (Rle_dec 30 b) as [B30|B30].
    + destruct (Rle_dec 30 a) as [A30|A30].
      * rewrite !distance_linear by lra. lra.
      * pose proof (distance_exponential_ge a ltac:(lra)).
        rewrite (distance_linear b) by lra. lra.
    + apply distance_exponential_step; lra.
Qed.

(** X13: the range of the distance [encode] sets, stated with the slack
    that the rounding of [float] needs (the model computes over the
    reals).  The distance is never negative and stays below 45.5; it is
    0 exactly for a quality of 100 or more and above 0.1 for every lower
    quality; every quality at or below 0 gives the distance of quality
    0; and between 0 and 100, raising the quality by one or more lowers
    the distance by more than 0.03. *)
Theorem quality_to_distance_range :
  (forall q, 0 <= Enc.quality_to_distance q < 45.5)
  /\ (forall q, Enc.quality_to_distance q = 0 <-> 100 <= q)
  /\ (forall q, q < 100 -> 0.1 < Enc.quality_to_distance q)
  /\ (forall q, q <= 0 ->
        Enc.quality_to_distance q = Enc.quality_to_distance 0)
  /\ (forall q1 q2, 0 <= q1 -> q1 + 1 <= q2 -> q2 <= 100 ->
        Enc.quality_to_distance q2 + 0.03 < Enc.quality_to_distance q1).
Proof.
  assert (Hpos : forall c, 0 <= c < 100 -> 0.1 < Enc.distance c <= 45.4625).
  { intros c Hc. destruct (Rle_dec 30 c) as [L|L].
    - pose proof (distance_linear_range c ltac:(lra)). lra.
    - pose proof (distance_exponential_ge c ltac:(lra)).
      pose proof (distance_exponential_le c ltac:(lra)). lra. }
  assert (Hclamp : forall q,
            (q <= 0 -> Flt.clamp q 0 100 = 0)
            /\ (0 <= q <= 100 -> Flt.clamp q 0 100 = q)
            /\ (100 <= q -> Flt.clamp q 0 100 = 100)).
  { intros q. unfold Flt.clamp.
    destruct (Rlt_dec q 0); destruct (Rlt_dec 100 q);
      repeat split; intros; lra. }
  unfold Enc.quality_to_distance.
  split; [|split; [|split; [|split]]].
  - intros q. pose proof (clamp_range q) as Hc.
    destruct (Rle_dec 100 (Flt.clamp q 0 100)) as [L|L].
    + rewrite distance_lossless by exact L. lra.
    + pose proof (Hpos (Flt.clamp q 0 100) ltac:(lra)). lra.
  - intros q. destruct (Hclamp q) as (C0 & C1 & C2). split.
    + intros E. destruct (Rle_dec 100 q) as [L|L]; [exact L|exfalso].
      destruct (Rle_dec 0 q) as [P|P].
      * rewrite C1 in E by lra. pose proof (Hpos q ltac:(lra)). lra.
      * rewrite C0 in E by lra. pose proof (Hpos 0 ltac:(lra)). lra.
    + intros L. rewrite C2 by exact L. apply distance_lossless. lra.
  - intros q Hq. destruct (Hclamp q) as (C0 & C1 & C2).
    destruct (Rle_dec 0 q) as [P|P].
    + rewrite C1 by lra. apply Hpos. lra.
    + rewrite C0 by lra. apply Hpos. lra.
  - intros q Hq. destruct (Hclamp q) as (C0 & _ & _).
    destruct (Hclamp 0) as (C0' & _ & _).
    rewrite C0 by exact Hq. rewrite C0' by lra. reflexivity.
  - intros q1 q2 H1 H12 H2. rewrite !clamp_id by lra.
    apply distance_step; lra.
Qed.

End DistanceRange.

Ltac tests_to_eqs :=
  repeat match goal with
         | H : negb (_ =? _) = false |- _ =>
           apply negb_false_iff, Z.eqb_eq in H
         | H : negb ?b = false |- _ => apply negb_false_iff in H
         end.

(** ** Decoder: protocol and decoder handle *)

Ltac dec_destroyed_last :=
  match goal with
  | |- Dec.destroyed_last ?l =>
    exists (removelast l); eexists; reflexivity
  end.

Section DecoderProtocol.

Variable size_bits : Z.

Import Jxl Dec.

Ltac protocol_leaf :=
  intros Hr;
  first
    [ contradiction Hr; reflexivity
    | tests_to_eqs; eexists;
      (split; [reflexivity|]); (split; [reflexivity|]); cbn;
      unfold component_count; repeat split; congruence ].

Lemma decode_protocol (data : list byte) :
  holds (decode size_bits data) (fun lg r =>
    r <> None -> protocol_followed size_bits data lg).
Proof. unfold decode. walk; protocol_leaf. Qed.

Lemma decodeHighBitDepth_protocol (data : list byte) :
  holds (decodeHighBitDepth size_bits data) (fun lg r =>
    r <> None -> protocol_followed size_bits data lg).
Proof. unfold decodeHighBitDepth. walk; protocol_leaf. Qed.

Lemma decodeLinearFloat_protocol (data : list byte) :
  holds (decodeLinearFloat size_bits data) (fun lg r =>
    r <> None -> protocol_followed size_bits data lg).
Proof. unfold decodeLinearFloat. walk; protocol_leaf. Qed.

(** X14: each of the three decode functions returns an image only after
    a run that followed the protocol: the whole input handed over once,
    four calls of [JxlDecoderProcessInput] that announced the basic info,
    the colour encoding, the need for an output buffer and the full
    image, in this order, and an output buffer of exactly the size the
    library asked for, four floats a pixel. *)
Theorem decoders_follow_protocol :
  (forall (data : list byte) St (h : Run.handler DecE St) f s s' lg img,
     Run.exec h f s (decode size_bits data) = Some (s', lg, Some img) ->
     protocol_followed size_bits data lg) /\
  (forall (data : list byte) St (h : Run.handler DecE St) f s s' lg img,
     Run.exec h f s (decodeHighBitDepth size_bits data)
       = Some (s', lg, Some img) ->
     protocol_followed size_bits data lg) /\
  (forall (data : list byte) St (h : Run.handler DecE St) f s s' lg img,
     Run.exec h f s (decodeLinearFloat size_bits data)
       = Some (s', lg, Some img) ->
     protocol_followed size_bits data lg).
Proof.
  split; [|split]; intros data St h f s s' lg img H.
  - apply (decode_protocol data _ h _ _ _ _ _ H). discriminate.
  - apply (decodeHighBitDepth_protocol data _ h _ _ _ _ _ H). discriminate.
  - apply (decodeLinearFloat_protocol data _ h _ _ _ _ _ H). discriminate.
Qed.

Ltac released_leaf :=
  eexists _, _; (split; [reflexivity|]); (split; [reflexivity|]);
  intros Hb; first [discriminate Hb | dec_destroyed_last].

Lemma decode_released (data : list byte) :
  holds (decode size_bits data) (fun lg _ => handle_released lg).
Proof. unfold decode. walk; released_leaf. Qed.

Lemma decodeHighBitDepth_released (data : list byte) :
  holds (decodeHighBitDepth size_bits data)
    (fun lg _ => handle_released lg).
Proof. unfold decodeHighBitDepth. walk; released_leaf. Qed.

Lemma decodeLinearFloat_released (data : list byte) :
  holds (decodeLinearFloat size_bits data)
    (fun lg _ => handle_released lg).
Proof. unfold decodeLinearFloat. walk; released_leaf. Qed.

(** X15: on every path through the three decode functions, failures
    included, the decoder is requested first and, when the library gave
    one, destroyed exactly once, by the last call of the run. *)
Theorem decoders_release_decoder :
  (forall (data : list byte) St (h : Run.handler DecE St) f s s' lg r,
     Run.exec h f s (decode size_bits data) = Some (s', lg, r) ->
     handle_released lg) /\
  (forall (data : list byte) St (h : Run.handler DecE St) f s s' lg r,
     Run.exec h f s (decodeHighBitDepth size_bits data)
       = Some (s', lg, r) ->
     handle_released lg) /\
  (forall (data : list byte) St (h : Run.handler DecE St) f s s' lg r,
     Run.exec h f s (decodeLinearFloat size_bits data) = Some (s', lg, r) ->
     handle_released lg).
Proof.
  split; [|split]; intros data St h f s s' lg r H.
  - exact (decode_released data _ h _ _ _ _ _ H).
  - exact (decodeHighBitDepth_released data _ h _ _ _ _ _ H).
  - exact (decodeLinearFloat_released data _ h _ _ _ _ _ H).
Qed.

End DecoderProtocol.

Section BufferViews.

Import Dec.

Lemma length_filled {A} (buf written : list A) :
  List.length (filled buf written)
  = Nat.max (List.length written) (List.length buf).
Proof.
  unfold filled. rewrite length_app, length_skipn. lia.
Qed.

Lemma length_view_filled {A} (zero : A) (n : Z) (written : list A) :
  List.length (typed_memory_view n (filled (alloc zero n) written))
  = Z.to_nat n.
Proof.
  unfold typed_memory_view, alloc.
  rewrite length_firstn, length_filled, repeat_length. lia.
Qed.

Lemma length_view_map_view {A B} (f : A -> B) (zero : A) (n : Z)
    (written : list A) :
  List.length
    (typed_memory_view n
       (map f (typed_memory_view n (filled (alloc zero n) written))))
  = Z.to_nat n.
Proof.
  rewrite view_of_mapped_view, length_map. apply length_view_filled.
Qed.

(** A buffer the library filled completely holds what the library
    stored. *)
Lemma view_filled_exact {A} (zero : A) (n : Z) (written : list A) :
  Z.of_nat (List.length written) = n ->
  typed_memory_view n (filled (alloc zero n) written) = written.
Proof.
  intros <-. unfold typed_memory_view, filled, alloc.
  rewrite Nat2Z.id. rewrite firstn_app, firstn_all, Nat.sub_diag.
  cbn [firstn]. apply app_nil_r.
Qed.

End BufferViews.

Section DecoderResults.

Variable size_bits : Z.

Import Jxl Dec.

Lemma effective_bit_depth_cases (bits exponent_bits : Z) :
  let d := effective_bit_depth bits exponent_bits in
  (d = 8 \/ d = 10 \/ d = 12 \/ d = 16 \/ d = 32)
  /\ (d = 32 <-> 0 < exponent_bits).
Proof.
  unfold effective_bit_depth.
  destruct (Z.ltb_spec 0 exponent_bits);
    destruct (bits <=? 8); destruct (bits <=? 10); destruct (bits <=? 12);
    split; try tauto; split; intros; (lia || discriminate).
Qed.

(** The pixel array of every image [decodeHighBitDepth] returns, by its
    kind. *)
Lemma decodeHighBitDepth_data (data : list byte) :
  holds (decodeHighBitDepth size_bits data) (fun lg r =>
    forall img, r = Some img ->
    exists info samples,
      reported_info lg = Some info /\
      stored_samples lg = Some samples /\
      bitDepth img =
        effective_bit_depth (bits_per_sample info)
          (exponent_bits_per_sample info) /\
      colorSpace img = color_space_str (exponent_bits_per_sample info) /\
      samples_count (Dec.data img)
      = Z.of_nat (Z.to_nat (component_count size_bits info)) /\
      match Dec.data img with
      | Uint8ClampedArray _ => bitDepth img = 8
      | Uint16Array px =>
          bitDepth img <> 8 /\ bitDepth img <> 32 /\
          px = map (to_uint16_pixel (IZR (Z.shiftl 1 (bitDepth img) - 1)))
                 (image_buffer size_bits info samples)
      | Float32Array px =>
          bitDepth img = 32 /\ px = image_buffer size_bits info samples
      end).
Proof.
  unfold decodeHighBitDepth. walk;
    intros img0 Eimg; try discriminate; inversion Eimg; subst; clear Eimg;
    do 2 eexists; cbn [bitDepth colorSpace Dec.data samples_count];
    (split; [reflexivity|]); (split; [reflexivity|]);
    (split; [reflexivity|]); (split; [reflexivity|]);
    unfold component_count;
    (split;
     [first [rewrite length_view_map_view | rewrite length_view_filled];
      reflexivity|]);
    repeat match goal with
           | H : (_ =? _) = true |- _ => apply Z.eqb_eq in H
           | H : (_ =? _) = false |- _ => apply Z.eqb_neq in H
           end;
    try assumption.
  all: split; [assumption|].
  all: try (split; [assumption|]).
  all: unfold image_buffer, component_count.
  all: try rewrite view_of_mapped_view; reflexivity.
Qed.

Lemma decode_data (data : list byte) :
  holds (decode size_bits data) (fun lg r =>
    forall img, r = Some img ->
    exists info icc_size icc samples tc,
      reported_info lg = Some info /\
      reported_icc_size lg = Some icc_size /\
      icc_bytes_stored lg = [icc] /\
      stored_samples lg = Some samples /\
      parse_answer lg = Some true /\
      transform_calls lg = [tc] /\
      tc = {| tc_src :=
                filled (alloc 0%R (component_count size_bits info)) samples;
              tc_src_format := skcms_PixelFormat_RGBA_ffff;
              tc_src_alpha :=
                if alpha_premultiplied info
                then skcms_AlphaFormat_PremulAsEncoded
                else skcms_AlphaFormat_Unpremul;
              tc_src_profile := parsed_profile (icc_buffer icc_size icc);
              tc_dst_format := skcms_PixelFormat_RGBA_8888;
              tc_dst_alpha := skcms_AlphaFormat_Unpremul;
              tc_dst_profile := skcms_sRGB_profile;
              tc_npixels := pixel_count size_bits info;
              tc_ok := true;
              tc_stored := tc_stored tc |} /\
      img = {| id_data :=
                 typed_memory_view (component_count size_bits info)
                   (filled (alloc 0 (component_count size_bits info))
                      (tc_stored tc));
               id_width := xsize info;
               id_height := ysize info |}).
Proof.
  unfold decode. walk;
    intros img0 Eimg; try discriminate; inversion Eimg; subst; clear Eimg.
  all: tests_to_eqs; subst.
  all: do 5 eexists.
  all: repeat (split; [reflexivity|]).
  all: cbn [tc_stored].
  all: split; [|reflexivity].
  all: unfold component_count, pixel_count, icc_buffer.
  all: repeat match goal with H : fst _ = true |- _ => rewrite H end.
  all: reflexivity.
Qed.

Lemma decodeLinearFloat_data (data : list byte) :
  holds (decodeLinearFloat size_bits data) (fun lg r =>
    forall img, r = Some img ->
    exists info samples,
      reported_info lg = Some info /\
      stored_samples lg = Some samples /\
      lf_data img = image_buffer size_bits info samples /\
      lf_width img = xsize info /\
      lf_height img = ysize info /\
      lf_sourceBitDepth img = Int.to_int (bits_per_sample info)).
Proof.
  unfold decodeLinearFloat. walk;
    intros img0 Eimg; try discriminate; inversion Eimg; subst; clear Eimg;
    do 2 eexists; repeat (split; [reflexivity|]); reflexivity.
Qed.

End DecoderResults.

(** ** Decoder: conversion of float samples to integers *)

Section Quantisation.

Import Dec.

Lemma Int_part_bounds (x : R) :
  (IZR (Int_part x) <= x < IZR (Int_part x) + 1)%R.
Proof. destruct (base_Int_part x). lra. Qed.

Lemma Int_part_monotone (x y : R) : (x <= y)%R -> Int_part x <= Int_part y.
Proof.
  intros H. pose proof (Int_part_bounds x). pose proof (Int_part_bounds y).
  assert (L : (IZR (Int_part x) < IZR (Int_part y + 1))%R)
    by (rewrite plus_IZR; lra).
  apply lt_IZR in L. lia.
Qed.

Lemma Int_part_of_Z (n : Z) : Int_part (IZR n) = n.
Proof.
  symmetry. apply Int_part_spec. lra.
Qed.

Lemma clamp01_monotone (v w : R) :
  (v <= w)%R -> (Spec.clamp01 v <= Spec.clamp01 w)%R.
Proof.
  intros H. unfold Spec.clamp01, Rmax, Rmin.
  repeat destruct (Rle_dec _ _); lra.
Qed.

Lemma clamp01_low (v : R) : (v <= 0)%R -> Spec.clamp01 v = 0%R.
Proof.
  intros H. unfold Spec.clamp01, Rmax, Rmin.
  repeat destruct (Rle_dec _ _); lra.
Qed.

Lemma clamp01_high (v : R) : (1 <= v)%R -> Spec.clamp01 v = 1%R.
Proof.
  intros H. unfold Spec.clamp01, Rmax, Rmin.
  repeat destruct (Rle_dec _ _); lra.
Qed.

Lemma clamp01_below_1 (v : R) : (v < 1)%R -> (Spec.clamp01 v < 1)%R.
Proof.
  intros H. unfold Spec.clamp01, Rmax, Rmin.
  repeat destruct (Rle_dec _ _); lra.
Qed.

Lemma quantise_facts (n : Z) (v w : R) :
  0 <= n ->
  0 <= Spec.scale_to n v <= n
  /\ ((v <= 0)%R -> Spec.scale_to n v = 0)
  /\ ((1 <= v)%R -> Spec.scale_to n v = n)
  /\ ((v < 1)%R -> 0 < n -> Spec.scale_to n v < n)
  /\ ((v <= w)%R -> Spec.scale_to n v <= Spec.scale_to n w).
Proof.
  intros Hn. unfold Spec.scale_to.
  assert (Hn' : (0 <= IZR n)%R) by (apply IZR_le; exact Hn).
  pose proof (clamp01_range v) as [H0 H1].
  split; [apply Int_part_range; nra|].
  split.
  { intros H. rewrite clamp01_low by exact H. rewrite Rmult_0_l.
    apply (Int_part_of_Z 0). }
  split.
  { intros H. rewrite clamp01_high by exact H. rewrite Rmult_1_l.
    apply Int_part_of_Z. }
  split.
  { intros H Hpos. pose proof (clamp01_below_1 v H) as Hc.
    assert (Hn'' : (0 < IZR n)%R) by (apply IZR_lt; exact Hpos).
    pose proof (Int_part_bounds (Spec.clamp01 v * IZR n)) as [Hb _].
    assert (L : (IZR (Int_part (Spec.clamp01 v * IZR n)) < IZR n)%R) by nra.
    apply lt_IZR in L. exact L. }
  intros H. apply Int_part_monotone.
  pose proof (clamp01_monotone v w H). nra.
Qed.




Lemma to_byte_pixel_quantise (exponent_bits : Z) (v : R) :
  exponent_bits <= 0 -> to_byte_pixel exponent_bits v = Spec.scale_to 255 v.
Proof.
  intros He. rewrite to_byte_pixel_spec.
  destruct (Z.ltb_spec 0 exponent_bits); [lia|]. reflexivity.
Qed.

End Quantisation.

(** ** Replaying a run with another program *)

Section Replay.

Context {E : Type -> Type}.

Lemma exec_consistent {St Res} (h : handler E St) f s (t : itree E Res)
    s' lg r :
  exec h f s t = Some (s', lg, r) -> consistent h s lg s'.
Proof.
  revert s t lg. induction f as [|f IH]; intros s t lg H; [discriminate|].
  cbn [exec] in H. destruct (observe t) as [r0|u|X e k].
  - inversion H; subst. reflexivity.
  - exact (IH _ _ _ H).
  - destruct (h X e s) as [s1 x] eqn:Hh.
    destruct (exec h f s1 (k x)) as [[[s2 l2] r2]|] eqn:Ex; [|discriminate].
    inversion H; subst. cbn [consistent]. exists s1.
    split; [exact Hh|]. exact (IH _ _ _ Ex).
Qed.

Lemma follows_observe {Res} (u t : itree E Res) lg r :
  observe t = observe u -> follows lg u r -> follows lg t r.
Proof.
  intros Ho H. destruct H as [u r Hu|u v lg r Hu Hv|u X e k x lg r Hu Hk].
  - apply follows_ret. congruence.
  - eapply follows_tau; [|exact Hv]. congruence.
  - eapply follows_vis; [|exact Hk]. congruence.
Qed.

(** A program that follows the log of a run against [h] returns when it
    is run against [h] from the same state, with the same log. *)
Lemma follows_exec {St Res} (h : handler E St) s lg s' (t : itree E Res) r :
  follows lg t r -> consistent h s lg s' ->
  exists f, exec h f s t = Some (s', lg, r).
Proof.
  intros H. revert s.
  induction H as [t r Ht|t u lg r Ht _ IH|t X e k x lg r Ht _ IH];
    intros s Hc.
  - cbn in Hc. subst s'. exists 1%nat. cbn [exec]. rewrite Ht. reflexivity.
  - destruct (IH s Hc) as [f Hf]. exists (S f). cbn [exec]. rewrite Ht.
    exact Hf.
  - cbn [consistent] in Hc. destruct Hc as (s1 & Hh & Hc).
    destruct (IH s1 Hc) as [f Hf]. exists (S f). cbn [exec].
    rewrite Ht, Hh, Hf. reflexivity.
Qed.

Lemma follows_bind_ret {Res A} (x : A) (k : A -> itree E Res) lg r :
  follows lg (k x) r -> follows lg (ITree.bind (Ret x) k) r.
Proof. apply follows_observe. reflexivity. Qed.

Lemma follows_call {X Res} (e : E X) (k : X -> itree E Res) x lg r :
  follows lg (k x) r ->
  follows (Answered _ e x :: lg) (ITree.bind (ITree.trigger e) k) r.
Proof.
  intros H.
  apply (follows_vis _ X e (fun x => ITree.bind (Ret x) k)); [reflexivity|].
  apply follows_bind_ret, H.
Qed.

Lemma follows_now {Res} (r : Res) : follows [] (Ret r : itree E Res) r.
Proof. apply follows_ret. reflexivity. Qed.

End Replay.

Ltac follow_step :=
  first
    [ apply follows_now
    | apply follows_call
    | match goal with
      | |- follows _ (ITree.bind (Ret _) _) _ => apply follows_bind_ret
      | H : ?c = _ |- follows _ (if ?c then _ else _) _ => rewrite H
      | H : ?c = _ |- follows _ (ITree.bind (if ?c then _ else _) _) _ =>
        rewrite H
      end
    | progress cbv beta zeta
    | progress unfold Dec.EXPECT_EQ, Dec.EXPECT_TRUE, Dec.leave ].

Ltac follow := repeat follow_step.

Section DecodersAgree.

Variable size_bits : Z.

Import Jxl Dec.

Lemma effective_bit_depth_float (bits exponent_bits : Z) :
  0 < exponent_bits -> effective_bit_depth bits exponent_bits = 32.
Proof.
  intros H. unfold effective_bit_depth.
  destruct (Z.ltb_spec 0 exponent_bits); [reflexivity|lia].
Qed.

Lemma decodeLinearFloat_followed (data : list byte) :
  holds (decodeLinearFloat size_bits data) (fun lg r =>
    forall img, r = Some img ->
    (forall info, reported_info lg = Some info ->
       0 < exponent_bits_per_sample info) ->
    exists img',
      follows lg (decodeHighBitDepth size_bits data) (Some img') /\
      Dec.data img' = Float32Array (lf_data img) /\
      width img' = lf_width img /\
      height img' = lf_height img /\
      iccProfile img' = lf_iccProfile img /\
      colorSpace img' = lf_colorSpace img /\
      bitDepth img' = 32).
Proof.
  unfold decodeLinearFloat. walk;
    intros img0 Eimg Hexp; try discriminate; inversion Eimg; subst;
    clear Eimg; specialize (Hexp _ eq_refl).
  all: match type of Hexp with
       | 0 < exponent_bits_per_sample ?i =>
         pose proof (effective_bit_depth_float (bits_per_sample i) _ Hexp)
           as Hd;
         assert (H8 : (effective_bit_depth (bits_per_sample i)
                         (exponent_bits_per_sample i) =? 8) = false)
           by (rewrite Hd; reflexivity);
         assert (H32 : (effective_bit_depth (bits_per_sample i)
                          (exponent_bits_per_sample i) =? 32) = true)
           by (rewrite Hd; reflexivity)
       end.
  all: eexists; split; [unfold decodeHighBitDepth; follow|].
  all: cbn [Dec.data width height iccProfile colorSpace bitDepth
            lf_data lf_width lf_height lf_iccProfile lf_colorSpace].
  all: repeat split; try reflexivity; try assumption.
Qed.

Lemma decode_followed (data : list byte) :
  holds (decode size_bits data) (fun lg r =>
    forall img, r = Some img ->
    (forall info, reported_info lg = Some info ->
       effective_bit_depth (bits_per_sample info)
         (exponent_bits_per_sample info) = 8) ->
    (forall n, reported_icc_size lg = Some n -> 0 < n) ->
    exists img',
      follows lg (decodeHighBitDepth size_bits data) (Some img') /\
      Dec.data img' = Uint8ClampedArray (id_data img) /\
      width img' = id_width img /\
      height img' = id_height img /\
      bitDepth img' = 8).
Proof.
  unfold decode. walk;
    intros img0 Eimg Hdepth Hicc; try discriminate; inversion Eimg; subst;
    clear Eimg; specialize (Hdepth _ eq_refl); specialize (Hicc _ eq_refl).
  all: repeat match goal with
              | H : negb ?b = false |- _ =>
                is_var b; destruct b; [clear H|discriminate H]
              end.
  all: match type of Hdepth with
       | ?d = 8 =>
         assert (H8 : (d =? 8) = true) by (rewrite Hdepth; reflexivity)
       end.
  all: apply Z.ltb_lt in Hicc.
  all: eexists; split; [unfold decodeHighBitDepth; follow|].
  all: cbn [Dec.data width height bitDepth id_data id_width id_height].
  all: repeat split; try reflexivity; try assumption.
Qed.

(** X16: a float image that [decodeLinearFloat] returns is also returned by
    [decodeHighBitDepth]: run against the same library from the same
    state it makes the same calls, gets the same answers and returns the
    same samples, size and profile. *)
Theorem float_decoders_agree (data : list byte) {St}
    (h : Run.handler DecE St) f s s' lg img :
  Run.exec h f s (decodeLinearFloat size_bits data)
    = Some (s', lg, Some img) ->
  lf_colorSpace img = "linear"%string ->
  exists f' img',
    Run.exec h f' s (decodeHighBitDepth size_bits data)
      = Some (s', lg, Some img') /\
    Dec.data img' = Float32Array (lf_data img) /\
    width img' = lf_width img /\
    height img' = lf_height img /\
    iccProfile img' = lf_iccProfile img /\
    colorSpace img' = "linear"%string /\
    bitDepth img' = 32.
Proof.
  intros H Hlin.
  destruct (decodeLinearFloat_returns size_bits data _ h _ _ _ _ _ H img
              eq_refl) as (info & Hi & Hc).
  assert (Hexp : forall info', reported_info lg = Some info' ->
                   0 < exponent_bits_per_sample info').
  { intros info' Hi'. rewrite Hi in Hi'. inversion Hi'; subst info'.
    rewrite Hlin in Hc. unfold color_space_str in Hc.
    destruct (Z.ltb_spec 0 (exponent_bits_per_sample info));
      [assumption|discriminate Hc]. }
  destruct (decodeLinearFloat_followed data _ h _ _ _ _ _ H img eq_refl Hexp)
    as (img' & Hf & Hd & Hw & Hh & Hp & Hcs & Hb).
  destruct (follows_exec h s lg s' _ _ Hf (exec_consistent _ _ _ _ _ _ _ H))
    as [f' Hrun].
  exists f', img'. rewrite Hcs, Hlin. repeat split; assumption.
Qed.

(** X17: an 8-bit image with a colour profile that [decode] returns is also
    returned by [decodeHighBitDepth]: run against the same library from
    the same state it makes the same calls and returns the same bytes and
    size. *)
Theorem decode_agrees_with_decodeHighBitDepth (data : list byte) {St}
    (h : Run.handler DecE St) f s s' lg img info icc_size :
  Run.exec h f s (decode size_bits data) = Some (s', lg, Some img) ->
  reported_info lg = Some info ->
  exponent_bits_per_sample info <= 0 -> bits_per_sample info <= 8 ->
  reported_icc_size lg = Some icc_size -> 0 < icc_size ->
  exists f' img',
    Run.exec h f' s (decodeHighBitDepth size_bits data)
      = Some (s', lg, Some img') /\
    Dec.data img' = Uint8ClampedArray (id_data img) /\
    width img' = id_width img /\
    height img' = id_height img /\
    bitDepth img' = 8.
Proof.
  intros H Hi He Hb Hn Hpos.
  assert (Hdepth : forall info', reported_info lg = Some info' ->
            effective_bit_depth (bits_per_sample info')
              (exponent_bits_per_sample info') = 8).
  { intros info' Hi'. rewrite Hi in Hi'. inversion Hi'; subst info'.
    unfold effective_bit_depth.
    destruct (Z.ltb_spec 0 (exponent_bits_per_sample info)); [lia|].
    destruct (Z.leb_spec (bits_per_sample info) 8); [reflexivity|lia]. }
  assert (Hicc : forall n, reported_icc_size lg = Some n -> 0 < n).
  { intros n Hn'. rewrite Hn in Hn'. inversion Hn'; subst n. exact Hpos. }
  destruct (decode_followed data _ h _ _ _ _ _ H img eq_refl Hdepth Hicc)
    as (img' & Hf & Hrest).
  destruct (follows_exec h s lg s' _ _ Hf (exec_consistent _ _ _ _ _ _ _ H))
    as [f' Hrun].
  exists f', img'. split; assumption.
Qed.

End DecodersAgree.

(** ** Decoder: the images returned *)

Section DecodedImages.

Variable size_bits : Z.

Import Jxl Dec.

Lemma decodeHighBitDepth_transform (data : list byte) :
  holds (decodeHighBitDepth size_bits data) (fun lg r =>
    forall img, r = Some img ->
    bitDepth img = 8 -> parse_answer lg = Some true ->
    exists info icc_size icc samples tc,
      reported_info lg = Some info /\
      reported_icc_size lg = Some icc_size /\
      icc_bytes_stored lg = [icc] /\
      stored_samples lg = Some samples /\
      transform_calls lg = [tc] /\
      tc = {| tc_src :=
                filled (alloc 0%R (component_count size_bits info)) samples;
              tc_src_format := skcms_PixelFormat_RGBA_ffff;
              tc_src_alpha :=
                if alpha_premultiplied info
                then skcms_AlphaFormat_PremulAsEncoded
                else skcms_AlphaFormat_Unpremul;
              tc_src_profile := parsed_profile (icc_buffer icc_size icc);
              tc_dst_format := skcms_PixelFormat_RGBA_8888;
              tc_dst_alpha := skcms_AlphaFormat_Unpremul;
              tc_dst_profile := skcms_sRGB_profile;
              tc_npixels := pixel_count size_bits info;
              tc_ok := true;
              tc_stored := tc_stored tc |} /\
      Dec.data img =
        Uint8ClampedArray
          (typed_memory_view (component_count size_bits info)
             (filled (alloc 0 (component_count size_bits info))
                (tc_stored tc)))).
Proof.
  unfold decodeHighBitDepth. walk;
    intros img0 Eimg H8 Hparse; try discriminate; inversion Eimg; subst;
    clear Eimg; cbn [bitDepth] in H8; try discriminate Hparse;
    try (apply Z.eqb_neq in H8; [contradiction|assumption]).
  all: try match goal with
           | H : (_ =? 8) = false |- _ =>
             apply Z.eqb_neq in H; contradiction
           end.
  all: tests_to_eqs; subst.
  all: do 5 eexists.
  all: repeat (split; [reflexivity|]).
  all: cbn [tc_stored Dec.data].
  all: split; [|reflexivity].
  all: unfold component_count, pixel_count, icc_buffer.
  all: repeat match goal with H : fst _ = true |- _ => rewrite H end.
  all: reflexivity.
Qed.

Ltac icc_leaf :=
  intros img0 Eimg; try discriminate; inversion Eimg; subst; clear Eimg;
  do 2 eexists; repeat (split; [reflexivity|]);
  match goal with
  | H : (0 <? _) = true |- _ =>
    left; apply Z.ltb_lt in H; split; [exact H|];
    eexists; split; reflexivity
  | H : (0 <? _) = false |- _ =>
    right; apply Z.ltb_ge in H; split; [exact H|]; split; reflexivity
  end.

Lemma decodeHighBitDepth_profile (data : list byte) :
  holds (decodeHighBitDepth size_bits data) (fun lg r =>
    forall img, r = Some img ->
    exists info icc_size,
      reported_info lg = Some info /\
      reported_icc_size lg = Some icc_size /\
      width img = xsize info /\
      height img = ysize info /\
      hasAlpha img = (0 <? alpha_bits info) /\
      ((0 < icc_size /\
        exists icc,
          icc_bytes_stored lg = [icc] /\
          iccProfile img
          = typed_memory_view icc_size (icc_buffer icc_size icc))
       \/ (icc_size <= 0 /\ icc_bytes_stored lg = []
           /\ iccProfile img = []))).
Proof. unfold decodeHighBitDepth. walk; icc_leaf. Qed.

Lemma decodeLinearFloat_profile (data : list byte) :
  holds (decodeLinearFloat size_bits data) (fun lg r =>
    forall img, r = Some img ->
    exists info icc_size,
      reported_info lg = Some info /\
      reported_icc_size lg = Some icc_size /\
      lf_width img = xsize info /\
      lf_height img = ysize info /\
      lf_sourceBitDepth img = Int.to_int (bits_per_sample info) /\
      ((0 < icc_size /\
        exists icc,
          icc_bytes_stored lg = [icc] /\
          lf_iccProfile img
          = typed_memory_view icc_size (icc_buffer icc_size icc))
       \/ (icc_size <= 0 /\ icc_bytes_stored lg = []
           /\ lf_iccProfile img = []))).
Proof. unfold decodeLinearFloat. walk; icc_leaf. Qed.

(** X18: the pixel array returned by each of the three decode functions
    holds exactly [component_count] samples, however many the library
    stored; that is four samples a pixel for an image of fewer than 2^30
    pixels, and fewer than that for an image of 2^32 pixels or more (the
    pixel count is computed in 32 bits). *)
Theorem decoded_data_length :
  32 <= size_bits ->
  (forall (data : list byte) St (h : Run.handler DecE St) f s s' lg img,
     Run.exec h f s (decode size_bits data) = Some (s', lg, Some img) ->
     exists info,
       reported_info lg = Some info /\
       Z.of_nat (List.length (id_data img))
       = component_count size_bits info) /\
  (forall (data : list byte) St (h : Run.handler DecE St) f s s' lg img,
     Run.exec h f s (decodeHighBitDepth size_bits data)
       = Some (s', lg, Some img) ->
     exists info,
       reported_info lg = Some info /\
       samples_count (Dec.data img) = component_count size_bits info) /\
  (forall (data : list byte) St (h : Run.handler DecE St) f s s' lg img,
     Run.exec h f s (decodeLinearFloat size_bits data)
       = Some (s', lg, Some img) ->
     exists info,
       reported_info lg = Some info /\
       Z.of_nat (List.length (lf_data img))
       = component_count size_bits info) /\
  (forall info : JxlBasicInfo,
     0 <= xsize info -> 0 <= ysize info ->
     (xsize info * ysize info < 2 ^ 32 / 4 ->
      component_count size_bits info = 4 * (xsize info * ysize info)) /\
     (2 ^ 32 <= xsize info * ysize info ->
      component_count size_bits info < 4 * (xsize info * ysize info))).
Proof.
  intros Hbits.
  assert (Hpos : forall info, 0 <= component_count size_bits info).
  { intros info. unfold component_count, Enc.to_size, Int.wrap.
    apply Z.mod_pos_bound. apply Z.pow_pos_nonneg; lia. }
  split; [|split; [|split]].
  - intros data St h f s s' lg img H.
    destruct (decode_data size_bits data _ h _ _ _ _ _ H img eq_refl)
      as (info & icc_size & icc & samples & tc & Hi & _ & _ & _ & _ & _ & _
          & ->).
    exists info. split; [exact Hi|]. cbn [id_data].
    rewrite length_view_filled. apply Z2Nat.id, Hpos.
  - intros data St h f s s' lg img H.
    destruct (decodeHighBitDepth_data size_bits data _ h _ _ _ _ _ H img
                eq_refl)
      as (info & samples & Hi & _ & _ & _ & Hn & _).
    exists info. split; [exact Hi|]. rewrite Hn. apply Z2Nat.id, Hpos.
  - intros data St h f s s' lg img H.
    destruct (decodeLinearFloat_data size_bits data _ h _ _ _ _ _ H img
                eq_refl)
      as (info & samples & Hi & _ & Hd & _).
    exists info. split; [exact Hi|]. rewrite Hd. unfold image_buffer.
    rewrite length_view_filled. apply Z2Nat.id, Hpos.
  - intros info Hx Hy.
    pose proof (size_max_pos size_bits Hbits) as HM.
    unfold Enc.size_max, Int.max_unsigned in HM.
    unfold component_count, Enc.to_size, Int.wrap, COMPONENTS_PER_PIXEL.
    assert (P32 : 0 < 2 ^ 32) by lia.
    pose proof (Z.mod_pos_bound (xsize info * ysize info) (2 ^ 32) P32)
      as Hm.
    assert (Hsmall : (xsize info * ysize info) mod 2 ^ 32 mod 2 ^ size_bits
                     = (xsize info * ysize info) mod 2 ^ 32)
      by (apply Z.mod_small; lia).
    rewrite Hsmall. split.
    + intros Hfit.
      assert (Hlt : xsize info * ysize info < 2 ^ 32).
      { assert (2 ^ 32 / 4 <= 2 ^ 32) by (apply Z.div_le_upper_bound; lia).
        lia. }
      rewrite (Z.mod_small (xsize info * ysize info) (2 ^ 32)) by nia.
      assert (Hq : 2 ^ 32 / 4 * 4 <= 2 ^ 32)
        by (rewrite Z.mul_comm; apply Z.mul_div_le; lia).
      rewrite Z.mod_small by nia. lia.
    + intros Hbig.
      pose proof (Z.mod_pos_bound ((xsize info * ysize info) mod 2 ^ 32 * 4)
                    (2 ^ size_bits) ltac:(lia)) as Hm2.
      pose proof (Z.mod_le ((xsize info * ysize info) mod 2 ^ 32 * 4)
                    (2 ^ size_bits) ltac:(lia) ltac:(lia)) as Hle.
      lia.
Qed.

(** X19: the kind of pixel array [decodeHighBitDepth] returns is
    determined by the bit depth it reports: bytes for 8, 16-bit integers
    for 10, 12 and 16, floats for 32; no other depth is reported, and the
    depth is 32 exactly when the colour space is labelled "linear". *)
Theorem decodeHighBitDepth_data_type (data : list byte) {St}
    (h : Run.handler DecE St) f s s' lg img :
  Run.exec h f s (decodeHighBitDepth size_bits data)
    = Some (s', lg, Some img) ->
  match Dec.data img with
  | Uint8ClampedArray _ => bitDepth img = 8
  | Uint16Array _ =>
      bitDepth img = 10 \/ bitDepth img = 12 \/ bitDepth img = 16
  | Float32Array _ => bitDepth img = 32
  end
  /\ (bitDepth img = 32 <-> colorSpace img = "linear"%string)
  /\ (bitDepth img <> 32 <-> colorSpace img = "srgb"%string).
Proof.
  intros H.
  destruct (decodeHighBitDepth_data size_bits data _ h _ _ _ _ _ H img
              eq_refl)
    as (info & samples & _ & _ & Hd & Hc & _ & Hk).
  destruct (effective_bit_depth_cases (bits_per_sample info)
              (exponent_bits_per_sample info)) as [Hcases H32].
  cbv zeta in Hcases, H32. rewrite <- Hd in Hcases, H32.
  split.
  { destruct (Dec.data img); [exact Hk| |apply Hk].
    destruct Hk as (N8 & N32 & _). lia. }
  rewrite Hc. unfold color_space_str.
  destruct (Z.ltb_spec 0 (exponent_bits_per_sample info)) as [L|L].
  - split; split; intros; try reflexivity; try discriminate.
    + apply H32, L.
    + exfalso. apply H0. apply H32, L.
  - split; split; intros; try reflexivity; try discriminate.
    + apply H32 in H0. lia.
    + intros E. apply H32 in E. lia.
Qed.



(** X22: the conversion of a float sample to a byte in the manual
    fallback yields a byte, whatever the exponent bits; for an integer
    source (no exponent bits) it saturates and truncates: 0 for every
    sample at or below 0, 255 exactly for the samples at or above 1,
    never more for a smaller sample. *)
Theorem to_byte_pixel_truncates (exponent_bits : Z) (v w : R) :
  0 <= to_byte_pixel exponent_bits v <= 255
  /\ (exponent_bits <= 0 ->
      ((v <= 0)%R -> to_byte_pixel exponent_bits v = 0)
      /\ ((1 <= v)%R <-> to_byte_pixel exponent_bits v = 255)
      /\ ((v <= w)%R ->
          to_byte_pixel exponent_bits v <= to_byte_pixel exponent_bits w)).
Proof.
  split.
  - unfold to_byte_pixel, Int.wrap.
    pose proof (Z.mod_pos_bound
                  (Flt.trunc
                     (Flt.max 0
                        (Flt.min 1
                           (if 0 <? exponent_bits
                            then
                              if Rle_dec v 0.0031308 then (v * 12.92)%R
                              else (1.055 * Rpower v (1 / 2.4) - 0.055)%R
                            else v)) * 255)%R) (2 ^ 8) ltac:(lia)).
    lia.
  - intros He. rewrite !to_byte_pixel_quantise by exact He.
    destruct (quantise_facts 255 v w ltac:(lia))
      as (F1 & F2 & F3 & F4 & F5).
    split; [exact F2|]. split; [|exact F5].
    split; [exact F3|]. intros E.
    destruct (Rle_dec 1 v) as [L|N]; [exact L|].
    assert (Hlt : (v < 1)%R) by lra.
    specialize (F4 Hlt ltac:(lia)). lia.
Qed.

(** X23: float samples pass through unchanged.  [decodeLinearFloat]
    always, and [decodeHighBitDepth] for a float source, return the
    output buffer as the library left it; when the library stored
    exactly [component_count] samples, these are the samples returned. *)
Theorem float_samples_pass_through :
  (forall (data : list byte) St (h : Run.handler DecE St) f s s' lg img,
     Run.exec h f s (decodeLinearFloat size_bits data)
       = Some (s', lg, Some img) ->
     exists info samples,
       reported_info lg = Some info /\
       stored_samples lg = Some samples /\
       lf_data img = image_buffer size_bits info samples) /\
  (forall (data : list byte) St (h : Run.handler DecE St) f s s' lg img,
     Run.exec h f s (decodeHighBitDepth size_bits data)
       = Some (s', lg, Some img) ->
     bitDepth img = 32 ->
     exists info samples,
       reported_info lg = Some info /\
       stored_samples lg = Some samples /\
       Dec.data img = Float32Array (image_buffer size_bits info samples)) /\
  (forall (info : JxlBasicInfo) (samples : list R),
     Z.of_nat (List.length samples) = component_count size_bits info ->
     image_buffer size_bits info samples = samples).
Proof.
  split; [|split].
  - intros data St h f s s' lg img H.
    destruct (decodeLinearFloat_data size_bits data _ h _ _ _ _ _ H img
                eq_refl)
      as (info & samples & Hi & Hs & Hd & _).
    exists info, samples. repeat split; assumption.
  - intros data St h f s s' lg img H H32.
    destruct (decodeHighBitDepth_data size_bits data _ h _ _ _ _ _ H img
                eq_refl)
      as (info & samples & Hi & Hs & _ & _ & _ & Hk).
    exists info, samples. split; [exact Hi|]. split; [exact Hs|].
    destruct (Dec.data img) as [px|px|px].
    + rewrite Hk in H32. discriminate H32.
    + destruct Hk as (_ & N32 & _). contradiction.
    + destruct Hk as [_ ->]. reflexivity.
  - intros info samples Hn. unfold image_buffer.
    apply view_filled_exact, Hn.
Qed.

(** X24: the 8-bit conversion through skcms.  [decode], and
    [decodeHighBitDepth] for an 8-bit image whose profile parsed, call
    [skcms_Transform] once: on the float output buffer, as RGBA floats,
    premultiplied exactly when the basic info says so, from the profile
    parsed from the bytes the library stored, to unpremultiplied 8-bit
    RGBA in sRGB, for [pixel_count] pixels; the transform succeeded and
    the bytes returned are the first [component_count] it stored. *)
Theorem decode_converts_with_skcms :
  (forall (data : list byte) St (h : Run.handler DecE St) f s s' lg img,
     Run.exec h f s (decode size_bits data) = Some (s', lg, Some img) ->
     parse_answer lg = Some true
     /\ converted_with_skcms size_bits lg (id_data img)) /\
  (forall (data : list byte) St (h : Run.handler DecE St) f s s' lg img,
     Run.exec h f s (decodeHighBitDepth size_bits data)
       = Some (s', lg, Some img) ->
     bitDepth img = 8 -> parse_answer lg = Some true ->
     exists px,
       Dec.data img = Uint8ClampedArray px
       /\ converted_with_skcms size_bits lg px).
Proof.
  unfold converted_with_skcms. split.
  - intros data St h f s s' lg img H.
    destruct (decode_data size_bits data _ h _ _ _ _ _ H img eq_refl)
      as (info & icc_size & icc & samples & tc & Hi & Hn & Hicc & Hs & Hp
          & Htc & Etc & ->).
    split; [exact Hp|]. exists info, icc_size, icc, samples, tc.
    repeat (split; [assumption|]). rewrite Etc.
    repeat split; reflexivity.
  - intros data St h f s s' lg img H H8 Hp.
    destruct (decodeHighBitDepth_transform data _ h _ _ _ _ _ H img eq_refl
                H8 Hp)
      as (info & icc_size & icc & samples & tc & Hi & Hn & Hicc & Hs
          & Htc & Etc & Hd).
    eexists. split; [exact Hd|]. exists info, icc_size, icc, samples, tc.
    repeat (split; [assumption|]). rewrite Etc.
    repeat split; reflexivity.
Qed.

(** X25: the colour profile and the size handed back.  The ICC profile of
    the object [decodeHighBitDepth] or [decodeLinearFloat] returns is made
    of the first [icc_size] bytes of the profile buffer after the library
    stored the profile in it; when the library reports size 0 the profile
    is not requested and an empty one is returned.  Width and height are
    the reported ones, [hasAlpha] tells whether the alpha bits are
    positive, and [sourceBitDepth] is the reported bits per sample. *)
Theorem decoded_profile_and_size :
  (forall (data : list byte) St (h : Run.handler DecE St) f s s' lg img,
     Run.exec h f s (decodeHighBitDepth size_bits data)
       = Some (s', lg, Some img) ->
     exists info icc_size,
       reported_info lg = Some info /\
       reported_icc_size lg = Some icc_size /\
       width img = xsize info /\
       height img = ysize info /\
       hasAlpha img = (0 <? alpha_bits info) /\
       ((0 < icc_size /\
         exists icc,
           icc_bytes_stored lg = [icc] /\
           iccProfile img
           = typed_memory_view icc_size (icc_buffer icc_size icc))
        \/ (icc_size <= 0 /\ icc_bytes_stored lg = []
            /\ iccProfile img = []))) /\
  (forall (data : list byte) St (h : Run.handler DecE St) f s s' lg img,
     Run.exec h f s (decodeLinearFloat size_bits data)
       = Some (s', lg, Some img) ->
     exists info icc_size,
       reported_info lg = Some info /\
       reported_icc_size lg = Some icc_size /\
       lf_width img = xsize info /\
       lf_height img = ysize info /\
       lf_sourceBitDepth img = Int.to_int (bits_per_sample info) /\
       ((0 < icc_size /\
         exists icc,
           icc_bytes_stored lg = [icc] /\
           lf_iccProfile img
           = typed_memory_view icc_size (icc_buffer icc_size icc))
        \/ (icc_size <= 0 /\ icc_bytes_stored lg = []
            /\ lf_iccProfile img = []))) /\
  (forall (icc_size : Z) (icc : list byte),
     Z.of_nat (List.length icc) = icc_size ->
     typed_memory_view icc_size (icc_buffer icc_size icc) = icc).
Proof.
  split; [|split].
  - intros data St h f s s' lg img H.
    exact (decodeHighBitDepth_profile data _ h _ _ _ _ _ H img eq_refl).
  - intros data St h f s s' lg img H.
    exact (decodeLinearFloat_profile data _ h _ _ _ _ _ H img eq_refl).
  - intros icc_size icc Hn. unfold icc_buffer.
    apply view_filled_exact, Hn.
Qed.

End DecodedImages.

(** ** Runs on concrete inputs *)

(** The 3 x 2 RGB example against the simulated encoder with two bytes of
    output: one call of [JxlEncoderProcessOutput] stores them. *)
Lemma encode_rgb_run :
  exists lg,
    Run.exec Sim.encoder 100 [x0a; xff]
      (Sim.encode_32 Sim.image_3x2 3 2 Sim.options_rgb8)
      = Some ([], lg, Some [x0a; xff])
    /\ Enc.output_calls lg
       = [{| Enc.oc_next_out := 0; Enc.oc_avail_out := 8192;
             Enc.oc_status := Jxl.JXL_ENC_SUCCESS;
             Enc.oc_written := [x0a; xff] |}].
Proof.
  unfold Sim.encode_32, Enc.encode, Enc.encode_header, Enc.encode_settings,
    Enc.encode_frame, Flt.clamp.
  cbn [Enc.photonNoiseIso Enc.quality Sim.options_rgb8].
  destruct (Rlt_dec 0 0) as [H|_]; [lra|].
  destruct (Rlt_dec 90 0) as [H|_]; [lra|].
  destruct (Rlt_dec 100 90) as [H|_]; [lra|].
  destruct (Rle_dec 100 90) as [H|_]; [lra|].
  eexists. split; reflexivity.
Qed.

(** One 16-bit RGBA pixel, lossless, against the simulated encoder. *)
Lemma encode_rgba_run :
  exists lg,
    Run.exec Sim.encoder 100 [x0a; xff]
      (Sim.encode_32 Sim.image_1x1_rgba16 1 1 Sim.options_rgba16)
      = Some ([], lg, Some [x0a; xff]).
Proof.
  unfold Sim.encode_32, Enc.encode, Enc.encode_header, Enc.encode_settings,
    Enc.encode_frame.
  cbn [Enc.photonNoiseIso Sim.options_rgba16].
  destruct (Rlt_dec 0 0) as [H|_]; [lra|].
  eexists. reflexivity.
Qed.

(** X1, witness: every call of the 3 x 2 RGB run succeeded. *)
Lemma encode_returns_only_after_success_witness :
  exists lg,
    Run.exec Sim.encoder 100 [x0a; xff]
      (Sim.encode_32 Sim.image_3x2 3 2 Sim.options_rgb8)
      = Some ([], lg, Some [x0a; xff])
    /\ Forall Enc.call_succeeded lg.
Proof.
  destruct encode_rgb_run as (lg & Hrun & _). exists lg.
  split; [exact Hrun|].
  exact (encode_returns_only_after_success 32 _ _ _ _ _ _ _ _ _ _ _ _
           Hrun).
Defined.

(** X2, witness: the 3 x 2 RGB run destroys its encoder. *)
Lemma encode_releases_encoder_witness :
  exists lg,
    Run.exec Sim.encoder 100 [x0a; xff]
      (Sim.encode_32 Sim.image_3x2 3 2 Sim.options_rgb8)
      = Some ([], lg, Some [x0a; xff])
    /\ Enc.handle_released lg.
Proof.
  destruct encode_rgb_run as (lg & Hrun & _). exists lg.
  split; [exact Hrun|].
  exact (encode_releases_encoder 32 _ _ _ _ _ _ _ _ _ _ _ _ Hrun).
Defined.

(** X3, witness: the calls of the 3 x 2 RGB run are in order. *)
Lemma encode_calls_in_order_witness :
  exists lg,
    Run.exec Sim.encoder 100 [x0a; xff]
      (Sim.encode_32 Sim.image_3x2 3 2 Sim.options_rgb8)
      = Some ([], lg, Some [x0a; xff])
    /\ Enc.session_order (Enc.phases lg).
Proof.
  destruct encode_rgb_run as (lg & Hrun & _). exists lg.
  split; [exact Hrun|].
  exact (encode_calls_in_order 32 _ _ _ _ _ _ _ _ _ _ _ _ Hrun).
Defined.

(** X4, witness: the 3 x 2 RGB run returns the two bytes stored. *)
Lemma encode_returns_written_bytes_witness :
  exists lg,
    Run.exec Sim.encoder 100 [x0a; xff]
      (Sim.encode_32 Sim.image_3x2 3 2 Sim.options_rgb8)
      = Some ([], lg, Some [x0a; xff])
    /\ [x0a; xff] = Enc.written_by (Enc.output_calls lg).
Proof.
  destruct encode_rgb_run as (lg & Hrun & Hout). exists lg.
  split; [exact Hrun|].
  assert (Hav : Forall Enc.within_avail (Enc.output_calls lg))
    by (rewrite Hout; repeat constructor; vm_compute; discriminate).
  assert (Hcap : 8192 * 2 ^ (Z.of_nat (List.length (Enc.output_calls lg)) - 1)
                 <= Enc.size_max 32)
    by (rewrite Hout; vm_compute; discriminate).
  exact (proj1 (encode_returns_written_bytes 32 _ _ _ _ _ _ _ _ _ _ _ _
                  Hrun Hav Hcap)).
Defined.

(** X5, witness: the 3 x 2 RGB run asked for the codestream
    level. *)
Lemma encode_codestream_level_witness :
  exists lg,
    Run.exec Sim.encoder 100 [x0a; xff]
      (Sim.encode_32 Sim.image_3x2 3 2 Sim.options_rgb8)
      = Some ([], lg, Some [x0a; xff])
    /\ Enc.level_calls lg <> [].
Proof.
  destruct encode_rgb_run as (lg & Hrun & _). exists lg.
  split; [exact Hrun|].
  pose proof (encode_codestream_level 32 _ _ _ _ _ _ _ _ _ _ _ _ Hrun)
    as Hlevel.
  intros E. rewrite E in Hlevel. discriminate Hlevel.
Defined.

(** X6, witness: the 1 x 1 RGBA run declares one alpha channel. *)
Lemma encode_declares_alpha_witness :
  exists lg,
    Run.exec Sim.encoder 100 [x0a; xff]
      (Sim.encode_32 Sim.image_1x1_rgba16 1 1 Sim.options_rgba16)
      = Some ([], lg, Some [x0a; xff])
    /\ Z.of_nat (List.length (Enc.extra_channels_set lg)) = 1.
Proof.
  destruct encode_rgba_run as (lg & Hrun). exists lg.
  split; [exact Hrun|].
  apply (proj2 (proj2 (encode_declares_alpha 32 _ _ _ _ _ _ _ _ _ _ _ _
                         Hrun))).
  discriminate.
Defined.

(** X7, witness: the options set by the 3 x 2 RGB run are allowed
    values. *)
Lemma encode_option_values_witness :
  exists lg,
    Run.exec Sim.encoder 100 [x0a; xff]
      (Sim.encode_32 Sim.image_3x2 3 2 Sim.options_rgb8)
      = Some ([], lg, Some [x0a; xff])
    /\ forall id v, In (id, v) (Enc.options_set lg) ->
         Enc.option_value_allowed Sim.options_rgb8 id v.
Proof.
  destruct encode_rgb_run as (lg & Hrun & _). exists lg.
  split; [exact Hrun|].
  exact (encode_option_values 32 _ _ _ _ _ _ _ _ _ _ _ _ Hrun).
Defined.

(** X8, witness: the 1 x 1 RGBA run, colour space 1, sets the
    Display P3 encoding once. *)
Lemma encode_color_encoding_witness :
  exists lg,
    Run.exec Sim.encoder 100 [x0a; xff]
      (Sim.encode_32 Sim.image_1x1_rgba16 1 1 Sim.options_rgba16)
      = Some ([], lg, Some [x0a; xff])
    /\ map Jxl.primaries (Enc.color_encodings_set lg)
       = [Jxl.JXL_PRIMARIES_P3].
Proof.
  destruct encode_rgba_run as (lg & Hrun). exists lg.
  split; [exact Hrun|].
  rewrite (proj2 (proj2 (proj2
             (encode_color_encoding 32 _ _ _ _ _ _ _ _ _ _ _ _ Hrun)))
             ltac:(discriminate)).
  reflexivity.
Defined.

(** X9, witness: the lossless 1 x 1 RGBA run sets the flag and
    no distance. *)
Lemma encode_lossless_or_distance_witness :
  exists lg,
    Run.exec Sim.encoder 100 [x0a; xff]
      (Sim.encode_32 Sim.image_1x1_rgba16 1 1 Sim.options_rgba16)
      = Some ([], lg, Some [x0a; xff])
    /\ Enc.distances_set lg = [] /\ Enc.lossless_flags lg = [true].
Proof.
  destruct encode_rgba_run as (lg & Hrun). exists lg.
  split; [exact Hrun|].
  destruct (proj1 (encode_lossless_or_distance 32 _ _ _ _ _ _ _ _ _ _ _ _
                     Hrun) eq_refl) as (Hd & _ & Hl).
  split; [exact Hd|]. apply Hl. discriminate.
Defined.

(** X10, witness: a scripted library with a finite list of answers. *)
Lemma encode_terminates_witness :
  exists fuel s' lg r,
    Run.exec Sim.scripted fuel
      [(Jxl.JXL_ENC_NEED_MORE_OUTPUT, [x0a]); (Jxl.JXL_ENC_SUCCESS, [xff])]
      (Sim.encode_32 Sim.image_3x2 3 2 Sim.options_rgb8)
    = Some (s', lg, r).
Proof.
  apply (encode_terminates 32 _ _ Sim.image_3x2 3 2 Sim.options_rgb8
           Sim.scripted (@List.length _)).
  intros next_out avail_out s s1 written H.
  destruct s as [|a rest]; cbn in H.
  - inversion H.
  - inversion H. cbn. lia.
Defined.

(** X11, witness: the 3 x 2 RGB run adds its 18 bytes as the frame. *)
Lemma encode_frame_geometry_witness :
  exists lg info format,
    Run.exec Sim.encoder 100 [x0a; xff]
      (Sim.encode_32 Sim.image_3x2 3 2 Sim.options_rgb8)
      = Some ([], lg, Some [x0a; xff])
    /\ Enc.basic_infos_set lg = [info]
    /\ Enc.frames_added lg = [(format, Sim.image_3x2, 18)].
Proof.
  destruct encode_rgb_run as (lg & Hrun & _).
  assert (I3 : Int.is_int 3)
    by (unfold Int.is_int, Int.int_min, Int.int_max; lia).
  assert (I2 : Int.is_int 2)
    by (unfold Int.is_int, Int.int_min, Int.int_max; lia).
  destruct (proj2 (proj2 (encode_frame_geometry 32 ltac:(lia) _ _
                            Sim.image_3x2 3 2 Sim.options_rgb8
                            _ _ _ _ _ _ I3 I2 I3 Hrun))
              ltac:(discriminate)) as (info & format & Hi & Hf).
  exists lg, info, format. split; [exact Hrun|]. split; [exact Hi|exact Hf].
Defined.

(** X12, witness: the valid 3 x 2 RGB input reaches
    [JxlEncoderCreate]. *)
Lemma encode_calls_library_iff_valid_witness :
  exists lg b rest,
    Run.exec Sim.encoder 100 [x0a; xff]
      (Sim.encode_32 Sim.image_3x2 3 2 Sim.options_rgb8)
      = Some ([], lg, Some [x0a; xff])
    /\ lg = Run.Answered _ Jxl.JxlEncoderCreate b :: rest.
Proof.
  destruct encode_rgb_run as (lg & Hrun & _).
  assert (I3 : Int.is_int 3)
    by (unfold Int.is_int, Int.int_min, Int.int_max; lia).
  assert (I2 : Int.is_int 2)
    by (unfold Int.is_int, Int.int_min, Int.int_max; lia).
  assert (V : Spec.valid_input 32 Sim.image_3x2 3 2 Sim.options_rgb8).
  { unfold Spec.valid_input. split; [lia|]. split; [lia|].
    split; [left; reflexivity|]. split; [left; split; reflexivity|].
    split; [vm_compute; discriminate|reflexivity]. }
  destruct (proj2 (encode_calls_library_iff_valid 32 ltac:(lia) _ _
                     Sim.image_3x2 3 2 Sim.options_rgb8
                     _ _ _ _ _ _ I3 I2 I3 Hrun) V)
    as (b & rest & E).
  exists lg, b, rest. split; [exact Hrun|exact E].
Defined.

(** X13, witness: qualities 50 and 90. *)
Lemma quality_to_distance_range_witness :
  (0.1 < Enc.quality_to_distance 90)%R
  /\ (Enc.quality_to_distance 90 + 0.03 < Enc.quality_to_distance 50)%R.
Proof.
  split.
  - apply (proj1 (proj2 (proj2 quality_to_distance_range)) 90%R). lra.
  - apply (proj2 (proj2 (proj2 (proj2 quality_to_distance_range)))
             50%R 90%R); lra.
Defined.

(** X14, witness: a 1 x 1 float image. *)
Lemma decoders_follow_protocol_witness :
  exists s' lg img,
    Run.exec (Sim.decoder (Sim.info_1x1 16 8) [] Sim.one_pixel false []) 40
      0%nat (Dec.decodeLinearFloat 32 [x0a; xff]) = Some (s', lg, Some img)
    /\ Dec.protocol_followed 32 [x0a; xff] lg.
Proof.
  eexists _, _, _. split; [reflexivity|].
  exact (proj2 (proj2 (decoders_follow_protocol 32)) [x0a; xff] _
           (Sim.decoder (Sim.info_1x1 16 8) [] Sim.one_pixel false [])
           40%nat 0%nat _ _ _ eq_refl).
Defined.

(** X15, witness: a run of [decode] that fails at the colour
    profile. *)
Lemma decoders_release_decoder_witness :
  exists s' lg,
    Run.exec (Sim.decoder (Sim.info_1x1 8 0) [x00] Sim.one_pixel false []) 40
      0%nat (Dec.decode 32 []) = Some (s', lg, None)
    /\ Dec.handle_released lg.
Proof.
  eexists _, _. split; [reflexivity|].
  exact (proj1 (decoders_release_decoder 32) [] _
           (Sim.decoder (Sim.info_1x1 8 0) [x00] Sim.one_pixel false [])
           40%nat 0%nat _ _ _ eq_refl).
Defined.

(** X18, witness: a 1 x 1 float image has four samples. *)
Lemma decoded_data_length_witness :
  32 <= 32
  /\ exists s' lg img info,
       Run.exec (Sim.decoder (Sim.info_1x1 16 8) [] Sim.one_pixel false [])
         40 0%nat (Dec.decodeLinearFloat 32 []) = Some (s', lg, Some img)
       /\ Dec.reported_info lg = Some info
       /\ Z.of_nat (List.length (Dec.lf_data img))
          = Dec.component_count 32 info.
Proof.
  split; [lia|].
  destruct (proj1 (proj2 (proj2 (decoded_data_length 32 ltac:(lia)))) [] _
              (Sim.decoder (Sim.info_1x1 16 8) [] Sim.one_pixel false [])
              40%nat 0%nat _ _ _ eq_refl) as (info & Hi & Hn).
  eexists _, _, _, info. split; [reflexivity|]. split; [exact Hi|exact Hn].
Defined.

(** X19, witness: a 10-bit image is labelled srgb. *)
Lemma decodeHighBitDepth_data_type_witness :
  exists s' lg img,
    Run.exec (Sim.decoder (Sim.info_1x1 10 0) [] Sim.one_pixel false []) 40
      0%nat (Dec.decodeHighBitDepth 32 []) = Some (s', lg, Some img)
    /\ Dec.bitDepth img <> 32
    /\ Dec.colorSpace img = "srgb"%string.
Proof.
  eexists _, _, _. split; [reflexivity|].
  destruct (decodeHighBitDepth_data_type 32 []
              (Sim.decoder (Sim.info_1x1 10 0) [] Sim.one_pixel false [])
              40%nat 0%nat _ _ _ eq_refl) as (_ & _ & Hs).
  assert (N : 10 <> 32) by lia.
  split; [exact N|exact (proj1 Hs N)].
Defined.



(** X22, witness: a sample above 1 becomes 255. *)
Lemma to_byte_pixel_truncates_witness :
  Dec.to_byte_pixel 0 2 = 255.
Proof.
  apply (proj1 (proj2 (proj2 (to_byte_pixel_truncates 0 2 2)
                         ltac:(lia)))).
  lra.
Defined.

(** X23, witness: a 1 x 1 float image. *)
Lemma float_samples_pass_through_witness :
  exists s' lg img info samples,
    Run.exec (Sim.decoder (Sim.info_1x1 16 8) [] Sim.one_pixel false []) 40
      0%nat (Dec.decodeLinearFloat 32 []) = Some (s', lg, Some img)
    /\ Dec.reported_info lg = Some info
    /\ Dec.stored_samples lg = Some samples
    /\ Dec.lf_data img = Dec.image_buffer 32 info samples.
Proof.
  destruct (proj1 (float_samples_pass_through 32) [] _
              (Sim.decoder (Sim.info_1x1 16 8) [] Sim.one_pixel false [])
              40%nat 0%nat _ _ _ eq_refl) as (info & samples & H).
  eexists _, _, _, info, samples. split; [reflexivity|exact H].
Defined.

(** X24, witness: an 8-bit 1 x 1 image whose profile parses. *)
Lemma decode_converts_with_skcms_witness :
  exists s' lg img,
    Run.exec
      (Sim.decoder (Sim.info_1x1 8 0) [x00] Sim.one_pixel true
         Sim.srgb_pixel) 40
      0%nat (Dec.decode 32 []) = Some (s', lg, Some img)
    /\ Dec.parse_answer lg = Some true
    /\ Dec.converted_with_skcms 32 lg (Dec.id_data img).
Proof.
  eexists _, _, _. split; [reflexivity|].
  exact (proj1 (decode_converts_with_skcms 32) [] _
           (Sim.decoder (Sim.info_1x1 8 0) [x00] Sim.one_pixel true
              Sim.srgb_pixel)
           40%nat 0%nat _ _ _ eq_refl).
Defined.

(** X25, witness: an 8-bit 1 x 1 image with a one-byte profile. *)
Lemma decoded_profile_and_size_witness :
  exists s' lg img info,
    Run.exec
      (Sim.decoder (Sim.info_1x1 8 0) [x00] Sim.one_pixel true
         Sim.srgb_pixel) 40
      0%nat (Dec.decodeHighBitDepth 32 []) = Some (s', lg, Some img)
    /\ Dec.reported_info lg = Some info
    /\ Dec.width img = Jxl.xsize info
    /\ Dec.height img = Jxl.ysize info.
Proof.
  destruct (proj1 (decoded_profile_and_size 32) [] _
              (Sim.decoder (Sim.info_1x1 8 0) [x00] Sim.one_pixel true
                 Sim.srgb_pixel)
              40%nat 0%nat _ _ _ eq_refl)
    as (info & icc_size & Hi & _ & Hw & Hh & _).
  eexists _, _, _, info. split; [reflexivity|].
  split; [exact Hi|]. split; [exact Hw|exact Hh].
Defined.

(** X16, witness: a 1 x 1 float image. *)
Lemma float_decoders_agree_witness :
  exists s' lg img f' img',
    Run.exec (Sim.decoder (Sim.info_1x1 16 8) [] Sim.one_pixel false []) 40
      0%nat (Dec.decodeLinearFloat 32 []) = Some (s', lg, Some img)
    /\ Run.exec (Sim.decoder (Sim.info_1x1 16 8) [] Sim.one_pixel false [])
         f' 0%nat (Dec.decodeHighBitDepth 32 []) = Some (s', lg, Some img')
    /\ Dec.data img' = Dec.Float32Array (Dec.lf_data img).
Proof.
  destruct (float_decoders_agree 32 []
              (Sim.decoder (Sim.info_1x1 16 8) [] Sim.one_pixel false [])
              40%nat 0%nat _ _ _ eq_refl eq_refl)
    as (f' & img' & Hrun & Hd & _).
  eexists _, _, _, f', img'. split; [reflexivity|].
  split; [exact Hrun|exact Hd].
Defined.

(** X17, witness: an 8-bit 1 x 1 image whose profile
    parses. *)
Lemma decode_agrees_with_decodeHighBitDepth_witness :
  exists s' lg img f' img',
    Run.exec
      (Sim.decoder (Sim.info_1x1 8 0) [x00] Sim.one_pixel true
         Sim.srgb_pixel) 40
      0%nat (Dec.decode 32 []) = Some (s', lg, Some img)
    /\ Run.exec
         (Sim.decoder (Sim.info_1x1 8 0) [x00] Sim.one_pixel true
            Sim.srgb_pixel)
         f' 0%nat (Dec.decodeHighBitDepth 32 []) = Some (s', lg, Some img')
    /\ Dec.data img' = Dec.Uint8ClampedArray (Dec.id_data img).
Proof.
  destruct (decode_agrees_with_decodeHighBitDepth 32 []
              (Sim.decoder (Sim.info_1x1 8 0) [x00] Sim.one_pixel true
                 Sim.srgb_pixel)
              40%nat 0%nat _ _ _ (Sim.info_1x1 8 0) 1
              eq_refl eq_refl ltac:(cbn; lia) ltac:(cbn; lia) eq_refl
              ltac:(lia))
    as (f' & img' & Hrun & Hd & _).
  eexists _, _, _, f', img'. split; [reflexivity|].
  split; [exact Hrun|exact Hd].
Defined.
